(** * SyzyAsan instrumentation transform

    A shallow embedding of [syzygy/instrument/transforms/asan_transform.cc]:
    the operand classifier, the probe naming and enumeration, the basic-block
    instrumenter and the pass driver, followed by the properties of the
    design document that are checked against them.

    Conventions.  C++ integers are [Z] with the wrap-around written where a
    conversion narrows; [double] is the IEEE-754 specification type
    [spec_float]; enumerations are inductive types; objects that are mutated
    in place are threaded through the functions and returned.  Code of other
    translation units (distorm, the assembler, the block-graph library, the
    analyses) is an interface: a class whose fields are the functions this
    file calls. *)

From Stdlib Require Import ZArith List String Ascii Bool Lia DecimalString.
From Stdlib Require Import DecimalPos DecimalN.
From Stdlib Require Import Floats.SpecFloat.
Import ListNotations.
Local Open Scope Z_scope.

(* ================================================================== *)
(** * Part I: the program *)
(* ================================================================== *)

(** ** distorm: decoded instructions *)

(** Operand types of [_Operand::type] (distorm.h). *)
Inductive OperandType :=
| O_NONE | O_REG | O_IMM | O_IMM1 | O_IMM2 | O_DISP | O_SMEM | O_MEM | O_PC
| O_PTR.

Module Op.
(** [_Operand]: [size] is in bits, [index] a distorm register number. *)
Record t := mk { type : OperandType; index : Z; size : Z }.
End Op.
Definition _Operand := Op.t.

Module DInst.
(** [_DInst], the fields this file reads. *)
Record t := mk {
  ops : nat -> _Operand;
  flags : Z;
  opcode : Z;
  disp : Z;
  dispSize : Z;
  scale : Z;
  base : Z;
  segment : Z
}.
End DInst.
Definition _DInst := DInst.t.

(** ** Registers, displacements and operands of the assembler *)

Inductive RegisterId :=
| kRegisterEax | kRegisterEcx | kRegisterEdx | kRegisterEbx
| kRegisterEsp | kRegisterEbp | kRegisterEsi | kRegisterEdi
| kRegisterNone.

Definition RegisterId_eqb (a b : RegisterId) : bool :=
  match a, b with
  | kRegisterEax, kRegisterEax | kRegisterEcx, kRegisterEcx
  | kRegisterEdx, kRegisterEdx | kRegisterEbx, kRegisterEbx
  | kRegisterEsp, kRegisterEsp | kRegisterEbp, kRegisterEbp
  | kRegisterEsi, kRegisterEsi | kRegisterEdi, kRegisterEdi
  | kRegisterNone, kRegisterNone => true
  | _, _ => false
  end.

Inductive ScaleFactor := kTimes1 | kTimes2 | kTimes4 | kTimes8.

Inductive ValueSize := kSizeNone | kSize8Bit | kSize32Bit.

Inductive ReferredType :=
| REFERRED_TYPE_UNKNOWN | REFERRED_TYPE_BLOCK | REFERRED_TYPE_BASIC_BLOCK.

(** Modelled from the spec: [BasicBlockReference] is declared in
    syzygy/block_graph/basic_block.h.  A reference names what it refers to
    (a block or a basic block, by identity) and an offset into it; a
    default-constructed reference has type [REFERRED_TYPE_UNKNOWN]. *)
Record BasicBlockReference := {
  referred_type : ReferredType;
  referred : nat;
  offset : Z
}.

Definition no_reference : BasicBlockReference :=
  {| referred_type := REFERRED_TYPE_UNKNOWN; referred := 0%nat; offset := 0 |}.

(** Conversions of C++: to [uint32_t] and to [int32_t]. *)
Definition to_uint32 (z : Z) : Z := z mod 2 ^ 32.
Definition to_int32 (z : Z) : Z := (z + 2 ^ 31) mod 2 ^ 32 - 2 ^ 31.

(** Modelled from the spec: [BasicBlockAssembler::Displacement] is declared
    in syzygy/block_graph/basic_block_assembler.h.  A displacement is a
    32-bit value of some encoded size, or a reference to a block at an
    offset or to a basic block. *)
Record Displacement := {
  value_ : Z;
  size_ : ValueSize;
  reference_ : BasicBlockReference
}.

(** The interface of distorm and of [core::] that the classifier uses: the
    flag and segment macros of distorm.h, the mnemonic codes of mnemonics.h
    that this file names, and the helpers.  [GetRegister] is
    [assm::CastAsRegister32(core::GetRegister(.))]; [ValueSizeFromConstant]
    is the size the assembler gives a literal displacement. *)
Class Decoder := {
  I_LEA : Z;
  I_CLFLUSH : Z;
  I_PREFETCH : Z;
  I_PREFETCHNTA : Z;
  I_PREFETCHT0 : Z;
  I_PREFETCHT1 : Z;
  I_PREFETCHT2 : Z;
  I_PREFETCHW : Z;
  I_CMPS : Z;
  I_LODS : Z;
  I_MOVS : Z;
  I_STOS : Z;
  FLAG_GET_PREFIX : Z -> Z;
  FLAG_REPNZ : Z;
  FLAG_REP : Z;
  FLAG_DST_WR : Z;
  SEGMENT_GET : Z -> Z;
  R_NONE : Z;
  R_FS : Z;
  R_GS : Z;
  IsNop : _DInst -> bool;
  GetRegister : Z -> RegisterId;
  GET_MNEMONIC_NAME : Z -> string;
  ValueSizeFromConstant : Z -> ValueSize
}.

(** [Instruction]: the decoded form, the references its operands carry
    ([FindOperandReference]) and its source range. *)
Record Instruction := {
  representation : _DInst;
  FindOperandReference : nat -> option BasicBlockReference;
  source_range : nat
}.

Definition instr_opcode (instr : Instruction) : Z :=
  DInst.opcode (representation instr).

Section Classifier.
Context {D : Decoder}.

(** Modelled from the spec: the constructors of [Displacement] the
    transform calls, from the same header: the default one, the one from a
    [uint32_t] value, the one from a block and an offset, and the one from a
    basic block, which takes no offset. *)
Definition Displacement_none : Displacement :=
  {| value_ := 0; size_ := kSizeNone; reference_ := no_reference |}.

Definition Displacement_value (value : Z) : Displacement :=
  {| value_ := to_uint32 value;
     size_ := ValueSizeFromConstant (to_uint32 value);
     reference_ := no_reference |}.

Definition Displacement_block (block : nat) (off : Z) : Displacement :=
  {| value_ := 0; size_ := kSize32Bit;
     reference_ := {| referred_type := REFERRED_TYPE_BLOCK;
                      referred := block; offset := to_int32 off |} |}.

Definition Displacement_basic_block (bb : nat) : Displacement :=
  {| value_ := 0; size_ := kSize32Bit;
     reference_ := {| referred_type := REFERRED_TYPE_BASIC_BLOCK;
                      referred := bb; offset := 0 |} |}.

(** Modelled from the spec: [BasicBlockAssembler::Operand], from the same
    header, and the constructors the transform calls: an optional base, an
    optional index with a scale, and a displacement. *)
Record Operand := {
  base_ : RegisterId;
  index_ : RegisterId;
  scale_ : ScaleFactor;
  displacement_ : Displacement
}.

Definition Operand_base_displ (base : RegisterId) (displ : Displacement)
  : Operand :=
  {| base_ := base; index_ := kRegisterNone; scale_ := kTimes1;
     displacement_ := displ |}.

Definition Operand_base_index (base index : RegisterId) (scale : ScaleFactor)
  : Operand :=
  {| base_ := base; index_ := index; scale_ := scale;
     displacement_ := Displacement_none |}.

Definition Operand_base_index_displ (base index : RegisterId)
    (scale : ScaleFactor) (displ : Displacement) : Operand :=
  {| base_ := base; index_ := index; scale_ := scale;
     displacement_ := displ |}.

Definition Operand_index_displ (index : RegisterId) (scale : ScaleFactor)
    (displ : Displacement) : Operand :=
  {| base_ := kRegisterNone; index_ := index; scale_ := scale;
     displacement_ := displ |}.

Definition Operand_displ (displ : Displacement) : Operand :=
  {| base_ := kRegisterNone; index_ := kRegisterNone; scale_ := kTimes1;
     displacement_ := displ |}.

(** ** The memory access descriptor *)

(** Modelled from the spec: [MemoryAccessMode] and [MemoryAccessInfo] are
    declared in asan_transform.h; the spec gives the modes in this order and
    the four fields. *)
Inductive MemoryAccessMode :=
| kNoAccess | kReadAccess | kWriteAccess | kInstrAccess | kRepzAccess
| kRepnzAccess.

Record MemoryAccessInfo := {
  mode : MemoryAccessMode;
  size : Z;
  opcode : Z;
  save_flags : bool
}.

Definition MemoryAccessMode_eqb (a b : MemoryAccessMode) : bool :=
  match a, b with
  | kNoAccess, kNoAccess | kReadAccess, kReadAccess
  | kWriteAccess, kWriteAccess | kInstrAccess, kInstrAccess
  | kRepzAccess, kRepzAccess | kRepnzAccess, kRepnzAccess => true
  | _, _ => false
  end.

(** ** Operand classifier *)

(** Returns true iff opcode should be instrumented. *)
Definition ShouldInstrumentOpcode (opcode : Z) : bool :=
  (* LEA does not actually access memory. *)
  if opcode =? I_LEA then false
  (* We can ignore the prefetch and clflush instructions. *)
  else if (opcode =? I_CLFLUSH) || (opcode =? I_PREFETCH)
          || (opcode =? I_PREFETCHNTA) || (opcode =? I_PREFETCHT0)
          || (opcode =? I_PREFETCHT1) || (opcode =? I_PREFETCHT2)
          || (opcode =? I_PREFETCHW) then false
  else true.

(** Computes the displacement for operand number [operand] of [instr]. *)
Definition ComputeDisplacementForOperand (instr : Instruction)
    (operand : nat) : Displacement :=
  let repr := representation instr in
  let access_size_bytes := Op.size (DInst.ops repr operand) / 8 in
  if DInst.dispSize repr =? 0 then
    Displacement_value (access_size_bytes - 1)
  else
    match FindOperandReference instr operand with
    | Some reference =>
        match referred_type reference with
        | REFERRED_TYPE_BLOCK =>
            Displacement_block (referred reference)
              (offset reference + access_size_bytes - 1)
        | _ => Displacement_basic_block (referred reference)
        end
    | None =>
        Displacement_value (DInst.disp repr + access_size_bytes - 1)
    end.

Definition IsInstrumentable (op : _Operand) : bool :=
  match Op.type op with
  | O_SMEM | O_MEM => true
  | _ => false
  end.

Definition IsSpecialInstruction (opcode : Z) : bool :=
  if (opcode =? I_CMPS) || (opcode =? I_LODS) || (opcode =? I_MOVS)
     || (opcode =? I_STOS) then true
  else false.

Definition is_O_SMEM (t : OperandType) : bool :=
  match t with O_SMEM => true | _ => false end.
Definition is_O_MEM (t : OperandType) : bool :=
  match t with O_MEM => true | _ => false end.

(** The operand [DecodeMemoryAccess] instruments: operand 0 when both are
    memory operands or when it alone is, else operand 1, else none. *)
Definition choose_mem_op_id (repr : _DInst) : option nat :=
  if IsInstrumentable (DInst.ops repr 0%nat)
     && IsInstrumentable (DInst.ops repr 1%nat) then Some 0%nat
  else if IsInstrumentable (DInst.ops repr 0%nat) then Some 0%nat
  else if IsInstrumentable (DInst.ops repr 1%nat) then Some 1%nat
  else None.

(** The kind of access (read/write/instr/repz). *)
Definition decode_mode (instr : Instruction) (mem_op_id : nat)
  : MemoryAccessMode :=
  let repr := representation instr in
  if negb (Z.land (FLAG_GET_PREFIX (DInst.flags repr)) FLAG_REPNZ =? 0) then
    kRepnzAccess
  else if negb (Z.land (FLAG_GET_PREFIX (DInst.flags repr)) FLAG_REP =? 0) then
    kRepzAccess
  else if IsSpecialInstruction (instr_opcode instr) then
    kInstrAccess
  else if negb (Z.land (DInst.flags repr) FLAG_DST_WR =? 0)
          && (mem_op_id =? 0)%nat then
    kWriteAccess
  else
    kReadAccess.

Definition decode_scale (scale : Z) : ScaleFactor :=
  if scale =? 2 then kTimes2
  else if scale =? 4 then kTimes4
  else if scale =? 8 then kTimes8
  else kTimes1.

(** The operand of the access; [None] is the [NOTREACHED()] exit. *)
Definition decode_operand (instr : Instruction) (mem_op_id : nat)
  : option Operand :=
  let repr := representation instr in
  if is_O_SMEM (Op.type (DInst.ops repr mem_op_id)) then
    let base_reg := GetRegister (Op.index (DInst.ops repr mem_op_id)) in
    let displ := ComputeDisplacementForOperand instr mem_op_id in
    Some (Operand_base_displ base_reg displ)
  else if is_O_MEM (Op.type (DInst.ops repr 0%nat))
          || is_O_MEM (Op.type (DInst.ops repr 1%nat)) then
    let index_reg := GetRegister (Op.index (DInst.ops repr mem_op_id)) in
    let scale := decode_scale (DInst.scale repr) in
    let displ := ComputeDisplacementForOperand instr mem_op_id in
    if negb (DInst.base repr =? R_NONE) then
      let base_reg := GetRegister (DInst.base repr) in
      match size_ displ with
      | kSizeNone => Some (Operand_base_index base_reg index_reg scale)
      | _ => Some (Operand_base_index_displ base_reg index_reg scale displ)
      end
    else
      Some (Operand_index_displ index_reg scale displ)
  else
    None.

(** Decodes the first O_MEM or O_SMEM operand of [instr], if any.  [info]
    is the in/out argument; the result is the returned operand and access
    descriptor, [None] when the function returns false. *)
Definition DecodeMemoryAccess (instr : Instruction) (info : MemoryAccessInfo)
  : option (Operand * MemoryAccessInfo) :=
  let repr := representation instr in
  if IsNop repr then None
  else
    match choose_mem_op_id repr with
    | None => None
    | Some mem_op_id =>
        let info1 :=
          {| mode := mode info;
             size := Op.size (DInst.ops repr mem_op_id) / 8;
             opcode := opcode info;
             save_flags := save_flags info |} in
        let info2 :=
          {| mode := decode_mode instr mem_op_id;
             size := size info1;
             opcode := opcode info1;
             save_flags := save_flags info1 |} in
        let info3 :=
          match mode info2 with
          | kRepnzAccess | kRepzAccess | kInstrAccess =>
              {| mode := mode info2;
                 size := size info2;
                 opcode := instr_opcode instr;
                 save_flags := save_flags info2 |}
          | _ => info2
          end in
        match decode_operand instr mem_op_id with
        | Some access => Some (access, info3)
        | None => None
        end
    end.


(** ** Block-graph references, immediates and assembled instructions *)

(** Modelled from the spec: [BlockGraph::ImageFormat], the two formats the
    transform accepts. *)
Inductive ImageFormat := PE_IMAGE | COFF_IMAGE.

Inductive ReferenceType := PC_RELATIVE_REF | ABSOLUTE_REF | RELATIVE_REF.

(** Modelled from the spec: [BlockGraph::Reference], declared in
    syzygy/block_graph/block_graph.h: kind, size, referenced block, offset
    and base. *)
Record Reference := {
  ref_type : ReferenceType;
  ref_size : Z;
  referenced : nat;
  ref_offset : Z;
  ref_base : Z
}.

(** [BasicBlockAssembler::Immediate], here built from a block and an
    offset. *)
Record Immediate := {
  imm_value_ : Z;
  imm_size_ : ValueSize;
  imm_reference_ : BasicBlockReference
}.

Definition Immediate_block (block : nat) (off : Z) : Immediate :=
  {| imm_value_ := 0; imm_size_ := kSize32Bit;
     imm_reference_ := {| referred_type := REFERRED_TYPE_BLOCK;
                          referred := block; offset := to_int32 off |} |}.

(** The instructions the transform asks the assembler for. *)
Inductive AsmInstruction :=
| asm_push (src : RegisterId)
| asm_lea (dst : RegisterId) (src : Operand)
| asm_mov (dst : RegisterId) (src : Operand)
| asm_call (dst : Operand)
| asm_call_imm (dst : Immediate)
| asm_ret
| asm_ret_n (n : Z).

(** Modelled from the spec: what [BasicBlockAssembler] does with the
    instructions it is asked for.  An inserted instruction carries the
    source range in force (none unless [set_source_range] was called). *)
Record Emitted := {
  emitted_instr : AsmInstruction;
  emitted_source_range : option nat
}.

(** [BasicBlockAssembler]: it is created at a position of an instruction
    list and inserts, in call order, before that position.  The state is the
    sequence inserted so far and the source range in force. *)
Record BasicBlockAssembler := {
  asm_source_range : option nat;
  asm_inserted : list Emitted
}.

Definition new_assembler : BasicBlockAssembler :=
  {| asm_source_range := None; asm_inserted := [] |}.

Definition set_source_range (bb_asm : BasicBlockAssembler) (r : nat)
  : BasicBlockAssembler :=
  {| asm_source_range := Some r; asm_inserted := asm_inserted bb_asm |}.

Definition emit (bb_asm : BasicBlockAssembler) (i : AsmInstruction)
  : BasicBlockAssembler :=
  {| asm_source_range := asm_source_range bb_asm;
     asm_inserted :=
       asm_inserted bb_asm
       ++ [{| emitted_instr := i;
              emitted_source_range := asm_source_range bb_asm |}] |}.

(** Use [bb_asm] to inject a hook to [hook] to instrument the access to the
    address stored in the operand [op].  The liveness state argument is
    not read. *)
Definition InjectAsanHook {State : Type} (bb_asm : BasicBlockAssembler)
    (info : MemoryAccessInfo) (op : Operand) (hook : Reference)
    (state : State) (image_format : ImageFormat) : BasicBlockAssembler :=
  let bb_asm1 :=
    match mode info with
    | kReadAccess | kWriteAccess =>
        emit (emit bb_asm (asm_push kRegisterEdx)) (asm_lea kRegisterEdx op)
    | _ => bb_asm
    end in
  match image_format with
  | PE_IMAGE =>
      emit bb_asm1
        (asm_call
           (Operand_displ
              (Displacement_block (referenced hook) (ref_offset hook))))
  | COFF_IMAGE =>
      emit bb_asm1
        (asm_call_imm (Immediate_block (referenced hook) (ref_offset hook)))
  end.

(** ** Probe names *)

(** [base::ToLowerASCII]. *)
Definition ToLowerASCII_char (c : ascii) : ascii :=
  let n := nat_of_ascii c in
  if ((65 <=? n) && (n <=? 90))%nat then ascii_of_nat (n + 32) else c.

Fixpoint ToLowerASCII (s : string) : string :=
  match s with
  | EmptyString => EmptyString
  | String c rest => String (ToLowerASCII_char c) (ToLowerASCII rest)
  end.

(** The conversion [%d] of [StringPrintf]. *)
Definition printf_d (n : Z) : string := NilEmpty.string_of_int (Z.to_int n).

(** Get the name of an asan check access function for an access. *)
Definition GetAsanCheckAccessFunctionName (info : MemoryAccessInfo)
    (image_format : ImageFormat) : string :=
  let rep_str :=
    match mode info with
    | kRepzAccess => "_repz"
    | kRepnzAccess => "_repnz"
    | _ => ""
    end%string in
  let access_mode_str :=
    match mode info with
    | kReadAccess => "read"
    | kWriteAccess => "write"
    | _ => GET_MNEMONIC_NAME (opcode info)
    end%string in
  let function_name :=
    ((match image_format with PE_IMAGE => "" | COFF_IMAGE => "_" end)
     ++ "asan_check" ++ rep_str ++ "_" ++ printf_d (size info) ++ "_byte_"
     ++ access_mode_str ++ "_access"
     ++ (if save_flags info then "" else "_no_flags"))%string in
  ToLowerASCII function_name.

(** ** The probe variants imported from the runtime *)

Definition with_save_flags (info : MemoryAccessInfo) (b : bool)
  : MemoryAccessInfo :=
  {| mode := mode info; size := size info; opcode := opcode info;
     save_flags := b |}.

(** Body of the first loop of [ImportAsanCheckAccessHooks]: the read and
    write hooks of one size, pushed at the back of the vector. *)
Definition push_read_write (use_liveness_analysis : bool) (access_size : Z)
    (vec : list MemoryAccessInfo) : list MemoryAccessInfo :=
  let read_info :=
    {| mode := kReadAccess; size := access_size; opcode := 0;
       save_flags := true |} in
  let vec := vec ++ [read_info] in
  let vec :=
    if use_liveness_analysis then vec ++ [with_save_flags read_info false]
    else vec in
  let write_info :=
    {| mode := kWriteAccess; size := access_size; opcode := 0;
       save_flags := true |} in
  let vec := vec ++ [write_info] in
  if use_liveness_analysis then vec ++ [with_save_flags write_info false]
  else vec.

(** [const _InstructionType strings[]]. *)
Definition strings : list Z := [I_CMPS; I_LODS; I_MOVS; I_STOS].

(** The inner loop over [strings]: a repz and a plain hook per opcode. *)
Fixpoint push_strings (access_size : Z) (insts : list Z)
    (vec : list MemoryAccessInfo) : list MemoryAccessInfo :=
  match insts with
  | [] => vec
  | inst :: rest =>
      let repz_inst_info :=
        {| mode := kRepzAccess; size := access_size; opcode := inst;
           save_flags := true |} in
      let inst_info :=
        {| mode := kInstrAccess; size := access_size; opcode := inst;
           save_flags := true |} in
      push_strings access_size rest (vec ++ [repz_inst_info] ++ [inst_info])
  end.

(** [for (int access_size = 1; access_size <= bound; access_size *= 2)]:
    the loop runs on fuel, [None] when it is exhausted. *)
Fixpoint for_doubling {A : Type} (fuel : nat) (bound : Z)
    (body : Z -> A -> A) (access_size : Z) (acc : A) : option A :=
  if access_size <=? bound then
    match fuel with
    | O => None
    | S fuel' =>
        for_doubling fuel' bound body (access_size * 2) (body access_size acc)
    end
  else Some acc.

(** The vector [access_hook_param_vec] that [ImportAsanCheckAccessHooks]
    hands to [AddAsanCheckAccessHooks]. *)
Definition access_hook_param_vec (fuel : nat) (use_liveness_analysis : bool)
  : option (list MemoryAccessInfo) :=
  match for_doubling fuel 32 (push_read_write use_liveness_analysis) 1 [] with
  | None => None
  | Some vec =>
      let read_info_10 :=
        {| mode := kReadAccess; size := 10; opcode := 0;
           save_flags := true |} in
      let vec := vec ++ [read_info_10] in
      let vec :=
        if use_liveness_analysis
        then vec ++ [with_save_flags read_info_10 false] else vec in
      let write_info_10 :=
        {| mode := kWriteAccess; size := 10; opcode := 0;
           save_flags := true |} in
      let vec := vec ++ [write_info_10] in
      let vec :=
        if use_liveness_analysis
        then vec ++ [with_save_flags write_info_10 false] else vec in
      for_doubling fuel 4 (fun sz v => push_strings sz strings v) 1 vec
  end.

(** ** The hook map *)

(** Modelled from the spec: the numbering of the access modes, the
    enumerators in the order the spec lists them. *)
Definition mode_value (m : MemoryAccessMode) : Z :=
  match m with
  | kNoAccess => 0
  | kReadAccess => 1
  | kWriteAccess => 2
  | kInstrAccess => 3
  | kRepzAccess => 4
  | kRepnzAccess => 5
  end.

(** [operator<] on [MemoryAccessInfo]. *)
Definition MemoryAccessInfo_lt (left right : MemoryAccessInfo) : bool :=
  if negb (mode_value (mode left) =? mode_value (mode right)) then
    mode_value (mode left) <? mode_value (mode right)
  else if negb (size left =? size right) then
    size left <? size right
  else if negb (Bool.eqb (save_flags left) (save_flags right)) then
    Z.b2z (save_flags left) <? Z.b2z (save_flags right)
  else
    opcode left <? opcode right.

(** A [std::map] keyed by [MemoryAccessInfo]: the entries in key order.
    [map_find] is [find], [map_set] is [m[key] = v]. *)
Definition InfoMap (V : Type) := list (MemoryAccessInfo * V).

Fixpoint map_find {V : Type} (m : InfoMap V) (key : MemoryAccessInfo)
  : option V :=
  match m with
  | [] => None
  | (k, v) :: rest =>
      if MemoryAccessInfo_lt k key || MemoryAccessInfo_lt key k
      then map_find rest key
      else Some v
  end.

Fixpoint map_set {V : Type} (m : InfoMap V) (key : MemoryAccessInfo) (v : V)
  : InfoMap V :=
  match m with
  | [] => [(key, v)]
  | (k, v0) :: rest =>
      if MemoryAccessInfo_lt key k then (key, v) :: m
      else if MemoryAccessInfo_lt k key then (k, v0) :: map_set rest key v
      else (k, v) :: rest
  end.

Definition AsanHookMap := InfoMap Reference.

End Classifier.

(** ** Basic blocks and the analyses *)

(** A basic code block and its instruction list. *)
Record BasicCodeBlock := {
  bb_id : nat;
  instructions : list Instruction
}.

(** A basic block of a subgraph; [BasicCodeBlock::Cast] gives the code
    block or null (data and end blocks). *)
Inductive BasicBlock :=
| CodeBasicBlock (bb : BasicCodeBlock)
| OtherBasicBlock (id : nat).

Definition BasicCodeBlock_Cast (b : BasicBlock) : option BasicCodeBlock :=
  match b with
  | CodeBasicBlock bb => Some bb
  | OtherBasicBlock _ => None
  end.

Definition BasicBlockSubGraph := list BasicBlock.

(** [double], with the two literals of the transform. *)
Definition double := spec_float.
Definition double_0 : double := S754_zero false.
Definition double_1 : double := S754_finite false 4503599627370496 (-52).

(** [std::min] and [std::max] on doubles. *)
Definition std_min (a b : double) : double := if SFltb b a then b else a.
Definition std_max (a b : double) : double := if SFltb a b then b else a.

(** The interface of the liveness analysis, of the redundant memory access
    analysis, of the stack frame inspection and of the process-wide random
    generator ([base::RandDouble], the n-th draw). *)
Class Analyses := {
  LivenessAnalysis : Type;
  LivenessAnalysis_create : LivenessAnalysis;
  LivenessState : Type;
  LivenessState_default : LivenessState;
  Liveness_Analyze : LivenessAnalysis -> BasicBlockSubGraph -> LivenessAnalysis;
  Liveness_GetStateAtExitOf :
    LivenessAnalysis -> BasicCodeBlock -> LivenessState;
  Liveness_PropagateBackward : Instruction -> LivenessState -> LivenessState;
  AreArithmeticFlagsLive : LivenessState -> bool;
  MemoryAccessAnalysis : Type;
  MemoryAccessAnalysis_create : MemoryAccessAnalysis;
  MemoryState : Type;
  MemoryState_default : MemoryState;
  Memory_Analyze :
    MemoryAccessAnalysis -> BasicBlockSubGraph -> MemoryAccessAnalysis;
  Memory_GetStateAtEntryOf :
    MemoryAccessAnalysis -> BasicCodeBlock -> MemoryState;
  HasNonRedundantAccess : MemoryState -> Instruction -> bool;
  Memory_PropagateForward : Instruction -> MemoryState -> MemoryState;
  HasUnexpectedStackFrameManipulation : BasicBlockSubGraph -> bool;
  RandDouble : nat -> double
}.

(** What the instrumenter asks of its collaborators, in call order. *)
Inductive Event :=
| EvLivenessAnalyze
| EvMemoryAnalyze
| EvStackFrameInspection
| EvGetStateAtExitOf
| EvPropagateBackward
| EvGetStateAtEntryOf
| EvVisitInstruction
| EvHasNonRedundantAccess
| EvPropagateForward
| EvRandDouble.

(** The state outside the transform object: how many draws were taken from
    the random generator, and the calls made so far. *)
Record Env := {
  rand_draws : nat;
  events : list Event
}.

Definition log (e : Event) (env : Env) : Env :=
  {| rand_draws := rand_draws env; events := events env ++ [e] |}.

Inductive StackAccessMode := kUnsafeStackAccess | kSafeStackAccess.

(** ** The basic-block transform *)

Section Instrumenter.
Context {D : Decoder} {A : Analyses}.

(** Modelled from the spec: the fields of [AsanBasicBlockTransform],
    declared in asan_transform.h, that the functions of this file read or
    write. *)
Record AsanBasicBlockTransform := {
  check_access_hooks_ : AsanHookMap;
  debug_friendly_ : bool;
  use_liveness_analysis_ : bool;
  remove_redundant_checks_ : bool;
  instrumentation_rate_ : double;
  dry_run_ : bool;
  instrumentation_happened_ : bool;
  IsFiltered : Instruction -> bool;
  liveness_ : LivenessAnalysis;
  memory_accesses_ : MemoryAccessAnalysis
}.

Definition set_instrumentation_happened (T : AsanBasicBlockTransform)
    (b : bool) : AsanBasicBlockTransform :=
  {| check_access_hooks_ := check_access_hooks_ T;
     debug_friendly_ := debug_friendly_ T;
     use_liveness_analysis_ := use_liveness_analysis_ T;
     remove_redundant_checks_ := remove_redundant_checks_ T;
     instrumentation_rate_ := instrumentation_rate_ T;
     dry_run_ := dry_run_ T;
     instrumentation_happened_ := b;
     IsFiltered := IsFiltered T;
     liveness_ := liveness_ T;
     memory_accesses_ := memory_accesses_ T |}.

Definition set_analyses (T : AsanBasicBlockTransform)
    (l : LivenessAnalysis) (m : MemoryAccessAnalysis)
  : AsanBasicBlockTransform :=
  {| check_access_hooks_ := check_access_hooks_ T;
     debug_friendly_ := debug_friendly_ T;
     use_liveness_analysis_ := use_liveness_analysis_ T;
     remove_redundant_checks_ := remove_redundant_checks_ T;
     instrumentation_rate_ := instrumentation_rate_ T;
     dry_run_ := dry_run_ T;
     instrumentation_happened_ := instrumentation_happened_ T;
     IsFiltered := IsFiltered T;
     liveness_ := l;
     memory_accesses_ := m |}.

Definition set_dry_run (T : AsanBasicBlockTransform) (b : bool)
  : AsanBasicBlockTransform :=
  {| check_access_hooks_ := check_access_hooks_ T;
     debug_friendly_ := debug_friendly_ T;
     use_liveness_analysis_ := use_liveness_analysis_ T;
     remove_redundant_checks_ := remove_redundant_checks_ T;
     instrumentation_rate_ := instrumentation_rate_ T;
     dry_run_ := b;
     instrumentation_happened_ := instrumentation_happened_ T;
     IsFiltered := IsFiltered T;
     liveness_ := liveness_ T;
     memory_accesses_ := memory_accesses_ T |}.

(** Set the instrumentation rate, capping it between 0 and 1. *)
Definition set_instrumentation_rate (T : AsanBasicBlockTransform)
    (instrumentation_rate : double) : AsanBasicBlockTransform :=
  {| check_access_hooks_ := check_access_hooks_ T;
     debug_friendly_ := debug_friendly_ T;
     use_liveness_analysis_ := use_liveness_analysis_ T;
     remove_redundant_checks_ := remove_redundant_checks_ T;
     instrumentation_rate_ :=
       std_max double_0 (std_min double_1 instrumentation_rate);
     dry_run_ := dry_run_ T;
     instrumentation_happened_ := instrumentation_happened_ T;
     IsFiltered := IsFiltered T;
     liveness_ := liveness_ T;
     memory_accesses_ := memory_accesses_ T |}.

(** An instruction of the block after the transform, with the instructions
    inserted before it. *)
Record Slot := {
  inserted : list Emitted;
  original : Instruction
}.

Definition untouched (instrs : list Instruction) : list Slot :=
  map (fun i => {| inserted := []; original := i |}) instrs.

(** The block as a single instruction stream. *)
Inductive StreamItem :=
| Inserted (e : Emitted)
| Original (i : Instruction).

Definition stream_of (slots : list Slot) : list StreamItem :=
  flat_map (fun s => map Inserted (inserted s) ++ [Original (original s)])
           slots.

(** The variables of the loop of [InstrumentBasicBlock] that live across
    iterations. *)
Record LoopState := {
  iter_state : list LivenessState;
  state : LivenessState;
  memory_state : MemoryState;
  env : Env;
  happened : bool
}.

(** How one iteration ends: [continue] before anything was decided, the
    access was instrumented (with the descriptor and operand used and what
    the assembler inserted), or the function returned false. *)
Inductive Outcome :=
| Skipped
| Instrumented (info : MemoryAccessInfo) (operand : Operand)
    (code : list Emitted)
| ReturnedFalse (info : MemoryAccessInfo).

(** Pre-computation of the liveness states: the instructions are walked
    backwards from the state at the exit of the block and each state is
    pushed at the front of the list. *)
Fixpoint precompute_states (instrs : list Instruction) (exit : LivenessState)
    (env0 : Env) : list LivenessState * LivenessState * Env :=
  match instrs with
  | [] => ([], exit, env0)
  | instr :: rest =>
      let '(states, st, env1) := precompute_states rest exit env0 in
      let st' := Liveness_PropagateBackward instr st in
      (st' :: states, st', log EvPropagateBackward env1)
  end.

Definition is_stack_register (r : RegisterId) : bool :=
  RegisterId_eqb r kRegisterEsp || RegisterId_eqb r kRegisterEbp.

Definition ReferredType_eqb (a b : ReferredType) : bool :=
  match a, b with
  | REFERRED_TYPE_UNKNOWN, REFERRED_TYPE_UNKNOWN
  | REFERRED_TYPE_BLOCK, REFERRED_TYPE_BLOCK
  | REFERRED_TYPE_BASIC_BLOCK, REFERRED_TYPE_BASIC_BLOCK => true
  | _, _ => false
  end.

Definition is_load_store_mode (m : MemoryAccessMode) : bool :=
  match m with
  | kReadAccess | kWriteAccess => true
  | _ => false
  end.

(** The descriptor every iteration starts from. *)
Definition initial_info : MemoryAccessInfo :=
  {| mode := kNoAccess; size := 0; opcode := 0; save_flags := true |}.

(** "Get current instruction liveness information": [state = *iter_state;
    ++iter_state] when the analysis is on.  The list of states is as long
    as the instruction list, so the iterator is never at the end here. *)
Definition current_liveness (T : AsanBasicBlockTransform) (ls : LoopState)
  : LivenessState * list LivenessState :=
  if use_liveness_analysis_ T then
    match iter_state ls with
    | s :: rest => (s, rest)
    | [] => (state ls, [])
    end
  else (state ls, iter_state ls).

(** "When activated, skip redundant memory access check": whether a check
    is needed, the memory state propagated past [instr], and the calls
    made. *)
Definition redundancy_check (T : AsanBasicBlockTransform)
    (instr : Instruction) (ls : LoopState) (env0 : Env)
  : bool * MemoryState * Env :=
  if remove_redundant_checks_ T then
    (HasNonRedundantAccess (memory_state ls) instr,
     Memory_PropagateForward instr (memory_state ls),
     log EvPropagateForward (log EvHasNonRedundantAccess env0))
  else (true, memory_state ls, env0).

(** "Randomly sample to effect partial instrumentation": whether the access
    is sampled out; a number is drawn only when the rate is below 1. *)
Definition sampling (T : AsanBasicBlockTransform) (env1 : Env) : bool * Env :=
  if SFltb (instrumentation_rate_ T) double_1 then
    (SFleb (instrumentation_rate_ T) (RandDouble (rand_draws env1)),
     log EvRandDouble
         {| rand_draws := S (rand_draws env1); events := events env1 |})
  else (false, env1).

(** The assembler created at the instruction, with its source range in
    debug-friendly mode. *)
Definition assembler_at (T : AsanBasicBlockTransform) (instr : Instruction)
  : BasicBlockAssembler :=
  if debug_friendly_ T then set_source_range new_assembler (source_range instr)
  else new_assembler.

(** "Use the liveness information to skip saving the flags if possible." *)
Definition select_probe (T : AsanBasicBlockTransform)
    (info : MemoryAccessInfo) (st : LivenessState) : MemoryAccessInfo :=
  if use_liveness_analysis_ T && is_load_store_mode (mode info)
  then with_save_flags info (AreArithmeticFlagsLive st)
  else info.

(** The tests of the loop that end an iteration with [continue] once the
    access is decoded, in source order. *)
Definition skips_access (T : AsanBasicBlockTransform)
    (stack_mode : StackAccessMode) (instr : Instruction) (operand : Operand)
    (info : MemoryAccessInfo) : bool :=
  let repr := representation instr in
  (* Bail if this is not a memory access. *)
  if MemoryAccessMode_eqb (mode info) kNoAccess then true
  (* A basic block reference: a computed jump or a case table. *)
  else if ReferredType_eqb
            (referred_type (reference_ (displacement_ operand)))
            REFERRED_TYPE_BASIC_BLOCK then true
  (* A block reference: a global variable or some such. *)
  else if ReferredType_eqb
            (referred_type (reference_ (displacement_ operand)))
            REFERRED_TYPE_BLOCK then true
  (* Is this an instruction we should be instrumenting. *)
  else if negb (ShouldInstrumentOpcode (DInst.opcode repr)) then true
  (* Stack-based memory access on a conventional stack frame. *)
  else if match stack_mode with
          | kSafeStackAccess => is_stack_register (base_ operand)
          | kUnsafeStackAccess => false
          end then true
  (* Memory accesses through special segments. *)
  else if (SEGMENT_GET (DInst.segment repr) =? R_FS)
          || (SEGMENT_GET (DInst.segment repr) =? R_GS) then true
  (* Don't instrument any filtered instructions. *)
  else if IsFiltered T instr then true
  else false.

(** The body of the loop of [InstrumentBasicBlock] for [instr]. *)
Definition instrument_instruction (T : AsanBasicBlockTransform)
    (stack_mode : StackAccessMode) (image_format : ImageFormat)
    (instr : Instruction) (ls : LoopState) : LoopState * Outcome :=
  let env0 := log EvVisitInstruction (env ls) in
  let '(state1, iter1) := current_liveness T ls in
  let '(need_memory_access_check, memory1, env1) :=
    redundancy_check T instr ls env0 in
  let ls1 :=
    {| iter_state := iter1; state := state1; memory_state := memory1;
       env := env1; happened := happened ls |} in
  if negb need_memory_access_check then (ls1, Skipped)
  else
    match DecodeMemoryAccess instr initial_info with
    | None => (ls1, Skipped)
    | Some (operand, info) =>
        if skips_access T stack_mode instr operand info then (ls1, Skipped)
        else
          let '(sampled_out, env2) := sampling T env1 in
          let ls2 :=
            {| iter_state := iter1; state := state1;
               memory_state := memory1; env := env2;
               happened := happened ls |} in
          if sampled_out then (ls2, Skipped)
          else
            (* Create a BasicBlockAssembler to insert new instruction. *)
            let bb_asm := assembler_at T instr in
            let info := select_probe T info state1 in
            (* Mark that an instrumentation will happen. *)
            let ls3 :=
              {| iter_state := iter1; state := state1;
                 memory_state := memory1; env := env2;
                 happened := true |} in
            if dry_run_ T then
              (ls3, Instrumented info operand (asm_inserted bb_asm))
            else
              (* Insert hook for standard instructions. *)
              match map_find (check_access_hooks_ T) info with
              | None => (ls3, ReturnedFalse info)
              | Some hook =>
                  (ls3,
                   Instrumented info operand
                     (asm_inserted
                        (InjectAsanHook bb_asm info operand hook state1
                                        image_format)))
              end
    end.

(** The loop of [InstrumentBasicBlock].  The list is modified in place: when
    the function returns false, what was inserted so far stays. *)
Fixpoint instrument_loop (T : AsanBasicBlockTransform)
    (stack_mode : StackAccessMode) (image_format : ImageFormat)
    (instrs : list Instruction) (ls : LoopState)
  : bool * list Slot * LoopState :=
  match instrs with
  | [] => (true, [], ls)
  | instr :: rest =>
      match instrument_instruction T stack_mode image_format instr ls with
      | (ls', ReturnedFalse _) => (false, untouched (instr :: rest), ls')
      | (ls', Skipped) =>
          let '(ok, out, ls'') :=
            instrument_loop T stack_mode image_format rest ls' in
          (ok, {| inserted := []; original := instr |} :: out, ls'')
      | (ls', Instrumented _ _ code) =>
          let '(ok, out, ls'') :=
            instrument_loop T stack_mode image_format rest ls' in
          (ok, {| inserted := code; original := instr |} :: out, ls'')
      end
  end.

(** [AsanBasicBlockTransform::InstrumentBasicBlock]. *)
Definition InstrumentBasicBlock (T : AsanBasicBlockTransform)
    (basic_block : BasicCodeBlock) (stack_mode : StackAccessMode)
    (image_format : ImageFormat) (env0 : Env)
  : bool * list Slot * AsanBasicBlockTransform * Env :=
  if SFeqb (instrumentation_rate_ T) double_0 then
    (true, untouched (instructions basic_block), T, env0)
  else
    (* Pre-compute liveness information for each instruction. *)
    let '(states, state0, env1) :=
      if use_liveness_analysis_ T then
        precompute_states (instructions basic_block)
          (Liveness_GetStateAtExitOf (liveness_ T) basic_block)
          (log EvGetStateAtExitOf env0)
      else ([], LivenessState_default, env0) in
    (* Get the memory accesses information for this basic block. *)
    let '(memory_state0, env2) :=
      if remove_redundant_checks_ T then
        (Memory_GetStateAtEntryOf (memory_accesses_ T) basic_block,
         log EvGetStateAtEntryOf env1)
      else (MemoryState_default, env1) in
    let ls0 :=
      {| iter_state := states; state := state0;
         memory_state := memory_state0; env := env2;
         happened := instrumentation_happened_ T |} in
    let '(ok, out, ls) :=
      instrument_loop T stack_mode image_format (instructions basic_block)
                      ls0 in
    (ok, out, set_instrumentation_happened T (happened ls), env ls).

(** A basic block of the subgraph after the transform. *)
Inductive InstrumentedBlock :=
| InstrumentedCode (id : nat) (slots : list Slot)
| InstrumentedOther (id : nat).

Definition untouched_block (b : BasicBlock) : InstrumentedBlock :=
  match b with
  | CodeBasicBlock bb => InstrumentedCode (bb_id bb) (untouched (instructions bb))
  | OtherBasicBlock id => InstrumentedOther id
  end.

(** The loop of [TransformBasicBlockSubGraph] over the basic blocks. *)
Fixpoint instrument_blocks (T : AsanBasicBlockTransform)
    (stack_mode : StackAccessMode) (image_format : ImageFormat)
    (bbs : list BasicBlock) (env0 : Env)
  : bool * list InstrumentedBlock * AsanBasicBlockTransform * Env :=
  match bbs with
  | [] => (true, [], T, env0)
  | b :: rest =>
      match BasicCodeBlock_Cast b with
      | None =>
          let '(ok, out, T', env') :=
            instrument_blocks T stack_mode image_format rest env0 in
          (ok, untouched_block b :: out, T', env')
      | Some bb =>
          let '(ok, slots, T1, env1) :=
            InstrumentBasicBlock T bb stack_mode image_format env0 in
          if negb ok then
            (false,
             InstrumentedCode (bb_id bb) slots :: map untouched_block rest,
             T1, env1)
          else
            let '(ok', out, T', env') :=
              instrument_blocks T1 stack_mode image_format rest env1 in
            (ok', InstrumentedCode (bb_id bb) slots :: out, T', env')
      end
  end.

(** [AsanBasicBlockTransform::TransformBasicBlockSubGraph]; of the block
    graph only the image format is read. *)
Definition TransformBasicBlockSubGraph (T : AsanBasicBlockTransform)
    (image_format : ImageFormat) (subgraph : BasicBlockSubGraph) (env0 : Env)
  : bool * list InstrumentedBlock * AsanBasicBlockTransform * Env :=
  (* Perform a global liveness analysis. *)
  let '(liveness1, env1) :=
    if use_liveness_analysis_ T
    then (Liveness_Analyze (liveness_ T) subgraph, log EvLivenessAnalyze env0)
    else (liveness_ T, env0) in
  (* Perform a redundant memory access analysis. *)
  let '(memory1, env2) :=
    if remove_redundant_checks_ T
    then (Memory_Analyze (memory_accesses_ T) subgraph,
          log EvMemoryAnalyze env1)
    else (memory_accesses_ T, env1) in
  let T1 := set_analyses T liveness1 memory1 in
  let stack_mode :=
    if negb (HasUnexpectedStackFrameManipulation subgraph)
    then kSafeStackAccess else kUnsafeStackAccess in
  instrument_blocks T1 stack_mode image_format subgraph
                    (log EvStackFrameInspection env2).

End Instrumenter.

(** ** The block graph *)

Inductive BlockType := CODE_BLOCK | DATA_BLOCK.

Record GraphSection := {
  section_id : nat;
  section_name : string;
  section_characteristics : Z
}.

(** Modelled from the spec: [BlockGraph::Block] and the block graph, of
    syzygy/block_graph/block_graph.h: a block has an identity, a name, a
    type, a section and outgoing references by offset; the graph has an
    image format, sections and blocks. *)
Record Block := {
  block_id : nat;
  block_name : string;
  block_type : BlockType;
  block_section : option nat;
  block_references : list (Z * Reference)
}.

Record BlockGraph := {
  image_format : ImageFormat;
  sections : list GraphSection;
  blocks : list Block
}.

(** Modelled from the spec: [common::kThunkSectionName] is declared in
    syzygy/common/defs.h; the spec names the section [.thunks]. *)
Definition kThunkSectionName : string := ".thunks".

(** Modelled from the spec: section lookup and creation of the block-graph
    library ([BlockGraph::FindSection], [BlockGraph::FindOrAddSection]),
    which the spec lists among the primitives as block/section creation and
    lookup: sections are found by name, a missing one is created. *)
Fixpoint find_section (secs : list GraphSection) (name : string)
  : option GraphSection :=
  match secs with
  | [] => None
  | s :: rest =>
      if String.eqb (section_name s) name then Some s
      else find_section rest name
  end.

Definition FindSection (bg : BlockGraph) (name : string)
  : option GraphSection :=
  find_section (sections bg) name.

Definition FindOrAddSection (bg : BlockGraph) (name : string)
    (characteristics : Z) : BlockGraph * GraphSection :=
  match FindSection bg name with
  | Some s => (bg, s)
  | None =>
      let s := {| section_id := List.length (sections bg); section_name := name;
                  section_characteristics := characteristics |} in
      ({| image_format := image_format bg;
          sections := sections bg ++ [s];
          blocks := blocks bg |}, s)
  end.

(** Modelled from the spec: [Block::SetReference] of the block-graph
    library (reference get/set): the reference at [off] of block [id] is
    replaced or added. *)
Fixpoint set_reference_at (refs : list (Z * Reference)) (off : Z)
    (r : Reference) : list (Z * Reference) :=
  match refs with
  | [] => [(off, r)]
  | (o, r0) :: rest =>
      if o =? off then (o, r) :: rest
      else (o, r0) :: set_reference_at rest off r
  end.

Definition SetReference (bg : BlockGraph) (id : nat) (off : Z)
    (r : Reference) : BlockGraph :=
  {| image_format := image_format bg;
     sections := sections bg;
     blocks :=
       map (fun b =>
              if (block_id b =? id)%nat then
                {| block_id := block_id b; block_name := block_name b;
                   block_type := block_type b;
                   block_section := block_section b;
                   block_references :=
                     set_reference_at (block_references b) off r |}
              else b)
           (blocks bg) |}.

(** A one-block subgraph handed to the block builder: its name, its section
    and the code assembled into its single basic block. *)
Record ThunkDescription := {
  thunk_name : string;
  thunk_section : nat;
  thunk_code : list AsmInstruction
}.

Inductive TransformMode := kAlwaysImport | kFindOnly.

(** A basic block of the subgraph after the basic-block transform. *)
Definition InstrumentedSubGraph := list InstrumentedBlock.

(** The interface of the block-graph library and of the other transforms:
    imported modules and the add-imports transforms, the block builder,
    the entry thunk transform, the interceptor filter (by
    [use_interceptors]), the transform policy, the basic-block decomposer
    and the merge of a transformed subgraph (with the new blocks), and the
    hot-patching preparation transform. *)
Class BlockGraphLibrary := {
  ImportedModule : Type;
  ImportedModule_create : string -> Z -> ImportedModule;
  AddSymbol : ImportedModule -> string -> TransformMode -> ImportedModule * nat;
  GetSymbolReference : ImportedModule -> nat -> option Reference;
  PEAddImportsTransform :
    BlockGraph -> ImportedModule -> bool * BlockGraph * ImportedModule;
  CoffAddImportsTransform :
    BlockGraph -> ImportedModule -> bool * BlockGraph * ImportedModule;
  kCodeCharacteristics : Z;
  BlockBuilder_Merge : BlockGraph -> ThunkDescription -> option (BlockGraph * nat);
  EntryThunkTransform : BlockGraph -> string -> bool * BlockGraph;
  Filter_empty : bool -> bool;
  Filter_ShouldIntercept : bool -> Block -> bool;
  BlockIsSafeToBasicBlockDecompose : Block -> bool;
  Decompose : Block -> option BasicBlockSubGraph;
  MergeSubGraph :
    BlockGraph -> Block -> InstrumentedSubGraph
    -> option (BlockGraph * list nat);
  PEHotPatchingBasicBlockTransform :
    InstrumentedSubGraph -> bool * InstrumentedSubGraph
}.

(** The failures of the pass, by the message logged before it returns
    false: "The image is already instrumented.", "Failed to build thunk
    block.", "Unable to add imports for Asan instrumentation DLL.", "Unable
    to get import reference for Asan.", "Could not find the default hook
    for ...", "Failed to rewrite DLL entry thunk.". *)
Inductive Error :=
| AlreadyInstrumented
| ThunkBuildFailure
| ImportFailure
| ImportReferenceFailure
| MissingDefaultHook
| EntryThunkFailure.

(** The outcome of a step that returns a bool and mutates objects in place:
    what it produced on success; on failure the objects as the step left
    them. *)
Inductive Result (X S : Type) :=
| Ok (x : X)
| Err (e : Error) (s : S).
Arguments Ok {X S} x.
Arguments Err {X S} e s.

Section Pass.
Context {D : Decoder} {A : Analyses} {L : BlockGraphLibrary}.

Definition kDateInThePast : Z := 1.

(** Add imports from the specified module to the block graph. *)
Definition AddImportsFromModule (bg : BlockGraph) (module : ImportedModule)
  : bool * BlockGraph * ImportedModule :=
  match image_format bg with
  | PE_IMAGE => PEAddImportsTransform bg module
  | COFF_IMAGE => CoffAddImportsTransform bg module
  end.

(** [AsanDefaultHookMap]: a stub reference per access mode. *)
Definition AsanDefaultHookMap := list (MemoryAccessMode * Reference).

Fixpoint default_stub_find (m : AsanDefaultHookMap) (key : MemoryAccessMode)
  : option Reference :=
  match m with
  | [] => None
  | (k, r) :: rest =>
      if MemoryAccessMode_eqb k key then Some r else default_stub_find rest key
  end.

(** First loop of [AddAsanCheckAccessHooks]: add the hooks to the import
    module and remember the symbol index of each. *)
Fixpoint add_hook_symbols (params : list MemoryAccessInfo)
    (fmt : ImageFormat) (module : ImportedModule) (idx : InfoMap nat)
  : ImportedModule * InfoMap nat :=
  match params with
  | [] => (module, idx)
  | p :: rest =>
      let '(module', symbol_idx) :=
        AddSymbol module (GetAsanCheckAccessFunctionName p fmt)
                  kAlwaysImport in
      add_hook_symbols rest fmt module' (map_set idx p symbol_idx)
  end.

(** Second loop of [AddAsanCheckAccessHooks]: get a reference to each hook,
    put it in the hooks map and, for PE images, point the import at its
    stub. *)
Fixpoint bind_hooks (entries : InfoMap nat)
    (default_stub_map : AsanDefaultHookMap) (module : ImportedModule)
    (hook_map : AsanHookMap) (bg : BlockGraph)
  : Result (BlockGraph * AsanHookMap) (BlockGraph * AsanHookMap) :=
  match entries with
  | [] => Ok (bg, hook_map)
  | (key, symbol_idx) :: rest =>
      match GetSymbolReference module symbol_idx with
      | None => Err ImportReferenceFailure (bg, hook_map)
      | Some import_reference =>
          let hook_map' := map_set hook_map key import_reference in
          match image_format bg with
          | PE_IMAGE =>
              match default_stub_find default_stub_map (mode key) with
              | None => Err MissingDefaultHook (bg, hook_map')
              | Some stub_reference =>
                  bind_hooks rest default_stub_map module hook_map'
                    (SetReference bg (referenced import_reference)
                                  (ref_offset import_reference)
                                  stub_reference)
              end
          | COFF_IMAGE =>
              bind_hooks rest default_stub_map module hook_map' bg
          end
      end
  end.

(** Add the imports for the asan check access hooks to the block-graph. *)
Definition AddAsanCheckAccessHooks (hook_param_vector : list MemoryAccessInfo)
    (default_stub_map : AsanDefaultHookMap) (import_module : ImportedModule)
    (check_access_hook_map : AsanHookMap) (bg : BlockGraph)
  : Result (BlockGraph * AsanHookMap) (BlockGraph * AsanHookMap) :=
  let '(module1, hooks_params_to_idx) :=
    add_hook_symbols hook_param_vector (image_format bg) import_module [] in
  let '(ok, bg1, module2) := AddImportsFromModule bg module1 in
  if negb ok then Err ImportFailure (bg1, check_access_hook_map)
  else
    bind_hooks hooks_params_to_idx default_stub_map module2
               check_access_hook_map bg1.

(** Create a stub for the asan_check_access functions.  [FindOrAddSection]
    always yields a section, so the null test of the source never fires. *)
Definition CreateHooksStub (bg : BlockGraph) (stub_name : string)
    (mode : MemoryAccessMode) : Result (BlockGraph * Reference) BlockGraph :=
  (* Find or create the section we put our thunks in. *)
  let '(bg1, thunk_section) :=
    FindOrAddSection bg kThunkSectionName kCodeCharacteristics in
  let stub_name_with_id := (stub_name ++ printf_d (mode_value mode))%string in
  let code :=
    match mode with
    | kReadAccess | kWriteAccess =>
        [asm_mov kRegisterEdx
                 (Operand_base_displ kRegisterEsp (Displacement_value 4));
         asm_ret_n 4]
    | _ => [asm_ret]
    end in
  match BlockBuilder_Merge bg1
          {| thunk_name := stub_name_with_id;
             thunk_section := section_id thunk_section;
             thunk_code := code |} with
  | None => Err ThunkBuildFailure bg1
  | Some (bg2, thunk) =>
      Ok (bg2, {| ref_type := ABSOLUTE_REF; ref_size := 4;
                  referenced := thunk; ref_offset := 0; ref_base := 0 |})
  end.

(** The two loops of [ImportAsanCheckAccessHooks] run on the fuel their
    bounds allow; the vector is the one they build. *)
Definition hook_params (use_liveness_analysis : bool)
  : list MemoryAccessInfo :=
  match access_hook_param_vec 32 use_liveness_analysis with
  | Some vec => vec
  | None => []
  end.

(** Creates stubs for Asan check access hooks (PE only), imports them from
    the runtime module and adds them to the block graph. *)
Definition ImportAsanCheckAccessHooks (asan_hook_stub_name : string)
    (use_liveness_analysis : bool) (import_module : ImportedModule)
    (check_access_hooks_ref : AsanHookMap) (bg : BlockGraph)
  : Result (BlockGraph * AsanHookMap) (BlockGraph * AsanHookMap) :=
  let stubs : Result (BlockGraph * AsanDefaultHookMap) BlockGraph :=
    match image_format bg with
    | PE_IMAGE =>
        match CreateHooksStub bg asan_hook_stub_name kReadAccess with
        | Err e bg' => Err e bg'
        | Ok (bg1, read_write_hook) =>
            match CreateHooksStub bg1 asan_hook_stub_name kInstrAccess with
            | Err e bg' => Err e bg'
            | Ok (bg2, instr_hook) =>
                Ok (bg2,
                    [(kReadAccess, read_write_hook);
                     (kWriteAccess, read_write_hook);
                     (kInstrAccess, instr_hook);
                     (kRepzAccess, instr_hook);
                     (kRepnzAccess, instr_hook)])
            end
        end
    | COFF_IMAGE => Ok (bg, [])
    end in
  match stubs with
  | Err e bg' => Err e (bg', check_access_hooks_ref)
  | Ok (bg1, default_stub_map) =>
      AddAsanCheckAccessHooks (hook_params use_liveness_analysis)
        default_stub_map import_module check_access_hooks_ref bg1
  end.

(** ** The pass driver *)

(** Modelled from the spec: the fields of [AsanTransform], declared in
    asan_transform.h, that this part of the pass reads or writes. *)
Record AsanTransform := {
  debug_friendly : bool;
  use_liveness_analysis : bool;
  remove_redundant_checks : bool;
  use_interceptors_ : bool;
  tx_instrumentation_rate_ : double;
  check_access_hooks_ref_ : AsanHookMap;
  hot_patching_ : bool;
  asan_dll_name_ : string;
  filter : Instruction -> bool;
  heap_init_blocks_ : list nat;
  static_intercepted_blocks_ : list nat;
  hot_patched_blocks_ : list nat
}.

Definition kAsanHookStubName : string := "asan_hook_stub".
Definition kSyzyAsanDll : string := "syzyasan_rtl.dll".
Definition kSyzyAsanHpDll : string := "syzyasan_hp.dll".

Definition instrument_dll_name (T : AsanTransform) : string :=
  if String.eqb (asan_dll_name_ T) "" then
    if negb (hot_patching_ T) then kSyzyAsanDll else kSyzyAsanHpDll
  else asan_dll_name_ T.

(** [std::string::find(s) != npos]. *)
Definition contains (name sub : string) : bool :=
  match String.index 0 sub name with
  | Some _ => true
  | None => false
  end.

(** The heap initialization blocks, in block order, appended to those
    already known. *)
Fixpoint FindHeapInitAndCrtHeapBlocks (bs : list Block) (found : list nat)
  : list nat :=
  match bs with
  | [] => found
  | b :: rest =>
      let add_block :=
        if contains (block_name b) "_heap_init" then true
        else if contains (block_name b) "_acrt_initialize_heap" then true
        else false in
      FindHeapInitAndCrtHeapBlocks rest
        (if add_block then found ++ [block_id b] else found)
  end.

(** The statically linked functions that need to be intercepted. *)
Definition PeFindStaticallyLinkedFunctionsToIntercept
    (use_interceptors : bool) (bs : list Block) (found : list nat)
  : list nat :=
  if Filter_empty use_interceptors then found
  else
    found
    ++ map block_id (List.filter (Filter_ShouldIntercept use_interceptors) bs).

Definition with_pre_pass (T : AsanTransform) (heap_init static_blocks : list nat)
    (hooks : AsanHookMap) : AsanTransform :=
  {| debug_friendly := debug_friendly T;
     use_liveness_analysis := use_liveness_analysis T;
     remove_redundant_checks := remove_redundant_checks T;
     use_interceptors_ := use_interceptors_ T;
     tx_instrumentation_rate_ := tx_instrumentation_rate_ T;
     check_access_hooks_ref_ := hooks;
     hot_patching_ := hot_patching_ T;
     asan_dll_name_ := asan_dll_name_ T;
     filter := filter T;
     heap_init_blocks_ := heap_init;
     static_intercepted_blocks_ := static_blocks;
     hot_patched_blocks_ := hot_patched_blocks_ T |}.

(** [AsanTransform::PreBlockGraphIteration]: the status, the transform
    object and the block graph as the function leaves them. *)
Definition PreBlockGraphIteration (T : AsanTransform) (bg : BlockGraph)
  : option Error * AsanTransform * BlockGraph :=
  (* Ensure that this image has not already been instrumented. *)
  match FindSection bg kThunkSectionName with
  | Some _ => (Some AlreadyInstrumented, T, bg)
  | None =>
      (* Initialize heap initialization blocks. *)
      let heap_init :=
        FindHeapInitAndCrtHeapBlocks (blocks bg) (heap_init_blocks_ T) in
      (* Add an import entry for the Asan runtime. *)
      let import_module :=
        ImportedModule_create (instrument_dll_name T) kDateInThePast in
      (* Find static intercepts in PE images. *)
      let static_blocks :=
        match image_format bg with
        | PE_IMAGE =>
            PeFindStaticallyLinkedFunctionsToIntercept (use_interceptors_ T)
              (blocks bg) (static_intercepted_blocks_ T)
        | COFF_IMAGE => static_intercepted_blocks_ T
        end in
      let T1 := with_pre_pass T heap_init static_blocks
                              (check_access_hooks_ref_ T) in
      (* We don't need to import any hooks in hot patching mode. *)
      if negb (hot_patching_ T) then
        match ImportAsanCheckAccessHooks kAsanHookStubName
                (use_liveness_analysis T) import_module
                (check_access_hooks_ref_ T) bg with
        | Err e (bg', hooks) =>
            (Some e, with_pre_pass T heap_init static_blocks hooks, bg')
        | Ok (bg', hooks) =>
            (None, with_pre_pass T heap_init static_blocks hooks, bg')
        end
      else
        (* Redirect DllMain entry thunk in hot patching mode. *)
        let '(ok, bg') := EntryThunkTransform bg (instrument_dll_name T) in
        if negb ok then (Some EntryThunkFailure, T1, bg')
        else (None, T1, bg')
  end.

(** [AsanTransform::set_instrumentation_rate]. *)
Definition AsanTransform_set_instrumentation_rate (T : AsanTransform)
    (instrumentation_rate : double) : AsanTransform :=
  {| debug_friendly := debug_friendly T;
     use_liveness_analysis := use_liveness_analysis T;
     remove_redundant_checks := remove_redundant_checks T;
     use_interceptors_ := use_interceptors_ T;
     tx_instrumentation_rate_ :=
       std_max double_0 (std_min double_1 instrumentation_rate);
     check_access_hooks_ref_ := check_access_hooks_ref_ T;
     hot_patching_ := hot_patching_ T;
     asan_dll_name_ := asan_dll_name_ T;
     filter := filter T;
     heap_init_blocks_ := heap_init_blocks_ T;
     static_intercepted_blocks_ := static_intercepted_blocks_ T;
     hot_patched_blocks_ := hot_patched_blocks_ T |}.

Definition push_hot_patched_block (T : AsanTransform) (b : nat)
  : AsanTransform :=
  {| debug_friendly := debug_friendly T;
     use_liveness_analysis := use_liveness_analysis T;
     remove_redundant_checks := remove_redundant_checks T;
     use_interceptors_ := use_interceptors_ T;
     tx_instrumentation_rate_ := tx_instrumentation_rate_ T;
     check_access_hooks_ref_ := check_access_hooks_ref_ T;
     hot_patching_ := hot_patching_ T;
     asan_dll_name_ := asan_dll_name_ T;
     filter := filter T;
     heap_init_blocks_ := heap_init_blocks_ T;
     static_intercepted_blocks_ := static_intercepted_blocks_ T;
     hot_patched_blocks_ := hot_patched_blocks_ T ++ [b] |}.

Definition mem_nat (x : nat) (l : list nat) : bool :=
  existsb (Nat.eqb x) l.

(** Heap initialization blocks and intercepted blocks must be skipped, and
    so must blocks that are not safe to basic block decompose. *)
Definition ShouldSkipBlock (T : AsanTransform) (block : Block) : bool :=
  if mem_nat (block_id block) (heap_init_blocks_ T) then true
  else if mem_nat (block_id block) (static_intercepted_blocks_ T) then true
  else if negb (BlockIsSafeToBasicBlockDecompose block) then true
  else false.

(** Modelled from the spec: the constructor of [AsanBasicBlockTransform] is
    in the header.  The spec has the options off by default, the rate at
    1.0 (no sampling), dry-run only in hot-patching mode and
    [instrumentation_happened] raised by the instrumenter; the analyses
    start empty. *)
Definition AsanBasicBlockTransform_create (check_access_hooks : AsanHookMap)
  : AsanBasicBlockTransform :=
  {| check_access_hooks_ := check_access_hooks;
     debug_friendly_ := false;
     use_liveness_analysis_ := false;
     remove_redundant_checks_ := false;
     instrumentation_rate_ := double_1;
     dry_run_ := false;
     instrumentation_happened_ := false;
     IsFiltered := fun _ => false;
     liveness_ := LivenessAnalysis_create;
     memory_accesses_ := MemoryAccessAnalysis_create |}.

(** The child transform of [OnBlock] after its five setters. *)
Definition configure (T : AsanTransform) : AsanBasicBlockTransform :=
  let t := AsanBasicBlockTransform_create (check_access_hooks_ref_ T) in
  set_instrumentation_rate
    {| check_access_hooks_ := check_access_hooks_ t;
       debug_friendly_ := debug_friendly T;
       use_liveness_analysis_ := use_liveness_analysis T;
       remove_redundant_checks_ := remove_redundant_checks T;
       instrumentation_rate_ := instrumentation_rate_ t;
       dry_run_ := dry_run_ t;
       instrumentation_happened_ := instrumentation_happened_ t;
       IsFiltered := filter T;
       liveness_ := liveness_ t;
       memory_accesses_ := memory_accesses_ t |}
    (tx_instrumentation_rate_ T).

(** A basic-block subgraph transform with state [S]: from the block graph
    and the subgraph to the returned bool, the subgraph as it was left and
    the new state. *)
Definition SubGraphTransform (S : Type) : Type :=
  S -> BlockGraph -> BasicBlockSubGraph -> Env
  -> bool * InstrumentedSubGraph * S * Env.

Definition AsanSubGraphTransform : SubGraphTransform AsanBasicBlockTransform :=
  fun T bg subgraph env0 =>
    TransformBasicBlockSubGraph T (image_format bg) subgraph env0.

(** Modelled from the spec: the fields of
    [HotPatchingAsanBasicBlockTransform], declared in asan_transform.h. *)
Record HotPatchingAsanBasicBlockTransform := {
  asan_bb_transform_ : AsanBasicBlockTransform;
  prepared_for_hot_patching_ : bool
}.

(** [HotPatchingAsanBasicBlockTransform::TransformBasicBlockSubGraph]: the
    values returned by the two transforms it runs are not read. *)
Definition HotPatchingSubGraphTransform
  : SubGraphTransform HotPatchingAsanBasicBlockTransform :=
  fun hp bg subgraph env0 =>
    (* Run Asan basic block transform in dry run mode. *)
    let '(_, out, T', env1) :=
      TransformBasicBlockSubGraph (asan_bb_transform_ hp) (image_format bg)
                                  subgraph env0 in
    (* Prepare the block for hot patching if needed. *)
    if instrumentation_happened_ T' then
      let '(_, out') := PEHotPatchingBasicBlockTransform out in
      (true, out',
       {| asan_bb_transform_ := T'; prepared_for_hot_patching_ := true |},
       env1)
    else
      (true, out,
       {| asan_bb_transform_ := T'; prepared_for_hot_patching_ := false |},
       env1).

(** Modelled from the spec: [ApplyBasicBlockSubGraphTransform] is a
    primitive of the block-graph library.  Per the spec the block is
    decomposed to basic blocks, the transform is run on the subgraph, and
    the subgraph is built back into the graph; an error of any step is an
    error of the whole and nothing partial is emitted, so on failure the
    graph is the one received. *)
Definition ApplyBasicBlockSubGraphTransform {S : Type}
    (tx : SubGraphTransform S) (s : S) (bg : BlockGraph) (block : Block)
    (env0 : Env) : bool * BlockGraph * list nat * S * Env :=
  match Decompose block with
  | None => (false, bg, [], s, env0)
  | Some subgraph =>
      let '(ok, out, s', env1) := tx s bg subgraph env0 in
      if negb ok then (false, bg, [], s', env1)
      else
        match MergeSubGraph bg block out with
        | None => (false, bg, [], s', env1)
        | Some (bg', new_blocks) => (true, bg', new_blocks, s', env1)
        end
  end.

(** [AsanTransform::OnBlock].  [None] is the process abort of the
    [CHECK_EQ] on the number of new blocks. *)
Definition OnBlock (T : AsanTransform) (bg : BlockGraph) (block : Block)
    (env0 : Env) : option (bool * AsanTransform * BlockGraph * Env) :=
  if ShouldSkipBlock T block then Some (true, T, bg, env0)
  else
    (* Use the filter that was passed to us for our child transform. *)
    let transform := configure T in
    if negb (hot_patching_ T) then
      let '(ok, bg', _, _, env1) :=
        ApplyBasicBlockSubGraphTransform AsanSubGraphTransform transform bg
                                         block env0 in
      if negb ok then Some (false, T, bg', env1)
      else Some (true, T, bg', env1)
    else
      (* If we run in hot patching mode we just want to check if the block
         would be instrumented. *)
      let transform := set_dry_run transform true in
      let hp_asan_bb_transform :=
        {| asan_bb_transform_ := transform;
           prepared_for_hot_patching_ := false |} in
      let '(ok, bg', new_blocks, hp', env1) :=
        ApplyBasicBlockSubGraphTransform HotPatchingSubGraphTransform
                                         hp_asan_bb_transform bg block env0 in
      if negb ok then Some (false, T, bg', env1)
      else if prepared_for_hot_patching_ hp' then
        (* Save the block to be inserted into the hot patching section. *)
        match new_blocks with
        | [b] => Some (true, push_hot_patched_block T b, bg', env1)
        | _ => None
        end
      else Some (true, T, bg', env1).

End Pass.

(** ** Concrete collaborators and inputs for the examples *)

(** A decoder: the macros as distorm.h writes them (prefix in the low three
    bits, REPNZ and REP at bits 1 and 2, destination-write at bit 6, the
    segment in the low seven bits unless there is none), the 32-bit general
    registers numbered from 16, and codes and names for the mnemonics. *)
Definition sample_I_MOV : Z := 218.
Definition sample_I_NOP : Z := 581.
Definition sample_I_JMP : Z := 462.
Definition sample_I_SCAS : Z := 319.

Definition sample_mnemonic_name (opcode : Z) : string :=
  if opcode =? 295 then "MOVS"
  else if opcode =? 301 then "CMPS"
  else if opcode =? 307 then "STOS"
  else if opcode =? 313 then "LODS"
  else if opcode =? 319 then "SCAS"
  else if opcode =? 218 then "MOV"
  else "UNDEFINED".

Definition sample_register (r : Z) : RegisterId :=
  if r =? 16 then kRegisterEax
  else if r =? 17 then kRegisterEcx
  else if r =? 18 then kRegisterEdx
  else if r =? 19 then kRegisterEbx
  else if r =? 20 then kRegisterEsp
  else if r =? 21 then kRegisterEbp
  else if r =? 22 then kRegisterEsi
  else if r =? 23 then kRegisterEdi
  else kRegisterNone.

Definition sample_decoder : Decoder :=
  {| I_LEA := 223;
     I_CLFLUSH := 4351;
     I_PREFETCH := 1894;
     I_PREFETCHNTA := 2424;
     I_PREFETCHT0 := 2437;
     I_PREFETCHT1 := 2448;
     I_PREFETCHT2 := 2459;
     I_PREFETCHW := 1904;
     I_CMPS := 301;
     I_LODS := 313;
     I_MOVS := 295;
     I_STOS := 307;
     FLAG_GET_PREFIX := fun f => Z.land f 7;
     FLAG_REPNZ := 2;
     FLAG_REP := 4;
     FLAG_DST_WR := 64;
     SEGMENT_GET := fun s => if s =? 255 then 255 else Z.land s 127;
     R_NONE := 255;
     R_FS := 72;
     R_GS := 73;
     IsNop := fun repr => DInst.opcode repr =? sample_I_NOP;
     GetRegister := sample_register;
     GET_MNEMONIC_NAME := sample_mnemonic_name;
     ValueSizeFromConstant :=
       fun v => let w := Z.lor v 127 in
                if (w =? 4294967295) || (w =? 127) then kSize8Bit
                else kSize32Bit |}.

Definition R_EAX : Z := 16.
Definition R_EBX : Z := 19.
Definition R_EBP : Z := 21.
Definition R_ESI : Z := 22.
Definition R_EDI : Z := 23.

Definition op_none : _Operand := Op.mk O_NONE 255 0.
Definition op_reg (r : Z) (bits : Z) : _Operand := Op.mk O_REG r bits.
Definition op_smem (r : Z) (bits : Z) : _Operand := Op.mk O_SMEM r bits.
Definition op_mem (r : Z) (bits : Z) : _Operand := Op.mk O_MEM r bits.

Definition two_ops (a b : _Operand) : nat -> _Operand :=
  fun n => match n with O => a | S O => b | _ => op_none end.

Definition plain (repr : _DInst) : Instruction :=
  {| representation := repr;
     FindOperandReference := fun _ => None;
     source_range := 0%nat |}.

(** [MOV EAX, [EBX+4]]. *)
Definition mov_eax_ebx_4 : Instruction :=
  plain (DInst.mk (two_ops (op_reg R_EAX 32) (op_smem R_EBX 32))
                  64 sample_I_MOV 4 8 0 255 255).

(** [MOV [EBP-8], EAX]: the displacement is sign-extended to 64 bits. *)
Definition mov_ebp_m8_eax : Instruction :=
  plain (DInst.mk (two_ops (op_smem R_EBP 32) (op_reg R_EAX 32))
                  64 sample_I_MOV (2 ^ 64 - 8) 8 0 255 255).

(** [REP MOVS [EDI], [ESI]] on dwords. *)
Definition rep_movs : Instruction :=
  plain (DInst.mk (two_ops (op_smem R_EDI 32) (op_smem R_ESI 32))
                  (64 + 4) 295 0 0 0 255 255).

(** [MOVS [EDI], [ESI]] on dwords, no prefix. *)
Definition movs : Instruction :=
  plain (DInst.mk (two_ops (op_smem R_EDI 32) (op_smem R_ESI 32))
                  64 295 0 0 0 255 255).

(** [REPNZ SCAS [EDI]] on bytes. *)
Definition repnz_scas : Instruction :=
  plain (DInst.mk (two_ops (op_smem R_EDI 8) op_none)
                  2 sample_I_SCAS 0 0 0 255 255).

(** [LEA EAX, [EBX+4]]. *)
Definition lea_eax_ebx_4 : Instruction :=
  plain (DInst.mk (two_ops (op_reg R_EAX 32) (op_smem R_EBX 32))
                  64 223 4 8 0 255 255).

(** [MOV EAX, FS:[EBX+4]]. *)
Definition mov_eax_fs_ebx_4 : Instruction :=
  plain (DInst.mk (two_ops (op_reg R_EAX 32) (op_smem R_EBX 32))
                  64 sample_I_MOV 4 8 0 255 72).

(** [JMP [EAX*4 + table]], the displacement refers to basic block 7. *)
Definition jmp_table : Instruction :=
  {| representation :=
       DInst.mk (two_ops (op_mem R_EAX 32) op_none)
                0 sample_I_JMP 0 32 4 255 255;
     FindOperandReference :=
       fun n => match n with
                | O => Some {| referred_type := REFERRED_TYPE_BASIC_BLOCK;
                               referred := 7%nat; offset := 0 |}
                | _ => None
                end;
     source_range := 0%nat |}.

(** [MOV EAX, [global+8]], the displacement refers to block 3 at offset
    8. *)
Definition mov_eax_global : Instruction :=
  {| representation :=
       DInst.mk (two_ops (op_reg R_EAX 32) (op_smem 255 32))
                64 sample_I_MOV 0 32 0 255 255;
     FindOperandReference :=
       fun n => match n with
                | S O => Some {| referred_type := REFERRED_TYPE_BLOCK;
                                 referred := 3%nat; offset := 8 |}
                | _ => None
                end;
     source_range := 0%nat |}.

(** Analyses whose liveness state is "the arithmetic flags are live", the
    same at every instruction; no access is redundant; the stack frame is
    conventional or not as told; every draw of the generator is 0.5. *)
Definition sample_analyses (flags_live unexpected_stack : bool) : Analyses :=
  {| LivenessAnalysis := unit;
     LivenessAnalysis_create := tt;
     LivenessState := bool;
     LivenessState_default := true;
     Liveness_Analyze := fun l _ => l;
     Liveness_GetStateAtExitOf := fun _ _ => flags_live;
     Liveness_PropagateBackward := fun _ s => s;
     AreArithmeticFlagsLive := fun s => s;
     MemoryAccessAnalysis := unit;
     MemoryAccessAnalysis_create := tt;
     MemoryState := unit;
     MemoryState_default := tt;
     Memory_Analyze := fun m _ => m;
     Memory_GetStateAtEntryOf := fun _ _ => tt;
     HasNonRedundantAccess := fun _ _ => true;
     Memory_PropagateForward := fun _ s => s;
     HasUnexpectedStackFrameManipulation := fun _ => unexpected_stack;
     RandDouble := fun _ => S754_finite false 4503599627370496 (-53) |}.

(** A block-graph library in which every block decomposes into one basic
    code block holding [code], imports resolve to slots of block 1000, the
    builder and the merge succeed, and the hot-patching preparation returns
    [hp_ok]. *)
Definition sample_library (code : list Instruction) (hp_ok : bool)
  : BlockGraphLibrary :=
  {| ImportedModule := list string;
     ImportedModule_create := fun _ _ => [];
     AddSymbol := fun m s _ => (m ++ [s], List.length m);
     GetSymbolReference :=
       fun _ i => Some {| ref_type := ABSOLUTE_REF; ref_size := 4;
                          referenced := 1000%nat;
                          ref_offset := 4 * Z.of_nat i; ref_base := 0 |};
     PEAddImportsTransform := fun bg m => (true, bg, m);
     CoffAddImportsTransform := fun bg m => (true, bg, m);
     kCodeCharacteristics := 1610612768;
     BlockBuilder_Merge :=
       fun bg td =>
         let id := (2000 + List.length (blocks bg))%nat in
         Some ({| image_format := image_format bg;
                  sections := sections bg;
                  blocks :=
                    blocks bg
                    ++ [{| block_id := id; block_name := thunk_name td;
                           block_type := CODE_BLOCK;
                           block_section := Some (thunk_section td);
                           block_references := [] |}] |}, id);
     EntryThunkTransform := fun bg _ => (true, bg);
     Filter_empty := fun _ => true;
     Filter_ShouldIntercept := fun _ _ => false;
     BlockIsSafeToBasicBlockDecompose := fun _ => true;
     Decompose :=
       fun b => Some [CodeBasicBlock {| bb_id := 0%nat;
                                        instructions := code |}];
     MergeSubGraph := fun bg b _ => Some (bg, [block_id b]);
     PEHotPatchingBasicBlockTransform := fun sg => (hp_ok, sg) |}.

Definition sample_block : Block :=
  {| block_id := 1%nat; block_name := "main"; block_type := CODE_BLOCK;
     block_section := Some 0%nat; block_references := [] |}.

Definition sample_graph (fmt : ImageFormat) : BlockGraph :=
  {| image_format := fmt;
     sections := [{| section_id := 0%nat; section_name := ".text";
                     section_characteristics := 1610612768 |}];
     blocks := [sample_block] |}.

Definition empty_env : Env := {| rand_draws := 0%nat; events := [] |}.

(** A hook table for the examples: the enumerated variants, each bound to
    a slot of block 1000 in enumeration order. *)
Fixpoint bind_samples (params : list MemoryAccessInfo) (n : nat)
    (m : AsanHookMap) : AsanHookMap :=
  match params with
  | [] => m
  | p :: rest =>
      bind_samples rest (S n)
        (map_set m p {| ref_type := ABSOLUTE_REF; ref_size := 4;
                        referenced := 1000%nat;
                        ref_offset := 4 * Z.of_nat n; ref_base := 0 |})
  end.

Definition sample_hooks (use_liveness : bool) : AsanHookMap :=
  bind_samples (hook_params (D := sample_decoder) use_liveness) 0 [].

(** A basic-block transform for the examples, at rate 1.0. *)
Definition sample_transform (flags_live unexpected_stack : bool)
    (use_liveness dry_run : bool)
  : @AsanBasicBlockTransform (sample_analyses flags_live unexpected_stack) :=
  @Build_AsanBasicBlockTransform
    (sample_analyses flags_live unexpected_stack)
    (sample_hooks use_liveness) (* check_access_hooks_ *)
    false                       (* debug_friendly_ *)
    use_liveness                (* use_liveness_analysis_ *)
    false                       (* remove_redundant_checks_ *)
    double_1                    (* instrumentation_rate_ *)
    dry_run                     (* dry_run_ *)
    false                       (* instrumentation_happened_ *)
    (fun _ => false)            (* IsFiltered *)
    tt tt.

(** The loop state at the first instruction of a one-instruction block. *)
Definition sample_loop_state (flags_live unexpected_stack : bool)
  : @LoopState (sample_analyses flags_live unexpected_stack) :=
  @Build_LoopState (sample_analyses flags_live unexpected_stack)
    [flags_live] flags_live tt empty_env false.

(** A pass object for the examples. *)
Definition sample_pass (use_liveness hot_patching : bool) : AsanTransform :=
  {| debug_friendly := false;
     use_liveness_analysis := use_liveness;
     remove_redundant_checks := false;
     use_interceptors_ := false;
     tx_instrumentation_rate_ := double_1;
     check_access_hooks_ref_ := sample_hooks use_liveness;
     hot_patching_ := hot_patching;
     asan_dll_name_ := "";
     filter := fun _ => false;
     heap_init_blocks_ := [];
     static_intercepted_blocks_ := [];
     hot_patched_blocks_ := [] |}.

(** An image that already carries the section of the thunks. *)
Definition instrumented_graph : BlockGraph :=
  {| image_format := PE_IMAGE;
     sections := [{| section_id := 0%nat; section_name := ".text";
                     section_characteristics := 1610612768 |};
                  {| section_id := 1%nat; section_name := ".thunks";
                     section_characteristics := 1610612768 |}];
     blocks := [sample_block] |}.

(** ** The statements of the design document, in its words *)

Section Statements.
Context {D : Decoder} {A : Analyses} {L : BlockGraphLibrary}.

(** The reference the displacement field of operand [operand] carries: an
    instruction without displacement carries none. *)
Definition carried_reference (instr : Instruction) (operand : nat)
  : option BasicBlockReference :=
  if DInst.dispSize (representation instr) =? 0 then None
  else FindOperandReference instr operand.

(** The displacement of the instruction, zero when it has none. *)
Definition instruction_displacement (instr : Instruction) : Z :=
  if DInst.dispSize (representation instr) =? 0 then 0
  else DInst.disp (representation instr).

(** Access size in bytes minus one. *)
Definition last_byte_adjustment (instr : Instruction) (operand : nat) : Z :=
  Op.size (DInst.ops (representation instr) operand) / 8 - 1.

(** "If the displacement field carries a reference (to a block or basic
    block), the adjustment is added to offset, preserving the reference." *)
Definition adjustment_added_to_reference (instr : Instruction)
    (operand : nat) : Prop :=
  forall r,
    carried_reference instr operand = Some r ->
    let d := ComputeDisplacementForOperand instr operand in
    referred_type (reference_ d) = referred_type r
    /\ referred (reference_ d) = referred r
    /\ offset (reference_ d)
       = to_int32 (offset r + last_byte_adjustment instr operand).

Definition has_prefix (instr : Instruction) (flag : Z) : Prop :=
  Z.land (FLAG_GET_PREFIX (DInst.flags (representation instr))) flag <> 0.

Definition writes_destination (instr : Instruction) : Prop :=
  Z.land (DInst.flags (representation instr)) FLAG_DST_WR <> 0.

(** The mode rules of the classifier, "evaluated in order": each rule
    applies when none of the earlier ones does. *)
Inductive mode_rule (instr : Instruction) (chosen : nat)
  : MemoryAccessMode -> Prop :=
| rule_repnz :
    has_prefix instr FLAG_REPNZ ->
    mode_rule instr chosen kRepnzAccess
| rule_repz :
    ~ has_prefix instr FLAG_REPNZ ->
    has_prefix instr FLAG_REP ->
    mode_rule instr chosen kRepzAccess
| rule_instr :
    ~ has_prefix instr FLAG_REPNZ ->
    ~ has_prefix instr FLAG_REP ->
    In (instr_opcode instr) [I_CMPS; I_LODS; I_MOVS; I_STOS] ->
    mode_rule instr chosen kInstrAccess
| rule_write :
    ~ has_prefix instr FLAG_REPNZ ->
    ~ has_prefix instr FLAG_REP ->
    ~ In (instr_opcode instr) [I_CMPS; I_LODS; I_MOVS; I_STOS] ->
    writes_destination instr -> chosen = 0%nat ->
    mode_rule instr chosen kWriteAccess
| rule_read :
    ~ has_prefix instr FLAG_REPNZ ->
    ~ has_prefix instr FLAG_REP ->
    ~ In (instr_opcode instr) [I_CMPS; I_LODS; I_MOVS; I_STOS] ->
    ~ (writes_destination instr /\ chosen = 0%nat) ->
    mode_rule instr chosen kReadAccess.

Definition is_string_mode (m : MemoryAccessMode) : bool :=
  match m with
  | kInstrAccess | kRepzAccess | kRepnzAccess => true
  | _ => false
  end.

(** The size as the naming rule writes it: the decimal numeral of the
    number, most significant digit first, without leading zero, with a
    minus sign for a negative number.  The digits are taken by division by
    ten; [fuel] bounds their number. *)
Definition decimal_digit (d : Z) : ascii := ascii_of_nat (48 + Z.to_nat d).

Fixpoint decimal_digits (fuel : nat) (n : Z) : string :=
  match fuel with
  | O => EmptyString
  | S fuel' =>
      let high :=
        if n <? 10 then EmptyString else decimal_digits fuel' (n / 10) in
      (high ++ String (decimal_digit (n mod 10)) EmptyString)%string
  end.

Definition spec_decimal (n : Z) : string :=
  if n <? 0 then ("-" ++ decimal_digits (S (Z.to_nat (- n))) (- n))%string
  else decimal_digits (S (Z.to_nat n)) n.

(** The same digits, least significant first, as a numeral of the Standard
    Library; they link [spec_decimal] to the printer behind [printf_d]. *)
Definition digit_cons (d : Z) (u : Decimal.uint) : Decimal.uint :=
  match d with
  | 0 => Decimal.D0 u
  | 1 => Decimal.D1 u
  | 2 => Decimal.D2 u
  | 3 => Decimal.D3 u
  | 4 => Decimal.D4 u
  | 5 => Decimal.D5 u
  | 6 => Decimal.D6 u
  | 7 => Decimal.D7 u
  | 8 => Decimal.D8 u
  | _ => Decimal.D9 u
  end.

Fixpoint decimal_lu (fuel : nat) (n : Z) : Decimal.uint :=
  match fuel with
  | O => Decimal.Nil
  | S fuel' =>
      digit_cons (n mod 10)
        (if n <? 10 then Decimal.Nil else decimal_lu fuel' (n / 10))
  end.

(** The probe name of the naming rule, piece by piece, with the size in
    decimal; the rule says nothing of the mode None. *)
Definition spec_probe_name (info : MemoryAccessInfo)
    (image_format : ImageFormat) : string :=
  let prefix :=
    match image_format with COFF_IMAGE => "_" | PE_IMAGE => "" end%string in
  let rep :=
    match mode info with
    | kRepzAccess => "_repz"
    | kRepnzAccess => "_repnz"
    | _ => ""
    end%string in
  let op :=
    match mode info with
    | kReadAccess => "read"
    | kWriteAccess => "write"
    | kInstrAccess | kRepzAccess | kRepnzAccess =>
        ToLowerASCII (GET_MNEMONIC_NAME (opcode info))
    | kNoAccess => ""
    end%string in
  let nf := (if save_flags info then "" else "_no_flags")%string in
  (prefix ++ "asan_check" ++ rep ++ "_" ++ spec_decimal (size info)
   ++ "_byte_" ++ op ++ "_access" ++ nf)%string.

(** The probe variants the enumeration rule lists. *)
Definition spec_variant (use_liveness_analysis : bool)
    (x : MemoryAccessInfo) : Prop :=
  (In (size x) [1; 2; 4; 8; 16; 32; 10]
   /\ (mode x = kReadAccess \/ mode x = kWriteAccess)
   /\ opcode x = 0
   /\ (save_flags x = true
       \/ (save_flags x = false /\ use_liveness_analysis = true)))
  \/ (In (size x) [1; 2; 4]
      /\ In (opcode x) [I_CMPS; I_LODS; I_MOVS; I_STOS]
      /\ (mode x = kRepzAccess \/ mode x = kInstrAccess)
      /\ save_flags x = true).

(** The call the instrumenter emits to reach [hook]. *)
Definition probe_call (image_format : ImageFormat) (hook : Reference)
  : AsmInstruction :=
  match image_format with
  | PE_IMAGE =>
      asm_call (Operand_displ
                  (Displacement_block (referenced hook) (ref_offset hook)))
  | COFF_IMAGE =>
      asm_call_imm (Immediate_block (referenced hook) (ref_offset hook))
  end.

(** The accesses that are never to be instrumented: through FS or GS, by
    LEA, CLFLUSH or a PREFETCH, or, on a safe stack, based on ESP or EBP. *)
Definition exempt (stack_mode : StackAccessMode) (instr : Instruction)
  : Prop :=
  SEGMENT_GET (DInst.segment (representation instr)) = R_FS
  \/ SEGMENT_GET (DInst.segment (representation instr)) = R_GS
  \/ In (DInst.opcode (representation instr))
        [I_LEA; I_CLFLUSH; I_PREFETCH; I_PREFETCHNTA; I_PREFETCHT0;
         I_PREFETCHT1; I_PREFETCHT2; I_PREFETCHW]
  \/ (stack_mode = kSafeStackAccess
      /\ exists operand info,
           DecodeMemoryAccess instr initial_info = Some (operand, info)
           /\ (base_ operand = kRegisterEsp \/ base_ operand = kRegisterEbp)).

(** The variants of the enumeration, by kind. *)
Definition load_store (m : MemoryAccessMode) (sz : Z) (sf : bool)
  : MemoryAccessInfo :=
  {| mode := m; size := sz; opcode := 0; save_flags := sf |}.

Definition string_probe (m : MemoryAccessMode) (sz : Z) (opc : Z)
  : MemoryAccessInfo :=
  {| mode := m; size := sz; opcode := opc; save_flags := true |}.

(** The load/store part of the vector, for a list of sizes. *)
Definition load_store_part (use_liveness_analysis : bool) (sizes : list Z)
  : list MemoryAccessInfo :=
  flat_map
    (fun sz =>
       if use_liveness_analysis then
         [load_store kReadAccess sz true; load_store kReadAccess sz false;
          load_store kWriteAccess sz true; load_store kWriteAccess sz false]
       else
         [load_store kReadAccess sz true; load_store kWriteAccess sz true])
    sizes.

(** The string part of the vector, for a list of sizes. *)
Definition string_part (sizes : list Z) : list MemoryAccessInfo :=
  flat_map
    (fun sz =>
       flat_map (fun opc => [string_probe kRepzAccess sz opc;
                             string_probe kInstrAccess sz opc])
                strings)
    sizes.

(** The descriptor with which a probe was looked up, if one was. *)
Definition selected_probe (o : Outcome) : option MemoryAccessInfo :=
  match o with
  | Skipped => None
  | Instrumented info _ _ => Some info
  | ReturnedFalse info => Some info
  end.

(** The value [set_instrumentation_rate] stores. *)
Definition clamp (rate : double) : double :=
  std_max double_0 (std_min double_1 rate).

(** A library whose block builder and import transform keep the sections
    of the graph. *)
Definition library_keeps_sections : Prop :=
  (forall bg td bg' id,
      BlockBuilder_Merge bg td = Some (bg', id) -> sections bg' = sections bg)
  /\ (forall bg m ok bg' m',
         PEAddImportsTransform bg m = (ok, bg', m') ->
         sections bg' = sections bg)
  /\ (forall bg m ok bg' m',
         CoffAddImportsTransform bg m = (ok, bg', m') ->
         sections bg' = sections bg).

(** The child transform of hot-patching mode, as [OnBlock] builds it. *)
Definition hot_patching_child (T : AsanTransform)
  : HotPatchingAsanBasicBlockTransform :=
  {| asan_bb_transform_ := set_dry_run (configure T) true;
     prepared_for_hot_patching_ := false |}.

End Statements.

(** ** Further code of the transform: the interceptors *)

(** [ImportNameIndexMap], a [std::map<std::string, size_t>].  Only [find]
    and [insert] are used on it, so the order of the entries plays no part;
    they are kept in insertion order.  [insert] does nothing when the key is
    there. *)
Definition ImportNameIndexMap := list (string * nat).

Fixpoint name_index_find (m : ImportNameIndexMap) (name : string)
  : option nat :=
  match m with
  | [] => None
  | (n, i) :: rest =>
      if String.eqb n name then Some i else name_index_find rest name
  end.

Definition name_index_insert (m : ImportNameIndexMap) (name : string)
    (idx : nat) : ImportNameIndexMap :=
  match name_index_find m name with
  | Some _ => m
  | None => m ++ [(name, idx)]
  end.

Section StaticIntercepts.
Context {L : BlockGraphLibrary}.

(** Loads the intercepts for the statically linked functions that need to
    be intercepted into the imported module and the import index map.  The
    set of blocks is given in its iteration order. *)
Fixpoint PeLoadInterceptsForStaticallyLinkedFunctions
    (static_blocks : list Block) (import_name_index_map : ImportNameIndexMap)
    (asan_rtl : ImportedModule) (block_name_prefix : string)
  : ImportNameIndexMap * ImportedModule :=
  match static_blocks with
  | [] => (import_name_index_map, asan_rtl)
  | block :: rest =>
      (* Don't add an import entry for names that have already been
         processed. *)
      match name_index_find import_name_index_map (block_name block) with
      | Some _ =>
          PeLoadInterceptsForStaticallyLinkedFunctions rest
            import_name_index_map asan_rtl block_name_prefix
      | None =>
          let name := (block_name_prefix ++ block_name block)%string in
          let '(asan_rtl', index) := AddSymbol asan_rtl name kAlwaysImport in
          PeLoadInterceptsForStaticallyLinkedFunctions rest
            (name_index_insert import_name_index_map (block_name block) index)
            asan_rtl' block_name_prefix
      end
  end.

End StaticIntercepts.

(** Modelled from the spec: [AsanIntercept] is declared in
    asan_intercepts.h; the spec gives the descriptor a nullable module
    name, an undecorated name, a nullable decorated name and an optional
    flag.  The table ends at the first null undecorated name and is given
    here as the list of the entries before it. *)
Record AsanIntercept := {
  undecorated_name : string;
  decorated_name : option string;
  intercept_module : option string;
  optional : bool
}.

(** The interface of the COFF helpers [CoffInterceptFunctions] calls: the
    two name prefixes of asan_intercepts.h, the search for the COFF header
    blocks, the names of the symbol map of the object file (none when it
    cannot be built), and the symbol rename transform applied with its
    mappings (symbols need not exist). *)
Class CoffLibrary := {
  kDecoratedImportPrefix : string;
  kDecoratedAsanInterceptPrefix : string;
  FindCoffSpecialBlocks : BlockGraph -> bool;
  BuildCoffSymbolNameOffsetMap : BlockGraph -> option (list string);
  CoffRenameSymbolsTransform : list (string * string) -> BlockGraph
                               -> bool * BlockGraph
}.

(** The failures of [CoffInterceptFunctions], by the message logged:
    "Unable to find COFF header blocks.", "Unable to build symbol map.",
    "Object file being instrumented defines Asan function ...", "Failed to
    apply COFF symbol rename transform.". *)
Inductive CoffInterceptError :=
| NoCoffHeaderBlocks
| NoSymbolMap
| DefinesAsanFunctions
| RenameFailure.

Section CoffIntercepts.
Context {C : CoffLibrary}.

(** [symbol_map.count(name)] as a truth value. *)
Definition symbol_map_count (symbol_map : list string) (name : string)
  : bool :=
  existsb (String.eqb name) symbol_map.

(** One round of the loop of [CoffInterceptFunctions] over the intercepts:
    the mappings given to the rename transform so far and the flag
    [defines_asan_functions]. *)
Definition coff_intercept_round (use_interceptors : bool)
    (symbol_map : list string) (st : list (string * string) * bool)
    (intercept : AsanIntercept) : list (string * string) * bool :=
  (* Skip disabled optional functions. *)
  if negb use_interceptors && optional intercept then st
  else
    (* Skip functions for which we have no decorated name. *)
    match decorated_name intercept with
    | None => st
    | Some decorated =>
        let imp_name := (kDecoratedImportPrefix ++ decorated)%string in
        let asan_name :=
          (kDecoratedAsanInterceptPrefix ++ decorated)%string in
        let imp_asan_name := (kDecoratedImportPrefix ++ asan_name)%string in
        let mappings :=
          fst st ++ [(decorated, asan_name); (imp_name, imp_asan_name)] in
        let defines :=
          fold_left (fun d name => if symbol_map_count symbol_map name
                                   then true else d)
                    [asan_name; imp_asan_name] (snd st) in
        (mappings, defines)
    end.

(** [AsanTransform::CoffInterceptFunctions]: the status and the block graph
    as the function leaves it. *)
Definition CoffInterceptFunctions (use_interceptors : bool)
    (intercepts : list AsanIntercept) (bg : BlockGraph)
  : option CoffInterceptError * BlockGraph :=
  (* Extract the existing symbols. *)
  if negb (FindCoffSpecialBlocks bg) then (Some NoCoffHeaderBlocks, bg)
  else
    match BuildCoffSymbolNameOffsetMap bg with
    | None => (Some NoSymbolMap, bg)
    | Some symbol_map =>
        let '(mappings, defines_asan_functions) :=
          fold_left (coff_intercept_round use_interceptors symbol_map)
                    intercepts ([], false) in
        if defines_asan_functions then (Some DefinesAsanFunctions, bg)
        else
          (* Apply the rename transform. *)
          let '(ok, bg') := CoffRenameSymbolsTransform mappings bg in
          if negb ok then (Some RenameFailure, bg') else (None, bg')
    end.

(** An intercept the loop handles: enabled and with a decorated name. *)
Definition coff_handled (use_interceptors : bool) (i : AsanIntercept)
  : option string :=
  if negb use_interceptors && optional i then None else decorated_name i.

(** The two renames of a handled intercept. *)
Definition coff_renames_of (decorated : string) : list (string * string) :=
  [(decorated, (kDecoratedAsanInterceptPrefix ++ decorated)%string);
   ((kDecoratedImportPrefix ++ decorated)%string,
    (kDecoratedImportPrefix ++ kDecoratedAsanInterceptPrefix
     ++ decorated)%string)].

(** The object file defines the Asan version of an intercept the loop
    handles, directly or as an import. *)
Definition coff_collision (use_interceptors : bool)
    (intercepts : list AsanIntercept) (symbol_map : list string) : Prop :=
  exists i decorated,
    In i intercepts
    /\ coff_handled use_interceptors i = Some decorated
    /\ (In (kDecoratedAsanInterceptPrefix ++ decorated)%string symbol_map
        \/ In (kDecoratedImportPrefix ++ kDecoratedAsanInterceptPrefix
               ++ decorated)%string symbol_map).

(** The renames of the intercepts the loop handles, in table order. *)
Definition coff_mappings (use_interceptors : bool)
    (intercepts : list AsanIntercept) : list (string * string) :=
  flat_map (fun i => match coff_handled use_interceptors i with
                     | Some decorated => coff_renames_of decorated
                     | None => []
                     end) intercepts.

End CoffIntercepts.

(** ** Further statements about the instrumenter *)

Section MoreStatements.
Context {D : Decoder} {A : Analyses}.

(** The accesses the loop passes over for what their displacement refers
    to, or because the filter holds them: the classified operand carries a
    reference to a block or to a basic block, or the instruction is
    filtered. *)
Definition reference_or_filtered (T : AsanBasicBlockTransform)
    (instr : Instruction) : Prop :=
  IsFiltered T instr = true
  \/ exists operand info,
       DecodeMemoryAccess instr initial_info = Some (operand, info)
       /\ (referred_type (reference_ (displacement_ operand))
           = REFERRED_TYPE_BLOCK
           \/ referred_type (reference_ (displacement_ operand))
              = REFERRED_TYPE_BASIC_BLOCK).

(** The source range an inserted instruction is to carry. *)
Definition expected_source_range (T : AsanBasicBlockTransform)
    (instr : Instruction) : option nat :=
  if debug_friendly_ T then Some (source_range instr) else None.

(** The memory state after the loop has gone past [instrs]. *)
Definition propagate_all (instrs : list Instruction) (m : MemoryState)
  : MemoryState :=
  fold_left (fun m i => Memory_PropagateForward i m) instrs m.

End MoreStatements.

(** ** Further inputs for the examples *)

(** Analyses in which the memory state counts the instructions passed since
    the entry of the block, and only the first instruction of a block has an
    access that needs a check. *)
Definition counting_analyses : Analyses :=
  {| LivenessAnalysis := unit;
     LivenessAnalysis_create := tt;
     LivenessState := bool;
     LivenessState_default := true;
     Liveness_Analyze := fun l _ => l;
     Liveness_GetStateAtExitOf := fun _ _ => true;
     Liveness_PropagateBackward := fun _ s => s;
     AreArithmeticFlagsLive := fun s => s;
     MemoryAccessAnalysis := unit;
     MemoryAccessAnalysis_create := tt;
     MemoryState := nat;
     MemoryState_default := 0%nat;
     Memory_Analyze := fun m _ => m;
     Memory_GetStateAtEntryOf := fun _ _ => 0%nat;
     HasNonRedundantAccess := fun m _ => Nat.eqb m 0;
     Memory_PropagateForward := fun _ m => S m;
     HasUnexpectedStackFrameManipulation := fun _ => false;
     RandDouble := fun _ => S754_finite false 4503599627370496 (-53) |}.

(** A debug-friendly transform that removes redundant checks, at rate
    1.0. *)
Definition counting_transform : @AsanBasicBlockTransform counting_analyses :=
  @Build_AsanBasicBlockTransform counting_analyses
    (sample_hooks false)        (* check_access_hooks_ *)
    true                        (* debug_friendly_ *)
    false                       (* use_liveness_analysis_ *)
    true                        (* remove_redundant_checks_ *)
    double_1                    (* instrumentation_rate_ *)
    false                       (* dry_run_ *)
    false                       (* instrumentation_happened_ *)
    (fun _ => false)            (* IsFiltered *)
    tt tt.

(** [MOV EAX, [EBX+4]] with source range 5. *)
Definition mov_at_5 : Instruction :=
  {| representation := representation mov_eax_ebx_4;
     FindOperandReference := fun _ => None;
     source_range := 5%nat |}.

(** A block of the CRT that initializes the heap, and an image with it. *)
Definition heap_init_block : Block :=
  {| block_id := 2%nat; block_name := "__heap_init"; block_type := CODE_BLOCK;
     block_section := Some 0%nat; block_references := [] |}.

Definition heap_graph : BlockGraph :=
  {| image_format := PE_IMAGE;
     sections := sections (sample_graph PE_IMAGE);
     blocks := [sample_block; heap_init_block] |}.

(** COFF helpers for the examples: the header blocks are found, the symbol
    map holds [symbols], and the rename transform succeeds and leaves the
    graph alone. *)
Definition sample_coff (symbols : list string) : CoffLibrary :=
  {| kDecoratedImportPrefix := "__imp_";
     kDecoratedAsanInterceptPrefix := "_asan";
     FindCoffSpecialBlocks := fun _ => true;
     BuildCoffSymbolNameOffsetMap := fun _ => Some symbols;
     CoffRenameSymbolsTransform := fun _ bg => (true, bg) |}.

Definition sample_intercepts : list AsanIntercept :=
  [{| undecorated_name := "memcpy"; decorated_name := Some "_memcpy"%string;
      intercept_module := None; optional := false |};
   {| undecorated_name := "ReadFile"; decorated_name := Some "_ReadFile@20"%string;
      intercept_module := Some "kernel32.dll"%string; optional := true |};
   {| undecorated_name := "wcsrchr"; decorated_name := None;
      intercept_module := None; optional := false |}].

(* ================================================================== *)
(** * Part II: properties *)
(* ================================================================== *)

(** ** Arithmetic and strings *)

Lemma to_uint32_small (z : Z) : 0 <= z < 2 ^ 32 -> to_uint32 z = z.
Proof. intros H. unfold to_uint32. apply Z.mod_small. exact H. Qed.

Lemma to_int32_small (z : Z) : - 2 ^ 31 <= z < 2 ^ 31 -> to_int32 z = z.
Proof.
  intros H. unfold to_int32. rewrite Z.mod_small; lia.
Qed.

Lemma ToLowerASCII_app (a b : string) :
  ToLowerASCII (a ++ b) = (ToLowerASCII a ++ ToLowerASCII b)%string.
Proof.
  induction a as [|c a IH]; simpl; [reflexivity | now rewrite IH].
Qed.

Lemma ToLowerASCII_char_idem (c : ascii) :
  ToLowerASCII_char (ToLowerASCII_char c) = ToLowerASCII_char c.
Proof.
  destruct c as [[] [] [] [] [] [] [] []]; reflexivity.
Qed.

Lemma ToLowerASCII_idem (s : string) :
  ToLowerASCII (ToLowerASCII s) = ToLowerASCII s.
Proof.
  induction s as [|c s IH]; simpl; [reflexivity|].
  now rewrite ToLowerASCII_char_idem, IH.
Qed.

Lemma ToLowerASCII_uint (u : Decimal.uint) :
  ToLowerASCII (NilEmpty.string_of_uint u) = NilEmpty.string_of_uint u.
Proof.
  induction u; simpl; try reflexivity; now rewrite IHu.
Qed.

Lemma ToLowerASCII_printf_d (n : Z) : ToLowerASCII (printf_d n) = printf_d n.
Proof.
  unfold printf_d. destruct (Z.to_int n) as [u|u]; simpl.
  - apply ToLowerASCII_uint.
  - now rewrite ToLowerASCII_uint.
Qed.

(** ** The decimal numeral of a size *)

Lemma digit_cases (k : Z) :
  0 <= k < 10 ->
  k = 0 \/ k = 1 \/ k = 2 \/ k = 3 \/ k = 4 \/ k = 5 \/ k = 6 \/ k = 7
  \/ k = 8 \/ k = 9.
Proof. lia. Qed.

Local Ltac by_digit H :=
  apply digit_cases in H;
  repeat (destruct H as [H|H]; [subst|]); subst.

Lemma digit_cons_value (k : Z) (u : Decimal.uint) :
  0 <= k < 10 ->
  DecimalPos.Unsigned.of_lu (digit_cons k u) = (Z.to_N k + 10 * DecimalPos.Unsigned.of_lu u)%N.
Proof. intros H. by_digit H; reflexivity. Qed.

Lemma digit_cons_string (k : Z) (u : Decimal.uint) :
  0 <= k < 10 ->
  NilEmpty.string_of_uint (digit_cons k u)
  = String (decimal_digit k) (NilEmpty.string_of_uint u).
Proof. intros H. by_digit H; reflexivity. Qed.

Lemma digit_cons_revapp (k : Z) (u acc : Decimal.uint) :
  Decimal.revapp (digit_cons k u) acc = Decimal.revapp u (digit_cons k acc).
Proof.
  unfold digit_cons.
  destruct k as [|p|p]; try reflexivity.
  do 4 (destruct p as [p|p|]; try reflexivity).
Qed.

Lemma digit_cons_unorm (k : Z) (u : Decimal.uint) :
  0 < k < 10 -> Decimal.unorm (digit_cons k u) = digit_cons k u.
Proof.
  intros H. assert (H' : 0 <= k < 10) by lia.
  by_digit H'; try reflexivity. lia.
Qed.

Lemma decimal_lu_value (fuel : nat) :
  forall n, 0 <= n < Z.of_nat fuel ->
            DecimalPos.Unsigned.of_lu (decimal_lu fuel n) = Z.to_N n.
Proof.
  induction fuel as [|fuel IH]; intros n Hn; [lia|].
  cbn [decimal_lu].
  pose proof (Z.mod_pos_bound n 10 ltac:(lia)) as Hk.
  rewrite digit_cons_value by exact Hk.
  pose proof (Z.div_mod n 10 ltac:(lia)) as Hdm.
  destruct (n <? 10) eqn:E.
  - apply Z.ltb_lt in E. rewrite Z.mod_small by lia. cbn. lia.
  - apply Z.ltb_ge in E.
    assert (Hq : 0 <= n / 10 < Z.of_nat fuel).
    { split; [apply Z.div_pos; lia|].
      assert (n / 10 < n) by (apply Z.div_lt; lia). lia. }
    rewrite (IH _ Hq). lia.
Qed.

Lemma string_append_assoc (a b c : string) :
  ((a ++ b) ++ c = a ++ (b ++ c))%string.
Proof. induction a as [|x a IH]; cbn; [reflexivity | now rewrite IH]. Qed.

Lemma string_of_uint_revapp (u : Decimal.uint) :
  forall acc,
    NilEmpty.string_of_uint (Decimal.revapp u acc)
    = (NilEmpty.string_of_uint (Decimal.revapp u Decimal.Nil)
       ++ NilEmpty.string_of_uint acc)%string.
Proof.
  induction u; intros acc; cbn [Decimal.revapp]; [reflexivity|..];
    rewrite IHu, (IHu (_ Decimal.Nil)); cbn [NilEmpty.string_of_uint];
    rewrite string_append_assoc; reflexivity.
Qed.

Lemma decimal_lu_string (fuel : nat) :
  forall n,
    NilEmpty.string_of_uint (Decimal.rev (decimal_lu fuel n))
    = decimal_digits fuel n.
Proof.
  induction fuel as [|fuel IH]; intros n; [reflexivity|].
  cbn [decimal_lu decimal_digits]. unfold Decimal.rev in *.
  pose proof (Z.mod_pos_bound n 10 ltac:(lia)) as Hk.
  rewrite digit_cons_revapp, string_of_uint_revapp.
  rewrite digit_cons_string by exact Hk. cbn [NilEmpty.string_of_uint].
  destruct (n <? 10); [reflexivity|]. rewrite IH. reflexivity.
Qed.

Lemma decimal_lu_unorm (fuel : nat) :
  forall n acc,
    0 < n < Z.of_nat fuel ->
    Decimal.unorm (Decimal.revapp (decimal_lu fuel n) acc)
    = Decimal.revapp (decimal_lu fuel n) acc.
Proof.
  induction fuel as [|fuel IH]; intros n acc Hn; [lia|].
  cbn [decimal_lu]. rewrite digit_cons_revapp.
  destruct (n <? 10) eqn:E.
  - apply Z.ltb_lt in E. rewrite Z.mod_small by lia. cbn [Decimal.revapp].
    apply digit_cons_unorm. lia.
  - apply Z.ltb_ge in E. apply IH.
    split; [apply Z.div_str_pos; lia|].
    assert (n / 10 < n) by (apply Z.div_lt; lia). lia.
Qed.

Lemma to_uint_decimal (p : positive) :
  NilEmpty.string_of_uint (Pos.to_uint p)
  = decimal_digits (S (Pos.to_nat p)) (Z.pos p).
Proof.
  assert (Hn : 0 < Z.pos p < Z.of_nat (S (Pos.to_nat p))) by lia.
  rewrite <- decimal_lu_string.
  f_equal.
  change (Pos.to_uint p) with (N.to_uint (N.pos p)).
  replace (N.pos p)
    with (N.of_uint (Decimal.rev (decimal_lu (S (Pos.to_nat p)) (Z.pos p)))).
  - rewrite DecimalN.Unsigned.to_of. unfold Decimal.rev.
    apply decimal_lu_unorm. exact Hn.
  - unfold N.of_uint. rewrite DecimalPos.Unsigned.of_lu_rev.
    rewrite decimal_lu_value by lia. reflexivity.
Qed.

Lemma printf_d_decimal (n : Z) : printf_d n = spec_decimal n.
Proof.
  unfold printf_d, spec_decimal. destruct n as [|p|p].
  - reflexivity.
  - change (Z.pos p <? 0) with false. cbv iota.
    change (Z.to_nat (Z.pos p)) with (Pos.to_nat p).
    rewrite <- to_uint_decimal. reflexivity.
  - change (Z.neg p <? 0) with true. cbv iota.
    change (- Z.neg p) with (Z.pos p).
    change (Z.to_nat (Z.pos p)) with (Pos.to_nat p).
    rewrite <- to_uint_decimal. reflexivity.
Qed.

(** [%d] writes the decimal numeral of the number. *)
Example spec_decimal_sizes :
  map spec_decimal [1; 2; 4; 8; 16; 32; 10; 0; 255; -7]
  = ["1"; "2"; "4"; "8"; "16"; "32"; "10"; "0"; "255"; "-7"]%string.
Proof. reflexivity. Qed.

(** ** The operand classifier *)

Section ClassifierProperties.
Context {D : Decoder}.

Lemma IsSpecialInstruction_In (opc : Z) :
  IsSpecialInstruction opc = true
  <-> In opc [I_CMPS; I_LODS; I_MOVS; I_STOS].
Proof.
  unfold IsSpecialInstruction. simpl. split.
  - destruct (opc =? I_CMPS) eqn:E1; [apply Z.eqb_eq in E1; auto|].
    destruct (opc =? I_LODS) eqn:E2; [apply Z.eqb_eq in E2; auto|].
    destruct (opc =? I_MOVS) eqn:E3; [apply Z.eqb_eq in E3; auto|].
    destruct (opc =? I_STOS) eqn:E4; [apply Z.eqb_eq in E4; auto 6|].
    simpl. discriminate.
  - intros [H|[H|[H|[H|[]]]]]; subst opc; rewrite Z.eqb_refl;
      rewrite ?orb_true_r; reflexivity.
Qed.

Lemma ShouldInstrumentOpcode_false_In (opc : Z) :
  ShouldInstrumentOpcode opc = false
  <-> In opc [I_LEA; I_CLFLUSH; I_PREFETCH; I_PREFETCHNTA; I_PREFETCHT0;
              I_PREFETCHT1; I_PREFETCHT2; I_PREFETCHW].
Proof.
  unfold ShouldInstrumentOpcode. simpl. split.
  - destruct (opc =? I_LEA) eqn:E0; [apply Z.eqb_eq in E0; auto|].
    destruct (opc =? I_CLFLUSH) eqn:E1; [apply Z.eqb_eq in E1; auto|].
    destruct (opc =? I_PREFETCH) eqn:E2; [apply Z.eqb_eq in E2; auto|].
    destruct (opc =? I_PREFETCHNTA) eqn:E3; [apply Z.eqb_eq in E3; auto 6|].
    destruct (opc =? I_PREFETCHT0) eqn:E4; [apply Z.eqb_eq in E4; auto 7|].
    destruct (opc =? I_PREFETCHT1) eqn:E5; [apply Z.eqb_eq in E5; auto 8|].
    destruct (opc =? I_PREFETCHT2) eqn:E6; [apply Z.eqb_eq in E6; auto 9|].
    destruct (opc =? I_PREFETCHW) eqn:E7; [apply Z.eqb_eq in E7; auto 10|].
    simpl. discriminate.
  - intros [H|[H|[H|[H|[H|[H|[H|[H|[]]]]]]]]]; subst opc;
      rewrite Z.eqb_refl; rewrite ?orb_true_r;
      try reflexivity; destruct (_ =? _); reflexivity.
Qed.

Lemma choose_mem_op_id_range (repr : _DInst) (chosen : nat) :
  choose_mem_op_id repr = Some chosen ->
  (chosen = 0%nat \/ chosen = 1%nat)
  /\ IsInstrumentable (DInst.ops repr chosen) = true.
Proof.
  unfold choose_mem_op_id.
  destruct (IsInstrumentable (DInst.ops repr 0%nat)) eqn:E0;
    destruct (IsInstrumentable (DInst.ops repr 1%nat)) eqn:E1; simpl;
    intros H; inversion H; subst; auto.
Qed.

(** The mode computed by the classifier obeys the rules. *)
Lemma decode_mode_rule (instr : Instruction) (chosen : nat) :
  mode_rule instr chosen (decode_mode instr chosen).
Proof.
  unfold decode_mode.
  destruct (Z.land (FLAG_GET_PREFIX (DInst.flags (representation instr)))
                   FLAG_REPNZ =? 0) eqn:Enz; simpl.
  2:{ apply rule_repnz. unfold has_prefix. now apply Z.eqb_neq. }
  apply Z.eqb_eq in Enz.
  assert (Hnz : ~ has_prefix instr FLAG_REPNZ) by (unfold has_prefix; lia).
  destruct (Z.land (FLAG_GET_PREFIX (DInst.flags (representation instr)))
                   FLAG_REP =? 0) eqn:Ez; simpl.
  2:{ apply rule_repz; [exact Hnz|]. unfold has_prefix. now apply Z.eqb_neq. }
  apply Z.eqb_eq in Ez.
  assert (Hz : ~ has_prefix instr FLAG_REP) by (unfold has_prefix; lia).
  destruct (IsSpecialInstruction (instr_opcode instr)) eqn:Es.
  { apply rule_instr; auto. now apply IsSpecialInstruction_In. }
  assert (Hs : ~ In (instr_opcode instr) [I_CMPS; I_LODS; I_MOVS; I_STOS]).
  { intros H. apply IsSpecialInstruction_In in H. congruence. }
  destruct (Z.land (DInst.flags (representation instr)) FLAG_DST_WR =? 0)
    eqn:Ew; simpl.
  { apply rule_read; auto. apply Z.eqb_eq in Ew.
    unfold writes_destination. tauto. }
  apply Z.eqb_neq in Ew.
  destruct (chosen =? 0)%nat eqn:Ec.
  - apply Nat.eqb_eq in Ec. apply rule_write; auto.
  - apply Nat.eqb_neq in Ec. apply rule_read; auto. tauto.
Qed.

(** The rules determine the mode. *)
Lemma mode_rule_functional (instr : Instruction) (chosen : nat)
    (m1 m2 : MemoryAccessMode) :
  mode_rule instr chosen m1 -> mode_rule instr chosen m2 -> m1 = m2.
Proof.
  intros H1 H2; inversion H1; inversion H2; subst; try reflexivity;
    tauto.
Qed.

(** What [DecodeMemoryAccess] returns, field by field. *)
Lemma DecodeMemoryAccess_fields (instr : Instruction)
    (info0 info : MemoryAccessInfo) (access : Operand) :
  DecodeMemoryAccess instr info0 = Some (access, info) ->
  exists chosen,
    IsNop (representation instr) = false
    /\ choose_mem_op_id (representation instr) = Some chosen
    /\ decode_operand instr chosen = Some access
    /\ mode info = decode_mode instr chosen
    /\ size info = Op.size (DInst.ops (representation instr) chosen) / 8
    /\ opcode info = (if is_string_mode (mode info)
                      then instr_opcode instr else opcode info0)
    /\ save_flags info = save_flags info0.
Proof.
  unfold DecodeMemoryAccess.
  destruct (IsNop (representation instr)) eqn:En; [discriminate|].
  destruct (choose_mem_op_id (representation instr)) as [chosen|] eqn:Ec;
    [|discriminate].
  destruct (decode_operand instr chosen) as [op|] eqn:Eo; [|discriminate].
  cbn [mode size opcode save_flags].
  destruct (decode_mode instr chosen) eqn:Em; intros H; inversion H; subst;
    exists chosen; cbn; rewrite ?Em; repeat split;
    first [assumption | reflexivity].
Qed.

(** C3. For every instruction with a chosen memory operand the access mode
    follows the rules in order: a REPNZ prefix gives RepNZ; otherwise a
    REP/REPZ prefix gives RepZ; otherwise an opcode among CMPS, LODS, MOVS
    and STOS gives Instr; otherwise a set destination-write flag with
    operand 0 chosen gives Write; otherwise Read.  The opcode field is the
    opcode of the instruction exactly when the mode is Instr, RepZ or RepNZ
    and is left as it was otherwise. *)
Theorem DecodeMemoryAccess_mode (instr : Instruction)
    (info0 info : MemoryAccessInfo) (access : Operand) :
  DecodeMemoryAccess instr info0 = Some (access, info) ->
  exists chosen,
    choose_mem_op_id (representation instr) = Some chosen
    /\ mode_rule instr chosen (mode info)
    /\ (forall m, mode_rule instr chosen m -> m = mode info)
    /\ opcode info = (if is_string_mode (mode info)
                      then instr_opcode instr else opcode info0).
Proof.
  intros H.
  destruct (DecodeMemoryAccess_fields _ _ _ _ H)
    as (chosen & _ & Hc & _ & Hm & _ & Ho & _).
  exists chosen. split; [exact Hc|].
  assert (Hr : mode_rule instr chosen (mode info))
    by (rewrite Hm; apply decode_mode_rule).
  repeat split; auto.
  intros m Hm'. eapply mode_rule_functional; eassumption.
Qed.

(** The displacement built, case by case. *)
Lemma ComputeDisplacementForOperand_fields (instr : Instruction)
    (operand : nat) :
  match carried_reference instr operand with
  | None =>
      value_ (ComputeDisplacementForOperand instr operand)
      = to_uint32 (instruction_displacement instr
                   + last_byte_adjustment instr operand)
      /\ referred_type (reference_ (ComputeDisplacementForOperand instr operand))
         = REFERRED_TYPE_UNKNOWN
  | Some r =>
      referred (reference_ (ComputeDisplacementForOperand instr operand))
      = referred r
      /\ match referred_type r with
         | REFERRED_TYPE_BLOCK =>
             referred_type
               (reference_ (ComputeDisplacementForOperand instr operand))
             = REFERRED_TYPE_BLOCK
             /\ offset (reference_ (ComputeDisplacementForOperand instr operand))
                = to_int32 (offset r + last_byte_adjustment instr operand)
         | _ =>
             referred_type
               (reference_ (ComputeDisplacementForOperand instr operand))
             = REFERRED_TYPE_BASIC_BLOCK
             /\ offset (reference_ (ComputeDisplacementForOperand instr operand))
                = 0
         end
  end.
Proof.
  unfold ComputeDisplacementForOperand, carried_reference,
    instruction_displacement, last_byte_adjustment.
  destruct (DInst.dispSize (representation instr) =? 0).
  - cbn. split; [f_equal; lia | reflexivity].
  - destruct (FindOperandReference instr operand) as [r|].
    + destruct (referred_type r); cbn; repeat split; f_equal; lia.
    + cbn. split; [f_equal; lia | reflexivity].
Qed.

(** C2, as amended.  The displacement handed to the probe is, for an
    operand whose displacement field carries no reference, the displacement
    of the instruction plus the access size minus one (as a [uint32_t]);
    for one that carries a reference to a block, the same block with the
    adjustment added to the offset; and for one that carries any other
    reference, a bare reference to the same basic block, at offset zero and
    without the adjustment. *)
Theorem ComputeDisplacementForOperand_last_byte (instr : Instruction)
    (operand : nat) :
  let d := ComputeDisplacementForOperand instr operand in
  let adj := last_byte_adjustment instr operand in
  match carried_reference instr operand with
  | None =>
      value_ d = to_uint32 (instruction_displacement instr + adj)
      /\ referred_type (reference_ d) = REFERRED_TYPE_UNKNOWN
  | Some r =>
      referred (reference_ d) = referred r
      /\ match referred_type r with
         | REFERRED_TYPE_BLOCK =>
             referred_type (reference_ d) = REFERRED_TYPE_BLOCK
             /\ offset (reference_ d) = to_int32 (offset r + adj)
         | _ =>
             referred_type (reference_ d) = REFERRED_TYPE_BASIC_BLOCK
             /\ offset (reference_ d) = 0
         end
  end.
Proof.
  cbv zeta.
  unfold carried_reference, instruction_displacement, last_byte_adjustment,
    ComputeDisplacementForOperand.
  destruct (DInst.dispSize (representation instr) =? 0) eqn:Esize.
  - (* no displacement: the literal is the adjustment alone *)
    cbn. split; [f_equal; lia | reflexivity].
  - destruct (FindOperandReference instr operand) as [r|] eqn:Eref.
    + (* a reference: only a block reference takes the adjustment *)
      destruct (referred_type r) eqn:Etype; cbn; repeat split;
        f_equal; lia.
    + (* a literal displacement *)
      cbn. split; [f_equal; lia | reflexivity].
Qed.

(** Without wrap-around: a literal displacement in the 32-bit range is the
    sum itself, and so is a block offset in the signed range. *)
Lemma ComputeDisplacementForOperand_exact (instr : Instruction)
    (operand : nat) :
  let d := ComputeDisplacementForOperand instr operand in
  let adj := last_byte_adjustment instr operand in
  (carried_reference instr operand = None ->
   0 <= instruction_displacement instr + adj < 2 ^ 32 ->
   value_ d = instruction_displacement instr + adj)
  /\ (forall r,
         carried_reference instr operand = Some r ->
         referred_type r = REFERRED_TYPE_BLOCK ->
         - 2 ^ 31 <= offset r + adj < 2 ^ 31 ->
         offset (reference_ d) = offset r + adj).
Proof.
  cbv zeta.
  pose proof (ComputeDisplacementForOperand_fields instr operand) as H.
  split.
  - intros Hc Hr. rewrite Hc in H. destruct H as [-> _].
    now apply to_uint32_small.
  - intros r Hc Ht Hr. rewrite Hc, Ht in H. destruct H as (_ & _ & ->).
    now apply to_int32_small.
Qed.

End ClassifierProperties.

(** C3 on [REP MOVS [EDI], [ESI]]: the mode is RepZ by the second rule and
    the opcode of MOVS is recorded. *)
Lemma DecodeMemoryAccess_mode_witness :
  DecodeMemoryAccess (D := sample_decoder) rep_movs initial_info
  = Some (Operand_base_displ kRegisterEdi
            (Displacement_value (D := sample_decoder) 3),
          {| mode := kRepzAccess; size := 4; opcode := 295;
             save_flags := true |})
  /\ exists chosen,
       choose_mem_op_id (representation rep_movs) = Some chosen
       /\ @mode_rule sample_decoder rep_movs chosen kRepzAccess
       /\ (forall m, @mode_rule sample_decoder rep_movs chosen m
                     -> m = kRepzAccess)
       /\ opcode {| mode := kRepzAccess; size := 4; opcode := 295;
                    save_flags := true |}
          = instr_opcode rep_movs.
Proof.
  split; [reflexivity|].
  exact (DecodeMemoryAccess_mode (D := sample_decoder) rep_movs initial_info
           {| mode := kRepzAccess; size := 4; opcode := 295;
              save_flags := true |}
           (Operand_base_displ kRegisterEdi
              (Displacement_value (D := sample_decoder) 3))
           eq_refl).
Defined.

(** C2 fails as stated on [JMP [EAX*4 + table]]: the displacement carries a
    reference to basic block 7 and the access is 4 bytes wide, yet the
    offset of the displacement built is 0, not 0 + 3. *)
Lemma ComputeDisplacementForOperand_basic_block_counterexample :
  ~ adjustment_added_to_reference (D := sample_decoder) jmp_table 0.
Proof.
  intros H.
  specialize (H {| referred_type := REFERRED_TYPE_BASIC_BLOCK;
                   referred := 7%nat; offset := 0 |} eq_refl).
  cbv in H. destruct H as (_ & _ & H). discriminate H.
Qed.

(** Scenario 4 of the design document: for [MOV [EBP-8], EAX] the probe
    address is [EBP-5]. *)
Example displacement_ebp_m8 :
  value_ (ComputeDisplacementForOperand (D := sample_decoder)
            mov_ebp_m8_eax 0)
  = to_uint32 (-5).
Proof. reflexivity. Qed.

(** A block reference keeps its block and moves its offset. *)
Example displacement_global :
  reference_ (ComputeDisplacementForOperand (D := sample_decoder)
                mov_eax_global 1)
  = {| referred_type := REFERRED_TYPE_BLOCK; referred := 3%nat;
       offset := 11 |}.
Proof. reflexivity. Qed.

(** ** Probe names and the probe table *)

Section ProbeProperties.
Context {D : Decoder}.

(** C5. For every access descriptor whose mode is not None and every image
    format, the probe name is the lower-case string made of the prefix
    ("_" for COFF, empty for PE), "asan_check", the repeat part ("_repz",
    "_repnz" or nothing), "_", the size in decimal, "_byte_", the operation
    ("read", "write" or the mnemonic in lower case), "_access" and "_no_flags"
    when the flags are not saved. *)
Theorem GetAsanCheckAccessFunctionName_format (info : MemoryAccessInfo)
    (image_format : ImageFormat) :
  mode info <> kNoAccess ->
  GetAsanCheckAccessFunctionName info image_format
  = spec_probe_name info image_format
  /\ ToLowerASCII (GetAsanCheckAccessFunctionName info image_format)
     = GetAsanCheckAccessFunctionName info image_format.
Proof.
  intros Hmode. split.
  - unfold GetAsanCheckAccessFunctionName, spec_probe_name.
    rewrite !ToLowerASCII_app, ToLowerASCII_printf_d, printf_d_decimal.
    destruct image_format, (mode info), (save_flags info);
      try congruence; cbn [ToLowerASCII]; rewrite ?ToLowerASCII_idem;
      reflexivity.
  - unfold GetAsanCheckAccessFunctionName. apply ToLowerASCII_idem.
Qed.

(** Enough fuel for a doubling loop from 1. *)
Lemma for_doubling_32 {X : Type} (fuel : nat) (body : Z -> X -> X) (acc : X) :
  (6 <= fuel)%nat ->
  for_doubling fuel 32 body 1 acc
  = Some (body 32 (body 16 (body 8 (body 4 (body 2 (body 1 acc)))))).
Proof.
  intros H.
  do 6 (destruct fuel as [|fuel]; [lia|]). destruct fuel; reflexivity.
Qed.

Lemma for_doubling_4 {X : Type} (fuel : nat) (body : Z -> X -> X) (acc : X) :
  (3 <= fuel)%nat ->
  for_doubling fuel 4 body 1 acc = Some (body 4 (body 2 (body 1 acc))).
Proof.
  intros H.
  do 3 (destruct fuel as [|fuel]; [lia|]). destruct fuel; reflexivity.
Qed.

(** The vector the two loops build, written out. *)
Lemma access_hook_param_vec_value (fuel : nat) (use_liveness_analysis : bool) :
  (6 <= fuel)%nat ->
  access_hook_param_vec fuel use_liveness_analysis
  = Some (load_store_part use_liveness_analysis [1; 2; 4; 8; 16; 32; 10]
          ++ string_part [1; 2; 4]).
Proof.
  intros H. unfold access_hook_param_vec.
  rewrite for_doubling_32 by exact H.
  destruct use_liveness_analysis; cbn -[for_doubling strings];
    (rewrite for_doubling_4 by lia); reflexivity.
Qed.

Lemma In_load_store_part (ul : bool) (sizes : list Z) (x : MemoryAccessInfo) :
  In x (load_store_part ul sizes)
  <-> In (size x) sizes
      /\ (mode x = kReadAccess \/ mode x = kWriteAccess)
      /\ opcode x = 0
      /\ (save_flags x = true \/ (save_flags x = false /\ ul = true)).
Proof.
  unfold load_store_part. rewrite in_flat_map. split.
  - intros (sz & Hsz & Hx).
    destruct ul; simpl in Hx;
      repeat (destruct Hx as [Hx|Hx]; [subst x; cbn; tauto|]);
      destruct Hx.
  - intros (Hsz & Hm & Ho & Hs). exists (size x). split; [exact Hsz|].
    destruct x as [m sz o sf]; cbn in *. subst o.
    destruct Hm as [Hm|Hm]; subst m;
      destruct Hs as [Hs|[Hs Hul]]; subst; cbn; auto;
      destruct ul; cbn; auto.
Qed.

Lemma In_string_part (sizes : list Z) (x : MemoryAccessInfo) :
  In x (string_part sizes)
  <-> In (size x) sizes
      /\ In (opcode x) strings
      /\ (mode x = kRepzAccess \/ mode x = kInstrAccess)
      /\ save_flags x = true.
Proof.
  unfold string_part. rewrite in_flat_map. split.
  - intros (sz & Hsz & Hx). apply in_flat_map in Hx.
    destruct Hx as (opc & Hopc & Hx).
    destruct Hx as [Hx|[Hx|[]]]; subst x; cbn; tauto.
  - intros (Hsz & Ho & Hm & Hs). exists (size x). split; [exact Hsz|].
    apply in_flat_map. exists (opcode x). split; [exact Ho|].
    destruct x as [m sz o sf]; cbn in *. subst sf.
    destruct Hm; subst m; cbn; auto.
Qed.

Lemma NoDup_load_store_part (ul : bool) (sizes : list Z) :
  NoDup sizes -> NoDup (load_store_part ul sizes).
Proof.
  induction 1 as [|sz sizes Hnotin Hnd IH]; [constructor|].
  change (load_store_part ul (sz :: sizes))
    with ((if ul then
             [load_store kReadAccess sz true; load_store kReadAccess sz false;
              load_store kWriteAccess sz true;
              load_store kWriteAccess sz false]
           else
             [load_store kReadAccess sz true; load_store kWriteAccess sz true])
          ++ load_store_part ul sizes).
  assert (Hfresh : forall m sf,
             ~ In (load_store m sz sf) (load_store_part ul sizes)).
  { intros m sf Hin. apply In_load_store_part in Hin. cbn in Hin. tauto. }
  destruct ul; cbn [app];
    repeat (constructor;
            [cbn [In]; intros Hin;
             repeat (destruct Hin as [Hin|Hin]; [discriminate Hin|]);
             exact (Hfresh _ _ Hin)|]);
    exact IH.
Qed.

Lemma NoDup_string_codes (sz : Z) (codes : list Z) :
  NoDup codes ->
  NoDup (flat_map (fun opc => [string_probe kRepzAccess sz opc;
                               string_probe kInstrAccess sz opc]) codes).
Proof.
  induction 1 as [|c codes Hnotin Hnd IH]; [constructor|].
  cbn [flat_map app].
  assert (Hfresh : forall m,
             ~ In (string_probe m sz c)
                  (flat_map (fun opc => [string_probe kRepzAccess sz opc;
                                         string_probe kInstrAccess sz opc])
                            codes)).
  { intros m Hin. apply in_flat_map in Hin.
    destruct Hin as (o & Ho & [Hin|[Hin|[]]]); inversion Hin; subst;
      contradiction. }
  constructor; [|constructor; [|exact IH]].
  - cbn [In]. intros [Hin|Hin]; [discriminate Hin | exact (Hfresh _ Hin)].
  - apply Hfresh.
Qed.

Lemma NoDup_string_part (sizes : list Z) :
  NoDup strings -> NoDup sizes -> NoDup (string_part sizes).
Proof.
  intros Hcodes. induction 1 as [|sz sizes Hnotin Hnd IH]; [constructor|].
  change (string_part (sz :: sizes))
    with (flat_map (fun opc => [string_probe kRepzAccess sz opc;
                                string_probe kInstrAccess sz opc]) strings
          ++ string_part sizes).
  apply NoDup_app; [now apply NoDup_string_codes | exact IH |].
  intros x Hx Hin. apply In_string_part in Hin.
  apply in_flat_map in Hx. destruct Hx as (o & _ & [Hx|[Hx|[]]]);
    subst x; cbn in Hin; tauto.
Qed.

(** C6. The probe variants enumerated for import are exactly: for each size
    among 1, 2, 4, 8, 16, 32 and for size 10, a Read and a Write entry that
    save the flags and, when the liveness analysis is on, a second of each
    that does not; and for each size among 1, 2, 4 and each opcode among
    CMPS, LODS, MOVS, STOS, a RepZ and an Instr entry that save the flags.
    The loops terminate on any fuel of six or more, and, the four mnemonic
    codes being distinct, no variant is listed twice. *)
Theorem access_hook_param_vec_exact (fuel : nat)
    (use_liveness_analysis : bool) :
  (6 <= fuel)%nat ->
  exists vec,
    access_hook_param_vec fuel use_liveness_analysis = Some vec
    /\ (forall x, In x vec <-> spec_variant use_liveness_analysis x)
    /\ (NoDup [I_CMPS; I_LODS; I_MOVS; I_STOS] -> NoDup vec).
Proof.
  intros Hfuel. eexists. split; [now apply access_hook_param_vec_value|].
  split.
  - intros x. rewrite in_app_iff, In_load_store_part, In_string_part.
    unfold spec_variant, strings. tauto.
  - intros Hcodes. apply NoDup_app.
    + apply NoDup_load_store_part.
      repeat (constructor; [cbn; intuition lia|]). constructor.
    + apply NoDup_string_part; [exact Hcodes|].
      repeat (constructor; [cbn; intuition lia|]). constructor.
    + intros x Hx Hin. apply In_load_store_part in Hx.
      apply In_string_part in Hin.
      destruct Hx as (_ & [Hm|Hm] & _); destruct Hin as (_ & _ & [Hm'|Hm'] & _);
        congruence.
Qed.

(** The vector the pass imports. *)
Lemma hook_params_value (use_liveness_analysis : bool) :
  hook_params use_liveness_analysis
  = load_store_part use_liveness_analysis [1; 2; 4; 8; 16; 32; 10]
    ++ string_part [1; 2; 4].
Proof.
  unfold hook_params. rewrite access_hook_param_vec_value by lia.
  reflexivity.
Qed.

End ProbeProperties.

(** C5 on a 32-byte write that does not save the flags, on a 10-byte read,
    and on scenario 2 of the design document for a COFF image. *)
Lemma GetAsanCheckAccessFunctionName_format_witness :
  GetAsanCheckAccessFunctionName (D := sample_decoder)
    (load_store kWriteAccess 32 false) PE_IMAGE
  = "asan_check_32_byte_write_access_no_flags"%string
  /\ GetAsanCheckAccessFunctionName (D := sample_decoder)
       (load_store kReadAccess 10 true) PE_IMAGE
     = "asan_check_10_byte_read_access"%string
  /\ GetAsanCheckAccessFunctionName (D := sample_decoder)
       (string_probe kRepzAccess 4 295) COFF_IMAGE
     = "_asan_check_repz_4_byte_movs_access"%string.
Proof.
  split; [|split].
  - exact (proj1 (GetAsanCheckAccessFunctionName_format (D := sample_decoder)
                    (load_store kWriteAccess 32 false) PE_IMAGE
                    ltac:(discriminate))).
  - exact (proj1 (GetAsanCheckAccessFunctionName_format (D := sample_decoder)
                    (load_store kReadAccess 10 true) PE_IMAGE
                    ltac:(discriminate))).
  - exact (proj1 (GetAsanCheckAccessFunctionName_format (D := sample_decoder)
                    (string_probe kRepzAccess 4 295) COFF_IMAGE
                    ltac:(discriminate))).
Defined.

(** C6 with the fuel the pass uses and the liveness analysis on: 28
    load/store variants and 24 string variants. *)
Lemma access_hook_param_vec_exact_witness :
  exists vec,
    access_hook_param_vec (D := sample_decoder) 32 true = Some vec
    /\ (forall x, In x vec <-> spec_variant (D := sample_decoder) true x)
    /\ (NoDup [301; 313; 295; 307] -> NoDup vec).
Proof.
  exact (access_hook_param_vec_exact (D := sample_decoder) 32 true
           ltac:(lia)).
Defined.

(** The names of scenarios 1 and 6. *)
Example probe_name_scenarios :
  GetAsanCheckAccessFunctionName (D := sample_decoder)
    (load_store kReadAccess 4 false) PE_IMAGE
  = "asan_check_4_byte_read_access_no_flags"%string
  /\ GetAsanCheckAccessFunctionName (D := sample_decoder)
       (load_store kReadAccess 4 false) COFF_IMAGE
     = "_asan_check_4_byte_read_access_no_flags"%string.
Proof. split; reflexivity. Qed.

(** The names of the load probes, one for each size of the enumeration, and
    of the string probes of MOVS. *)
Example probe_names_by_size :
  map (fun sz => GetAsanCheckAccessFunctionName (D := sample_decoder)
                   (load_store kReadAccess sz true) PE_IMAGE)
      [1; 2; 4; 8; 16; 32; 10]
  = ["asan_check_1_byte_read_access"; "asan_check_2_byte_read_access";
     "asan_check_4_byte_read_access"; "asan_check_8_byte_read_access";
     "asan_check_16_byte_read_access"; "asan_check_32_byte_read_access";
     "asan_check_10_byte_read_access"]%string
  /\ map (fun sz => GetAsanCheckAccessFunctionName (D := sample_decoder)
                      (string_probe kInstrAccess sz 295) COFF_IMAGE)
         [1; 2; 4]
     = ["_asan_check_1_byte_movs_access"; "_asan_check_2_byte_movs_access";
        "_asan_check_4_byte_movs_access"]%string.
Proof. split; reflexivity. Qed.

(** No RepNZ variant is enumerated. *)
Lemma no_repnz_variant {D : Decoder} (ul : bool) (x : MemoryAccessInfo) :
  spec_variant ul x -> mode x <> kRepnzAccess.
Proof.
  unfold spec_variant. intros [(_ & [H|H] & _)|(_ & _ & [H|H] & _)];
    congruence.
Qed.

(** ** The basic-block instrumenter *)

Section InstrumenterProperties.
Context {D : Decoder} {A : Analyses}.

(** What the assembler holds after [InjectAsanHook]. *)
Lemma InjectAsanHook_inserted {State : Type} (bb_asm : BasicBlockAssembler)
    (info : MemoryAccessInfo) (op : Operand) (hook : Reference)
    (st : State) (image_format : ImageFormat) :
  map emitted_instr
      (asm_inserted (InjectAsanHook bb_asm info op hook st image_format))
  = map emitted_instr (asm_inserted bb_asm)
    ++ (if is_load_store_mode (mode info)
        then [asm_push kRegisterEdx; asm_lea kRegisterEdx op] else [])
    ++ [probe_call image_format hook].
Proof.
  unfold InjectAsanHook, probe_call.
  destruct (mode info), image_format; cbn;
    rewrite ?map_app, <- ?app_assoc; reflexivity.
Qed.

Lemma assembler_at_empty (T : AsanBasicBlockTransform) (instr : Instruction) :
  asm_inserted (assembler_at T instr) = [].
Proof. unfold assembler_at. destruct (debug_friendly_ T); reflexivity. Qed.

Lemma MemoryAccessMode_eqb_eq (a b : MemoryAccessMode) :
  MemoryAccessMode_eqb a b = true <-> a = b.
Proof. destruct a, b; cbn; split; congruence. Qed.

Lemma is_stack_register_true (r : RegisterId) :
  is_stack_register r = true <-> r = kRegisterEsp \/ r = kRegisterEbp.
Proof.
  destruct r; cbn; split; intros H; try discriminate; auto;
    destruct H; discriminate.
Qed.

(** An access that passes every test of the loop. *)
Lemma skips_access_false (T : AsanBasicBlockTransform)
    (stack_mode : StackAccessMode) (instr : Instruction) (operand : Operand)
    (info : MemoryAccessInfo) :
  skips_access T stack_mode instr operand info = false ->
  mode info <> kNoAccess
  /\ referred_type (reference_ (displacement_ operand))
     = REFERRED_TYPE_UNKNOWN
  /\ ShouldInstrumentOpcode (DInst.opcode (representation instr)) = true
  /\ (stack_mode = kSafeStackAccess
      -> is_stack_register (base_ operand) = false)
  /\ SEGMENT_GET (DInst.segment (representation instr)) <> R_FS
  /\ SEGMENT_GET (DInst.segment (representation instr)) <> R_GS
  /\ IsFiltered T instr = false.
Proof.
  unfold skips_access.
  destruct (MemoryAccessMode_eqb (mode info) kNoAccess) eqn:Em;
    [discriminate|].
  destruct (referred_type (reference_ (displacement_ operand))) eqn:Er;
    cbn; try discriminate.
  destruct (ShouldInstrumentOpcode _) eqn:Eo; cbn; [|discriminate].
  destruct (match stack_mode with
            | kSafeStackAccess => is_stack_register (base_ operand)
            | kUnsafeStackAccess => false
            end) eqn:Es; [discriminate|].
  destruct (SEGMENT_GET _ =? R_FS) eqn:Ef; cbn; [discriminate|].
  destruct (SEGMENT_GET _ =? R_GS) eqn:Eg; cbn; [discriminate|].
  destruct (IsFiltered T instr) eqn:Ei; [discriminate|].
  intros _. apply Z.eqb_neq in Ef, Eg.
  repeat split; auto.
  - intros H. apply MemoryAccessMode_eqb_eq in H. congruence.
  - intros ->. exact Es.
Qed.

(** The outcome of an iteration, case by case. *)
Lemma instrument_instruction_cases (T : AsanBasicBlockTransform)
    (stack_mode : StackAccessMode) (image_format : ImageFormat)
    (instr : Instruction) (ls : LoopState) :
  let st := fst (current_liveness T ls) in
  match snd (instrument_instruction T stack_mode image_format instr ls) with
  | Skipped =>
      happened (fst (instrument_instruction T stack_mode image_format
                                            instr ls))
      = happened ls
  | Instrumented info operand code =>
      exists info0,
        DecodeMemoryAccess instr initial_info = Some (operand, info0)
        /\ skips_access T stack_mode instr operand info0 = false
        /\ info = select_probe T info0 st
        /\ (if dry_run_ T then code = []
            else exists hook,
                map_find (check_access_hooks_ T) info = Some hook
                /\ code
                   = asm_inserted
                       (InjectAsanHook (assembler_at T instr) info operand
                                       hook st image_format))
  | ReturnedFalse info =>
      exists operand info0,
        DecodeMemoryAccess instr initial_info = Some (operand, info0)
        /\ skips_access T stack_mode instr operand info0 = false
        /\ info = select_probe T info0 st
        /\ dry_run_ T = false
        /\ map_find (check_access_hooks_ T) info = None
  end.
Proof.
  unfold instrument_instruction.
  destruct (current_liveness T ls) as [state1 iter1]. cbn [fst].
  destruct (redundancy_check T instr ls (log EvVisitInstruction (env ls)))
    as [[need memory1] env1].
  destruct need; cbn [negb]; [|reflexivity].
  destruct (DecodeMemoryAccess instr initial_info) as [[operand info0]|]
    eqn:Hd; [|reflexivity].
  destruct (skips_access T stack_mode instr operand info0) eqn:Hs;
    [reflexivity|].
  destruct (sampling T env1) as [sampled_out env2].
  destruct sampled_out; [reflexivity|].
  destruct (dry_run_ T) eqn:Hdry; cbn [snd fst].
  - exists info0. rewrite assembler_at_empty. auto.
  - destruct (map_find (check_access_hooks_ T)
                       (select_probe T info0 state1)) as [hook|] eqn:Hf;
      cbn [snd fst].
    + exists info0. repeat split; auto. exists hook. auto.
    + exists operand, info0. auto.
Qed.

Lemma select_probe_mode (T : AsanBasicBlockTransform)
    (info : MemoryAccessInfo) (st : LivenessState) :
  mode (select_probe T info st) = mode info.
Proof.
  unfold select_probe.
  destruct (use_liveness_analysis_ T && is_load_store_mode (mode info));
    reflexivity.
Qed.

(** C1. For a probe call emitted for an access of mode Read or Write, the
    instructions inserted are [push EDX], then [lea EDX, operand] with the
    operand the classifier gave for the access, then the call; for mode
    Instr, RepZ or RepNZ only the call is inserted, with no push and no
    lea. *)
Theorem InjectAsanHook_call_sequence (T : AsanBasicBlockTransform)
    (stack_mode : StackAccessMode) (image_format : ImageFormat)
    (instr : Instruction) (ls ls' : LoopState) (info : MemoryAccessInfo)
    (operand : Operand) (code : list Emitted) :
  dry_run_ T = false ->
  instrument_instruction T stack_mode image_format instr ls
  = (ls', Instrumented info operand code) ->
  exists info0 hook,
    DecodeMemoryAccess instr initial_info = Some (operand, info0)
    /\ mode info = mode info0
    /\ map_find (check_access_hooks_ T) info = Some hook
    /\ match mode info with
       | kReadAccess | kWriteAccess =>
           map emitted_instr code
           = [asm_push kRegisterEdx; asm_lea kRegisterEdx operand;
              probe_call image_format hook]
       | kInstrAccess | kRepzAccess | kRepnzAccess =>
           map emitted_instr code = [probe_call image_format hook]
       | kNoAccess => False
       end.
Proof.
  intros Hdry Hrun.
  pose proof (instrument_instruction_cases T stack_mode image_format instr ls)
    as H.
  rewrite Hrun in H. cbn [snd fst] in H.
  destruct H as (info0 & Hd & Hs & Hi & Hc).
  rewrite Hdry in Hc. destruct Hc as (hook & Hf & Hcode).
  exists info0, hook.
  assert (Hm : mode info = mode info0)
    by (rewrite Hi; apply select_probe_mode).
  repeat split; auto.
  apply skips_access_false in Hs. destruct Hs as (Hnone & _).
  rewrite <- Hm in Hnone.
  rewrite Hcode, InjectAsanHook_inserted, assembler_at_empty.
  destruct (mode info); cbn; congruence.
Qed.

(** An exempt access ends the iteration with [continue]. *)
Lemma exempt_skipped (T : AsanBasicBlockTransform)
    (stack_mode : StackAccessMode) (image_format : ImageFormat)
    (instr : Instruction) (ls : LoopState) :
  exempt stack_mode instr ->
  snd (instrument_instruction T stack_mode image_format instr ls) = Skipped.
Proof.
  intros Hex.
  pose proof (instrument_instruction_cases T stack_mode image_format instr ls)
    as H.
  destruct (snd (instrument_instruction T stack_mode image_format instr ls))
    as [|info operand code|info]; [reflexivity| |]; exfalso.
  - destruct H as (info0 & Hd & Hs & _).
    apply skips_access_false in Hs.
    destruct Hs as (_ & _ & Ho & Hst & Hfs & Hgs & _).
    destruct Hex as [Hex|[Hex|[Hex|(Hsafe & op' & i' & Hd' & Hb)]]];
      try contradiction.
    + apply ShouldInstrumentOpcode_false_In in Hex. congruence.
    + rewrite Hd in Hd'. inversion Hd'; subst.
      apply is_stack_register_true in Hb. rewrite (Hst eq_refl) in Hb.
      discriminate.
  - destruct H as (operand & info0 & Hd & Hs & _).
    apply skips_access_false in Hs.
    destruct Hs as (_ & _ & Ho & Hst & Hfs & Hgs & _).
    destruct Hex as [Hex|[Hex|[Hex|(Hsafe & op' & i' & Hd' & Hb)]]];
      try contradiction.
    + apply ShouldInstrumentOpcode_false_In in Hex. congruence.
    + rewrite Hd in Hd'. inversion Hd'; subst.
      apply is_stack_register_true in Hb. rewrite (Hst eq_refl) in Hb.
      discriminate.
Qed.

Lemma In_untouched (instrs : list Instruction) (s : Slot) :
  In s (untouched instrs) -> inserted s = [].
Proof.
  unfold untouched. rewrite in_map_iff. intros (i & <- & _). reflexivity.
Qed.

(** In the loop, nothing is inserted before an exempt instruction, and a
    block of exempt instructions leaves the flag as it was. *)
Lemma instrument_loop_exempt (T : AsanBasicBlockTransform)
    (stack_mode : StackAccessMode) (image_format : ImageFormat)
    (instrs : list Instruction) :
  forall (ls : LoopState) ok out ls',
    instrument_loop T stack_mode image_format instrs ls = (ok, out, ls') ->
    (forall s, In s out -> exempt stack_mode (original s) -> inserted s = [])
    /\ (Forall (exempt stack_mode) instrs ->
        ok = true /\ happened ls' = happened ls).
Proof.
  induction instrs as [|instr rest IH]; intros ls ok out ls' Hrun.
  - cbn in Hrun. inversion Hrun; subst. split; [intros s []|auto].
  - cbn [instrument_loop] in Hrun.
    pose proof (exempt_skipped T stack_mode image_format instr ls) as Hex.
    pose proof (instrument_instruction_cases T stack_mode image_format
                  instr ls) as Hcase.
    destruct (instrument_instruction T stack_mode image_format instr ls)
      as [ls1 o]. cbn [snd fst] in Hex, Hcase.
    destruct o as [|info operand code|info].
    + destruct (instrument_loop T stack_mode image_format rest ls1)
        as [[ok1 out1] ls2] eqn:Hrest.
      inversion Hrun; subst. destruct (IH _ _ _ _ Hrest) as [IH1 IH2].
      split.
      * intros s [<-|Hin]; [reflexivity | now apply IH1].
      * intros Hall. inversion Hall; subst.
        destruct (IH2 H2) as [-> ->]. auto.
    + destruct (instrument_loop T stack_mode image_format rest ls1)
        as [[ok1 out1] ls2] eqn:Hrest.
      inversion Hrun; subst. destruct (IH _ _ _ _ Hrest) as [IH1 IH2].
      split.
      * intros s [<-|Hin]; [|now apply IH1].
        cbn. intros He. specialize (Hex He). discriminate.
      * intros Hall. inversion Hall; subst.
        specialize (Hex H1). discriminate.
    + inversion Hrun; subst. split.
      * intros s Hin _. apply (In_untouched (instr :: rest)). exact Hin.
      * intros Hall. inversion Hall; subst.
        specialize (Hex H1). discriminate.
Qed.

(** C4. In the block [InstrumentBasicBlock] returns, nothing is inserted
    before an access through FS or GS, a LEA, a CLFLUSH, a PREFETCH of any
    kind or, when the stack mode is SafeStack, an access whose base register
    is ESP or EBP; and a block made only of such instructions is left
    uninstrumented: the call succeeds and the instrumentation flag keeps its
    value. *)
Theorem InstrumentBasicBlock_exempt (T T' : AsanBasicBlockTransform)
    (basic_block : BasicCodeBlock) (stack_mode : StackAccessMode)
    (image_format : ImageFormat) (env0 env1 : Env) (ok : bool)
    (slots : list Slot) :
  InstrumentBasicBlock T basic_block stack_mode image_format env0
  = (ok, slots, T', env1) ->
  (forall s, In s slots -> exempt stack_mode (original s) -> inserted s = [])
  /\ (Forall (exempt stack_mode) (instructions basic_block) ->
      ok = true
      /\ instrumentation_happened_ T' = instrumentation_happened_ T).
Proof.
  unfold InstrumentBasicBlock.
  destruct (SFeqb (instrumentation_rate_ T) double_0).
  { intros H. inversion H; subst. split; [|auto].
    intros s Hin _. eapply In_untouched. exact Hin. }
  destruct (if use_liveness_analysis_ T
            then precompute_states (instructions basic_block)
                   (Liveness_GetStateAtExitOf (liveness_ T) basic_block)
                   (log EvGetStateAtExitOf env0)
            else ([], LivenessState_default, env0)) as [[states st0] e1].
  destruct (if remove_redundant_checks_ T
            then (Memory_GetStateAtEntryOf (memory_accesses_ T) basic_block,
                  log EvGetStateAtEntryOf e1)
            else (MemoryState_default, e1)) as [m0 e2].
  destruct (instrument_loop T stack_mode image_format
              (instructions basic_block) _) as [[ok1 out1] ls1] eqn:Hloop.
  intros H. inversion H; subst.
  destruct (instrument_loop_exempt _ _ _ _ _ _ _ _ Hloop) as [H1 H2].
  split; [exact H1|].
  intros Hall. destruct (H2 Hall) as [-> Hh]. cbn in *. auto.
Qed.

(** C10. For every instrumented access of mode Instr, RepZ or RepNZ the
    probe variant selected saves the flags: the descriptor starts every
    iteration with [save_flags] true, the classifier does not touch the
    field, and the liveness analysis lowers it only for Read and Write
    accesses, when it is on and finds the flags dead. *)
Theorem string_probe_saves_flags (T : AsanBasicBlockTransform)
    (stack_mode : StackAccessMode) (image_format : ImageFormat)
    (instr : Instruction) (ls : LoopState) (info : MemoryAccessInfo) :
  selected_probe
    (snd (instrument_instruction T stack_mode image_format instr ls))
  = Some info ->
  save_flags initial_info = true
  /\ (is_string_mode (mode info) = true -> save_flags info = true)
  /\ (save_flags info = false ->
      is_load_store_mode (mode info) = true
      /\ use_liveness_analysis_ T = true
      /\ AreArithmeticFlagsLive (fst (current_liveness T ls)) = false).
Proof.
  intros Hsel.
  pose proof (instrument_instruction_cases T stack_mode image_format instr ls)
    as H.
  assert (Hfrom : exists operand info0,
             DecodeMemoryAccess instr initial_info = Some (operand, info0)
             /\ info = select_probe T info0 (fst (current_liveness T ls))).
  { destruct (snd (instrument_instruction T stack_mode image_format
                                          instr ls))
      as [|i o c|i]; cbn in Hsel; inversion Hsel; subst.
    - destruct H as (info0 & Hd & _ & Hi & _). eauto.
    - destruct H as (o & info0 & Hd & _ & Hi & _). eauto. }
  destruct Hfrom as (operand & info0 & Hd & ->).
  apply DecodeMemoryAccess_fields in Hd.
  destruct Hd as (_ & _ & _ & _ & _ & _ & _ & Hsf). cbn in Hsf.
  split; [reflexivity|].
  unfold select_probe.
  destruct (use_liveness_analysis_ T) eqn:Hul; cbn [andb].
  - destruct (is_load_store_mode (mode info0)) eqn:Hls; cbn.
    + split.
      * destruct (mode info0); cbn in *; congruence.
      * intros Hf. auto.
    + rewrite Hls. split; [auto | congruence].
  - split; [auto | congruence].
Qed.

End InstrumenterProperties.

(** ** Rate and short circuit *)

Lemma SFltb_SFleb (a b : spec_float) : SFltb a b = true -> SFleb a b = true.
Proof.
  unfold SFltb, SFleb. destruct (SFcompare a b) as [[]|]; congruence.
Qed.

Lemma SFcompare_antisym (a b : spec_float) :
  SFcompare b a = option_map CompOpp (SFcompare a b).
Proof.
  destruct a as [sa|sa| |sa ma ea], b as [sb|sb| |sb mb eb]; cbn;
    try reflexivity;
    try (destruct sa; reflexivity); try (destruct sb; reflexivity);
    try (destruct sa, sb; reflexivity).
  destruct sa, sb; cbn; try reflexivity;
    rewrite (Z.compare_antisym ea eb); destruct (ea ?= eb); cbn;
    try reflexivity;
    rewrite (Pos.compare_cont_antisym ma mb Eq); reflexivity.
Qed.

Lemma SFeqb_sym (a b : spec_float) : SFeqb a b = true -> SFeqb b a = true.
Proof.
  unfold SFeqb. rewrite (SFcompare_antisym a b).
  destruct (SFcompare a b) as [[]|]; cbn; congruence.
Qed.

Lemma SFcompare_refl (a : spec_float) :
  a <> S754_nan -> SFcompare a a = Some Eq.
Proof.
  destruct a as [s|s| |s m e]; cbn; intros H; try congruence;
    try (destruct s; reflexivity).
  destruct s; rewrite Z.compare_refl, Pos.compare_cont_refl; reflexivity.
Qed.

Lemma SFltb_antisym (a b : spec_float) :
  SFltb a b = true -> SFltb b a = false.
Proof.
  unfold SFltb. rewrite (SFcompare_antisym a b).
  destruct (SFcompare a b) as [[]|]; cbn; congruence.
Qed.

Lemma SFltb_0_lt_1 (x : spec_float) :
  SFltb x double_0 = true -> SFltb x double_1 = true.
Proof.
  destruct x as [s|s| |s m e]; try destruct s; intros H;
    try reflexivity; discriminate H.
Qed.

Lemma clamp_range (rate : double) :
  SFleb double_0 (clamp rate) = true /\ SFleb (clamp rate) double_1 = true.
Proof.
  unfold clamp, std_max, std_min.
  destruct (SFltb rate double_1) eqn:H1.
  - destruct (SFltb double_0 rate) eqn:H0.
    + split; now apply SFltb_SFleb.
    + split; reflexivity.
  - split; reflexivity.
Qed.

Lemma clamp_below (rate : double) :
  SFltb rate double_0 = true -> clamp rate = double_0.
Proof.
  intros H. unfold clamp, std_max, std_min.
  rewrite (SFltb_0_lt_1 _ H), (SFltb_antisym _ _ H). reflexivity.
Qed.

Lemma clamp_above (rate : double) :
  SFltb double_1 rate = true -> clamp rate = double_1.
Proof.
  intros H. unfold clamp, std_max, std_min.
  rewrite (SFltb_antisym _ _ H). reflexivity.
Qed.

Lemma clamp_inside (rate : double) :
  SFleb double_0 rate = true -> SFleb rate double_1 = true ->
  SFeqb (clamp rate) rate = true.
Proof.
  intros H0 H1. unfold clamp, std_max, std_min.
  assert (Hnan : rate <> S754_nan) by (intros ->; discriminate H0).
  destruct (SFltb rate double_1) eqn:L1.
  - destruct (SFltb double_0 rate) eqn:L0.
    + unfold SFeqb. now rewrite SFcompare_refl.
    + unfold SFeqb, SFleb, SFltb in *.
      destruct (SFcompare double_0 rate) as [[]|]; congruence.
  - replace (SFltb double_0 double_1) with true by reflexivity.
    apply SFeqb_sym. unfold SFeqb, SFleb, SFltb in *.
    destruct (SFcompare rate double_1) as [[]|]; congruence.
Qed.

Section RateProperties.
Context {D : Decoder} {A : Analyses}.

(** C8. The rate given to [set_instrumentation_rate] is stored clamped to
    [0, 1]: the stored value lies in the interval, it is 0 for a rate below
    0, 1 for a rate above 1, and equal to the rate inside the interval.
    When the stored rate is 0, [InstrumentBasicBlock] returns true at once:
    the instructions are as they were, the transform object is unchanged,
    no analysis was asked anything, no instruction was visited and no random
    number was drawn. *)
Theorem rate_clamped_and_zero_short_circuits (T : AsanBasicBlockTransform)
    (rate : double) :
  let T1 := set_instrumentation_rate T rate in
  (SFleb double_0 (instrumentation_rate_ T1) = true
   /\ SFleb (instrumentation_rate_ T1) double_1 = true)
  /\ (SFltb rate double_0 = true -> instrumentation_rate_ T1 = double_0)
  /\ (SFltb double_1 rate = true -> instrumentation_rate_ T1 = double_1)
  /\ (SFleb double_0 rate = true -> SFleb rate double_1 = true ->
      SFeqb (instrumentation_rate_ T1) rate = true)
  /\ (forall (T0 : AsanBasicBlockTransform) basic_block stack_mode
             image_format env0,
         SFeqb (instrumentation_rate_ T0) double_0 = true ->
         InstrumentBasicBlock T0 basic_block stack_mode image_format env0
         = (true, untouched (instructions basic_block), T0, env0)).
Proof.
  cbv zeta. unfold set_instrumentation_rate. cbn [instrumentation_rate_].
  change (std_max double_0 (std_min double_1 rate)) with (clamp rate).
  split; [apply clamp_range|].
  split; [apply clamp_below|].
  split; [apply clamp_above|].
  split; [apply clamp_inside|].
  intros T0 bb sm fmt env0 H. unfold InstrumentBasicBlock. now rewrite H.
Qed.

(** At rate 0 the loop over the basic blocks touches nothing. *)
Lemma instrument_blocks_rate_zero (T : AsanBasicBlockTransform)
    (stack_mode : StackAccessMode) (image_format : ImageFormat)
    (bbs : list BasicBlock) (env0 : Env) :
  SFeqb (instrumentation_rate_ T) double_0 = true ->
  instrument_blocks T stack_mode image_format bbs env0
  = (true, map untouched_block bbs, T, env0).
Proof.
  intros H. induction bbs as [|b rest IH]; [reflexivity|].
  cbn [instrument_blocks]. destruct b as [bb|id]; cbn [BasicCodeBlock_Cast].
  - unfold InstrumentBasicBlock. rewrite H. cbn [negb]. rewrite IH.
    reflexivity.
  - rewrite IH. reflexivity.
Qed.

(** What still runs at rate 0: [TransformBasicBlockSubGraph] performs the
    analyses of the subgraph that are switched on and the stack frame
    inspection before it reaches the basic blocks. *)
Lemma TransformBasicBlockSubGraph_rate_zero (T : AsanBasicBlockTransform)
    (image_format : ImageFormat) (subgraph : BasicBlockSubGraph)
    (env0 : Env) :
  SFeqb (instrumentation_rate_ T) double_0 = true ->
  exists T',
    TransformBasicBlockSubGraph T image_format subgraph env0
    = (true, map untouched_block subgraph, T',
       {| rand_draws := rand_draws env0;
          events :=
            events env0
            ++ (if use_liveness_analysis_ T then [EvLivenessAnalyze] else [])
            ++ (if remove_redundant_checks_ T then [EvMemoryAnalyze] else [])
            ++ [EvStackFrameInspection] |})
    /\ instrumentation_happened_ T' = instrumentation_happened_ T.
Proof.
  intros H. unfold TransformBasicBlockSubGraph.
  destruct (use_liveness_analysis_ T), (remove_redundant_checks_ T);
    cbn -[instrument_blocks];
    rewrite instrument_blocks_rate_zero by exact H;
    eexists;
    (split;
     [ f_equal; unfold log; cbn [rand_draws events]; f_equal;
       rewrite <- ?app_assoc; reflexivity
     | reflexivity ]).
Qed.

End RateProperties.

(** ** The instrumenter on concrete code *)

(** C1 on scenario 1 of the design document: [MOV EAX, [EBX+4]] with the
    flags dead, in a PE image. *)
Lemma InjectAsanHook_call_sequence_witness :
  exists ls' info operand code,
    instrument_instruction (D := sample_decoder)
      (sample_transform false false true false) kUnsafeStackAccess PE_IMAGE
      mov_eax_ebx_4 (sample_loop_state false false)
    = (ls', Instrumented info operand code)
    /\ mode info = kReadAccess
    /\ save_flags info = false
    /\ value_ (displacement_ operand) = 7
    /\ exists info0 hook,
         DecodeMemoryAccess (D := sample_decoder) mov_eax_ebx_4 initial_info
         = Some (operand, info0)
         /\ mode info = mode info0
         /\ map_find (sample_hooks true) info = Some hook
         /\ map emitted_instr code
            = [asm_push kRegisterEdx; asm_lea kRegisterEdx operand;
               probe_call PE_IMAGE hook].
Proof.
  do 4 eexists. split; [reflexivity|].
  split; [reflexivity|]. split; [reflexivity|]. split; [reflexivity|].
  exact (InjectAsanHook_call_sequence (D := sample_decoder)
           (sample_transform false false true false) kUnsafeStackAccess
           PE_IMAGE mov_eax_ebx_4 (sample_loop_state false false)
           _ _ _ _ eq_refl eq_refl).
Defined.

(** Scenario 2: [REP MOVS] gets the call alone. *)
Example rep_movs_call_alone :
  exists ls' info operand hook,
    instrument_instruction (D := sample_decoder)
      (sample_transform false false true false) kUnsafeStackAccess PE_IMAGE
      rep_movs (sample_loop_state false false)
    = (ls', Instrumented info operand
              [{| emitted_instr := probe_call PE_IMAGE hook;
                  emitted_source_range := None |}])
    /\ GetAsanCheckAccessFunctionName (D := sample_decoder) info PE_IMAGE
       = "asan_check_repz_4_byte_movs_access"%string.
Proof. do 4 eexists. split; reflexivity. Qed.

(** No RepNZ probe is imported, so on [REPNZ SCAS] the lookup fails and the
    instrumenter returns false. *)
Example repnz_scas_unknown_probe :
  exists ls' info,
    instrument_instruction (D := sample_decoder)
      (sample_transform false false true false) kUnsafeStackAccess PE_IMAGE
      repnz_scas (sample_loop_state false false)
    = (ls', ReturnedFalse info)
    /\ mode info = kRepnzAccess.
Proof. do 2 eexists. split; reflexivity. Qed.

Lemma exempt_lea : exempt (D := sample_decoder) kUnsafeStackAccess
                          lea_eax_ebx_4.
Proof. right; right; left. cbn. auto. Qed.

Lemma exempt_fs : exempt (D := sample_decoder) kUnsafeStackAccess
                         mov_eax_fs_ebx_4.
Proof. left. reflexivity. Qed.

Lemma exempt_safe_stack : exempt (D := sample_decoder) kSafeStackAccess
                                 mov_ebp_m8_eax.
Proof.
  right; right; right. split; [reflexivity|].
  do 2 eexists. split; [reflexivity|]. right. reflexivity.
Qed.

(** C4 on a block of a plain load, a LEA, a load through FS and a store
    based on EBP, on a safe stack: the load alone is instrumented. *)
Lemma InstrumentBasicBlock_exempt_witness :
  exists ok slots T' env1,
    InstrumentBasicBlock (D := sample_decoder)
      (sample_transform true false false false)
      {| bb_id := 0%nat;
         instructions := [mov_eax_ebx_4; lea_eax_ebx_4; mov_eax_fs_ebx_4;
                          mov_ebp_m8_eax] |}
      kSafeStackAccess PE_IMAGE empty_env
    = (ok, slots, T', env1)
    /\ map (fun s => List.length (inserted s)) slots = [3; 0; 0; 0]%nat
    /\ (forall s, In s slots ->
                  exempt (D := sample_decoder) kSafeStackAccess (original s)
                  -> inserted s = []).
Proof.
  let r := eval vm_compute in
        (InstrumentBasicBlock (D := sample_decoder)
           (sample_transform true false false false)
           {| bb_id := 0%nat;
              instructions := [mov_eax_ebx_4; lea_eax_ebx_4;
                               mov_eax_fs_ebx_4; mov_ebp_m8_eax] |}
           kSafeStackAccess PE_IMAGE empty_env) in
  match r with
  | (?ok, ?slots, ?T', ?env1) => exists ok, slots, T', env1
  end.
  split; [vm_compute; reflexivity|]. split; [vm_compute; reflexivity|].
  refine (proj1 (InstrumentBasicBlock_exempt (D := sample_decoder)
                   (sample_transform true false false false) _
                   {| bb_id := 0%nat;
                      instructions := [mov_eax_ebx_4; lea_eax_ebx_4;
                                       mov_eax_fs_ebx_4; mov_ebp_m8_eax] |}
                   kSafeStackAccess PE_IMAGE empty_env _ _ _ _)).
  vm_compute. reflexivity.
Defined.

(** Scenario 4: on an unsafe stack the store based on EBP is instrumented;
    on a safe stack it is not. *)
Example ebp_store_by_stack_mode :
  (exists ls' info operand code,
      instrument_instruction (D := sample_decoder)
        (sample_transform true true false false) kUnsafeStackAccess PE_IMAGE
        mov_ebp_m8_eax (sample_loop_state true true)
      = (ls', Instrumented info operand code)
      /\ mode info = kWriteAccess /\ size info = 4
      /\ value_ (displacement_ operand) = to_uint32 (-5))
  /\ snd (instrument_instruction (D := sample_decoder)
            (sample_transform true false false false) kSafeStackAccess
            PE_IMAGE mov_ebp_m8_eax (sample_loop_state true false))
     = Skipped.
Proof. split; [do 4 eexists; repeat split; reflexivity | reflexivity]. Qed.

(** Scenario 5: a computed jump through a case table is left alone. *)
Example jmp_table_skipped :
  snd (instrument_instruction (D := sample_decoder)
         (sample_transform true true false false) kUnsafeStackAccess PE_IMAGE
         jmp_table (sample_loop_state true true))
  = Skipped.
Proof. reflexivity. Qed.

(** C10 on [REP MOVS] with the liveness analysis on and the flags dead: the
    probe selected saves the flags all the same. *)
Lemma string_probe_saves_flags_witness :
  exists info,
    selected_probe
      (snd (instrument_instruction (D := sample_decoder)
              (sample_transform false false true false) kUnsafeStackAccess
              PE_IMAGE rep_movs (sample_loop_state false false)))
    = Some info
    /\ mode info = kRepzAccess
    /\ save_flags info = true.
Proof.
  eexists. split; [reflexivity|]. split; [reflexivity|].
  exact (proj1 (proj2 (string_probe_saves_flags (D := sample_decoder)
                         (sample_transform false false true false)
                         kUnsafeStackAccess PE_IMAGE rep_movs
                         (sample_loop_state false false) _ eq_refl))
               eq_refl).
Defined.

(** C8 on the rates 2.0 and 0.0: the first is stored as 1.0, and with the
    second stored a block of one load is returned as it was, with no call
    made. *)
Lemma rate_clamped_and_zero_short_circuits_witness :
  instrumentation_rate_
    (set_instrumentation_rate (sample_transform true false true false)
                              (S754_finite false 4503599627370496 (-51)))
  = double_1
  /\ InstrumentBasicBlock (D := sample_decoder)
       (set_instrumentation_rate (sample_transform true false true false)
                                 double_0)
       {| bb_id := 0%nat; instructions := [mov_eax_ebx_4] |}
       kUnsafeStackAccess PE_IMAGE empty_env
     = (true, untouched [mov_eax_ebx_4],
        set_instrumentation_rate (sample_transform true false true false)
                                 double_0,
        empty_env).
Proof.
  split.
  - exact (proj1 (proj2 (proj2 (rate_clamped_and_zero_short_circuits
                                  (D := sample_decoder)
                                  (sample_transform true false true false)
                                  (S754_finite false 4503599627370496
                                               (-51)))))
                 eq_refl).
  - exact (proj2 (proj2 (proj2 (proj2
             (rate_clamped_and_zero_short_circuits
                (D := sample_decoder)
                (sample_transform true false true false) double_0))))
             (set_instrumentation_rate
                (sample_transform true false true false) double_0)
             {| bb_id := 0%nat; instructions := [mov_eax_ebx_4] |}
             kUnsafeStackAccess PE_IMAGE empty_env eq_refl).
Defined.

(** A NaN rate is stored as 1.0. *)
Example clamp_nan : clamp S754_nan = double_1.
Proof. reflexivity. Qed.

(** ** The pass driver *)

Section DryRunProperties.
Context {D : Decoder} {A : Analyses}.

(** In a dry run the loop never returns false and inserts nothing. *)
Lemma instrument_loop_dry_run (T : AsanBasicBlockTransform)
    (stack_mode : StackAccessMode) (image_format : ImageFormat)
    (instrs : list Instruction) :
  dry_run_ T = true ->
  forall ls, exists ls',
    instrument_loop T stack_mode image_format instrs ls
    = (true, untouched instrs, ls').
Proof.
  intros Hdry. induction instrs as [|instr rest IH]; intros ls.
  - eexists. reflexivity.
  - cbn [instrument_loop].
    pose proof (instrument_instruction_cases T stack_mode image_format
                  instr ls) as Hcase.
    destruct (instrument_instruction T stack_mode image_format instr ls)
      as [ls1 o]. cbn [snd fst] in Hcase.
    destruct (IH ls1) as [ls2 Hrest].
    destruct o as [|info operand code|info].
    + rewrite Hrest. eexists. reflexivity.
    + destruct Hcase as (info0 & _ & _ & _ & Hcode).
      rewrite Hdry in Hcode. subst code. rewrite Hrest.
      eexists. reflexivity.
    + destruct Hcase as (op & info0 & _ & _ & _ & Hd & _). congruence.
Qed.

Lemma InstrumentBasicBlock_dry_run (T : AsanBasicBlockTransform)
    (basic_block : BasicCodeBlock) (stack_mode : StackAccessMode)
    (image_format : ImageFormat) (env0 : Env) :
  dry_run_ T = true ->
  exists h env1,
    InstrumentBasicBlock T basic_block stack_mode image_format env0
    = (true, untouched (instructions basic_block),
       set_instrumentation_happened T h, env1).
Proof.
  intros Hdry. unfold InstrumentBasicBlock.
  destruct (SFeqb (instrumentation_rate_ T) double_0).
  { exists (instrumentation_happened_ T), env0. destruct T; reflexivity. }
  destruct (if use_liveness_analysis_ T
            then precompute_states (instructions basic_block)
                   (Liveness_GetStateAtExitOf (liveness_ T) basic_block)
                   (log EvGetStateAtExitOf env0)
            else ([], LivenessState_default, env0)) as [[states st0] e1].
  destruct (if remove_redundant_checks_ T
            then (Memory_GetStateAtEntryOf (memory_accesses_ T) basic_block,
                  log EvGetStateAtEntryOf e1)
            else (MemoryState_default, e1)) as [m0 e2].
  match goal with
  | |- context [instrument_loop T stack_mode image_format ?i ?l] =>
      destruct (instrument_loop_dry_run T stack_mode image_format i Hdry l)
        as [ls' Hloop]; rewrite Hloop
  end.
  eexists _, _. reflexivity.
Qed.

Lemma instrument_blocks_dry_run (stack_mode : StackAccessMode)
    (image_format : ImageFormat) (bbs : list BasicBlock) :
  forall (T : AsanBasicBlockTransform) (env0 : Env),
    dry_run_ T = true ->
    exists h env1,
      instrument_blocks T stack_mode image_format bbs env0
      = (true, map untouched_block bbs, set_instrumentation_happened T h,
         env1).
Proof.
  induction bbs as [|b rest IH]; intros T env0 Hdry.
  - exists (instrumentation_happened_ T), env0. destruct T; reflexivity.
  - cbn [instrument_blocks]. destruct b as [bb|id]; cbn [BasicCodeBlock_Cast].
    + destruct (InstrumentBasicBlock_dry_run T bb stack_mode image_format
                  env0 Hdry) as (h & env1 & ->). cbn [negb].
      destruct (IH (set_instrumentation_happened T h) env1 Hdry)
        as (h' & env2 & ->).
      exists h', env2. reflexivity.
    + destruct (IH T env0 Hdry) as (h' & env2 & ->).
      exists h', env2. reflexivity.
Qed.

(** The dry-run transform cannot fail and leaves the subgraph as it is. *)
Lemma TransformBasicBlockSubGraph_dry_run (T : AsanBasicBlockTransform)
    (image_format : ImageFormat) (subgraph : BasicBlockSubGraph)
    (env0 : Env) :
  dry_run_ T = true ->
  exists T' env1,
    TransformBasicBlockSubGraph T image_format subgraph env0
    = (true, map untouched_block subgraph, T', env1).
Proof.
  intros Hdry. unfold TransformBasicBlockSubGraph.
  destruct (if use_liveness_analysis_ T
            then (Liveness_Analyze (liveness_ T) subgraph,
                  log EvLivenessAnalyze env0)
            else (liveness_ T, env0)) as [l1 e1].
  destruct (if remove_redundant_checks_ T
            then (Memory_Analyze (memory_accesses_ T) subgraph,
                  log EvMemoryAnalyze e1)
            else (memory_accesses_ T, e1)) as [m1 e2].
  match goal with
  | |- context [instrument_blocks ?t ?s image_format subgraph ?e] =>
      destruct (instrument_blocks_dry_run s image_format subgraph t e Hdry)
        as (h & env1 & ->)
  end.
  eexists _, _. reflexivity.
Qed.

(** The loop over the basic blocks stops at the first basic block on which
    [InstrumentBasicBlock] returns false; what was inserted until then stays
    in the subgraph. *)
Lemma instrument_blocks_failure (stack_mode : StackAccessMode)
    (image_format : ImageFormat) (pre post : list BasicBlock)
    (bb : BasicCodeBlock) :
  forall (T T1 T2 : AsanBasicBlockTransform) (env0 env1 env2 : Env) out slots,
    instrument_blocks T stack_mode image_format pre env0
    = (true, out, T1, env1) ->
    InstrumentBasicBlock T1 bb stack_mode image_format env1
    = (false, slots, T2, env2) ->
    instrument_blocks T stack_mode image_format
                      (pre ++ CodeBasicBlock bb :: post) env0
    = (false,
       out ++ InstrumentedCode (bb_id bb) slots :: map untouched_block post,
       T2, env2).
Proof.
  induction pre as [|b rest IH]; intros T T1 T2 env0 env1 env2 out slots
                                        Hpre Hbb.
  - cbn in Hpre. inversion Hpre; subst.
    cbn [app instrument_blocks BasicCodeBlock_Cast]. rewrite Hbb. reflexivity.
  - cbn [app instrument_blocks] in *.
    destruct (BasicCodeBlock_Cast b) as [bb0|].
    + destruct (InstrumentBasicBlock T bb0 stack_mode image_format env0)
        as [[[ok0 slots0] T0] e0].
      destruct ok0; cbn [negb] in *; [|discriminate].
      destruct (instrument_blocks T0 stack_mode image_format rest e0)
        as [[[ok' out'] T'] e'] eqn:Hrest.
      inversion Hpre; subst.
      rewrite (IH _ _ _ _ _ _ _ _ Hrest Hbb). reflexivity.
    + destruct (instrument_blocks T stack_mode image_format rest env0)
        as [[[ok' out'] T'] e'] eqn:Hrest.
      inversion Hpre; subst.
      rewrite (IH _ _ _ _ _ _ _ _ Hrest Hbb). reflexivity.
Qed.

End DryRunProperties.

Section PassProperties.
Context {D : Decoder} {A : Analyses} {L : BlockGraphLibrary}.

(** Conversely the pre-pass goes past its first test only on an image
    without that section. *)
Lemma PreBlockGraphIteration_not_refused (T T' : AsanTransform)
    (bg bg' : BlockGraph) (status : option Error) :
  PreBlockGraphIteration T bg = (status, T', bg') ->
  status <> Some AlreadyInstrumented ->
  FindSection bg kThunkSectionName = None.
Proof.
  unfold PreBlockGraphIteration.
  destruct (FindSection bg kThunkSectionName); [|reflexivity].
  intros H Hs. inversion H; subst. congruence.
Qed.

Lemma find_section_app_none (secs more : list GraphSection) (name : string) :
  find_section secs name = None ->
  find_section (secs ++ more) name = find_section more name.
Proof.
  induction secs as [|x rest IH]; cbn; [reflexivity|].
  destruct (String.eqb (section_name x) name); [discriminate | exact IH].
Qed.

(** [FindOrAddSection] leaves the graph with a section of that name. *)
Lemma FindOrAddSection_found (bg bg' : BlockGraph) (name : string)
    (c : Z) (s : GraphSection) :
  FindOrAddSection bg name c = (bg', s) ->
  FindSection bg' name = Some s.
Proof.
  unfold FindOrAddSection, FindSection.
  destruct (find_section (sections bg) name) as [s0|] eqn:E; intros H;
    inversion H; subst; [exact E|]. cbn [sections].
  rewrite find_section_app_none by exact E. cbn.
  now rewrite String.eqb_refl.
Qed.

Lemma CreateHooksStub_marks (bg bg' : BlockGraph) (name : string)
    (m : MemoryAccessMode) (r : Reference) :
  library_keeps_sections ->
  CreateHooksStub bg name m = Ok (bg', r) ->
  exists s, FindSection bg' kThunkSectionName = Some s.
Proof.
  intros [Hmerge _]. unfold CreateHooksStub.
  destruct (FindOrAddSection bg kThunkSectionName kCodeCharacteristics)
    as [bg1 sec] eqn:Hsec.
  apply FindOrAddSection_found in Hsec.
  destruct (BlockBuilder_Merge bg1 _) as [[bg2 thunk]|] eqn:Hm;
    [|discriminate].
  intros H. inversion H; subst. exists sec.
  unfold FindSection in *. now rewrite (Hmerge _ _ _ _ Hm).
Qed.

Lemma bind_hooks_sections (entries : InfoMap nat)
    (stubs : AsanDefaultHookMap) (module : ImportedModule) :
  forall (hooks hooks' : AsanHookMap) (bg bg' : BlockGraph),
    bind_hooks entries stubs module hooks bg = Ok (bg', hooks') ->
    sections bg' = sections bg.
Proof.
  induction entries as [|[key idx] rest IH]; intros hooks hooks' bg bg' H.
  - cbn in H. inversion H; reflexivity.
  - cbn [bind_hooks] in H.
    destruct (GetSymbolReference module idx) as [r|]; [|discriminate].
    destruct (image_format bg).
    + destruct (default_stub_find stubs (mode key)) as [stub|];
        [|discriminate].
      apply IH in H. exact H.
    + apply IH in H. exact H.
Qed.

(** On a PE image, outside hot-patching mode, a pre-pass that succeeds
    leaves the section of the thunks in the graph, so that a second pre-pass
    on the result is refused. *)
Lemma PreBlockGraphIteration_twice (T T' T2 : AsanTransform)
    (bg bg' : BlockGraph) :
  library_keeps_sections ->
  image_format bg = PE_IMAGE ->
  hot_patching_ T = false ->
  PreBlockGraphIteration T bg = (None, T', bg') ->
  PreBlockGraphIteration T2 bg' = (Some AlreadyInstrumented, T2, bg').
Proof.
  intros Hlib Hpe Hhp Hrun.
  assert (Hmark : exists s, FindSection bg' kThunkSectionName = Some s).
  { unfold PreBlockGraphIteration in Hrun.
    destruct (FindSection bg kThunkSectionName); [discriminate|].
    rewrite Hhp in Hrun. cbn [negb] in Hrun.
    destruct (ImportAsanCheckAccessHooks _ _ _ _ bg)
      as [[bg1 hooks]|e [bg1 hooks]] eqn:Himp; [|discriminate].
    inversion Hrun; subst. clear Hrun.
    unfold ImportAsanCheckAccessHooks in Himp. rewrite Hpe in Himp.
    destruct (CreateHooksStub bg kAsanHookStubName kReadAccess)
      as [[bga rw]|e bga] eqn:H1; [|discriminate].
    destruct (CreateHooksStub bga kAsanHookStubName kInstrAccess)
      as [[bgb ih]|e bgb] eqn:H2; [|discriminate].
    destruct (CreateHooksStub_marks _ _ _ _ _ Hlib H2) as [s Hs].
    unfold AddAsanCheckAccessHooks in Himp.
    destruct (add_hook_symbols _ _ _ _) as [module1 idx].
    destruct (AddImportsFromModule bgb module1) as [[ok bgc] module2]
      eqn:Hadd.
    destruct ok; cbn [negb] in Himp; [|discriminate].
    apply bind_hooks_sections in Himp.
    assert (Hc : sections bgc = sections bgb).
    { destruct Hlib as (_ & Hpeimp & Hcoff). unfold AddImportsFromModule in Hadd.
      destruct (image_format bgb); eauto. }
    exists s. unfold FindSection in *. now rewrite Himp, Hc. }
  destruct Hmark as [s Hs].
  unfold PreBlockGraphIteration. rewrite Hs. reflexivity.
Qed.

(** The import of the hooks never reports that the image is instrumented
    already. *)
Lemma bind_hooks_error (entries : InfoMap nat) (stubs : AsanDefaultHookMap)
    (module : ImportedModule) :
  forall (hooks : AsanHookMap) (bg : BlockGraph) e s,
    bind_hooks entries stubs module hooks bg = Err e s ->
    e <> AlreadyInstrumented.
Proof.
  induction entries as [|[key idx] rest IH]; intros hooks bg e s H.
  - cbn in H. discriminate.
  - cbn [bind_hooks] in H.
    destruct (GetSymbolReference module idx) as [r|];
      [|inversion H; discriminate].
    destruct (image_format bg).
    + destruct (default_stub_find stubs (mode key)) as [stub|];
        [|inversion H; discriminate].
      exact (IH _ _ _ _ H).
    + exact (IH _ _ _ _ H).
Qed.

Lemma ImportAsanCheckAccessHooks_error (name : string) (ul : bool)
    (module : ImportedModule) (hooks : AsanHookMap) (bg : BlockGraph) e s :
  ImportAsanCheckAccessHooks name ul module hooks bg = Err e s ->
  e <> AlreadyInstrumented.
Proof.
  unfold ImportAsanCheckAccessHooks.
  assert (Hstub : forall g m e' g',
             CreateHooksStub g name m = Err e' g' ->
             e' <> AlreadyInstrumented).
  { intros g m e' g'. unfold CreateHooksStub.
    destruct (FindOrAddSection g kThunkSectionName kCodeCharacteristics)
      as [g1 sec].
    destruct (BlockBuilder_Merge g1 _) as [[g2 thunk]|]; [discriminate|].
    intros H. inversion H. discriminate. }
  match goal with
  | |- match ?stubs with _ => _ end = _ -> _ =>
      assert (Hs : forall e' g', stubs = Err e' g' ->
                                 e' <> AlreadyInstrumented);
      [|destruct stubs as [[bga stub_map]|e' bga]]
  end.
  - intros e' g'. destruct (image_format bg); [|discriminate].
    destruct (CreateHooksStub bg name kReadAccess) as [[bga rw]|e1 bga]
      eqn:H1.
    + destruct (CreateHooksStub bga name kInstrAccess) as [[bgb ih]|e2 bgb]
        eqn:H2; [discriminate|].
      intros H. inversion H; subst. exact (Hstub _ _ _ _ H2).
    + intros H. inversion H; subst. exact (Hstub _ _ _ _ H1).
  - unfold AddAsanCheckAccessHooks.
    destruct (add_hook_symbols _ _ _ _) as [module1 idx].
    destruct (AddImportsFromModule bga module1) as [[ok bgb] module2].
    destruct ok; cbn [negb].
    + apply bind_hooks_error.
    + intros H. inversion H. discriminate.
  - intros H. inversion H; subst. exact (Hs _ _ eq_refl).
Qed.

(** The pre-pass reports an instrumented image only when it finds the
    section of the thunks. *)
Lemma PreBlockGraphIteration_refused (T : AsanTransform) (bg : BlockGraph) :
  fst (fst (PreBlockGraphIteration T bg)) = Some AlreadyInstrumented ->
  FindSection bg kThunkSectionName <> None.
Proof.
  unfold PreBlockGraphIteration.
  destruct (FindSection bg kThunkSectionName); [discriminate|].
  destruct (negb (hot_patching_ T)).
  - destruct (ImportAsanCheckAccessHooks _ _ _ _ bg)
      as [[bg1 hooks]|e [bg1 hooks]] eqn:Himp; cbn [fst]; [discriminate|].
    intros H. inversion H; subst.
    exfalso. exact (ImportAsanCheckAccessHooks_error _ _ _ _ _ _ _ Himp eq_refl).
  - destruct (EntryThunkTransform bg (instrument_dll_name T)) as [ok bg1].
    destruct (negb ok); cbn [fst]; discriminate.
Qed.

(** On a COFF image, outside hot-patching mode, a pre-pass that succeeds
    leaves the sections as they were. *)
Lemma PreBlockGraphIteration_coff_sections (T T' : AsanTransform)
    (bg bg' : BlockGraph) :
  library_keeps_sections ->
  image_format bg = COFF_IMAGE ->
  hot_patching_ T = false ->
  PreBlockGraphIteration T bg = (None, T', bg') ->
  sections bg' = sections bg.
Proof.
  intros Hlib Hcoff Hhp Hrun.
  unfold PreBlockGraphIteration in Hrun.
  destruct (FindSection bg kThunkSectionName); [discriminate|].
  rewrite Hhp in Hrun. cbn [negb] in Hrun.
  destruct (ImportAsanCheckAccessHooks _ _ _ _ bg)
    as [[bg1 hooks]|e [bg1 hooks]] eqn:Himp; [|discriminate].
  inversion Hrun; subst. clear Hrun.
  unfold ImportAsanCheckAccessHooks in Himp. rewrite Hcoff in Himp.
  unfold AddAsanCheckAccessHooks in Himp.
  destruct (add_hook_symbols _ _ _ _) as [module1 idx].
  destruct (AddImportsFromModule bg module1) as [[ok bgc] module2] eqn:Hadd.
  destruct ok; cbn [negb] in Himp; [|discriminate].
  apply bind_hooks_sections in Himp. rewrite Himp.
  destruct Hlib as (_ & _ & Hc). unfold AddImportsFromModule in Hadd.
  rewrite Hcoff in Hadd. exact (Hc _ _ _ _ _ Hadd).
Qed.

(** C9, as amended.  If the block graph already contains a section named
    [.thunks], the pre-pass fails with the already-instrumented error and
    leaves the transform object and the block graph as they were, and it
    reports that error in no other case.  Outside hot-patching mode, with a
    block builder and import transforms that leave the sections alone: on a
    PE image a pre-pass that succeeds leaves the section in the graph (it
    holds the stubs of the probes), so a second pre-pass on the result is
    refused; on a COFF image it creates no section, so a second pre-pass on
    the result is not refused. *)
Theorem PreBlockGraphIteration_thunks_guard (T T2 : AsanTransform)
    (bg : BlockGraph) :
  (forall s, FindSection bg kThunkSectionName = Some s ->
             PreBlockGraphIteration T bg = (Some AlreadyInstrumented, T, bg))
  /\ (fst (fst (PreBlockGraphIteration T bg)) = Some AlreadyInstrumented ->
      exists s, FindSection bg kThunkSectionName = Some s)
  /\ (library_keeps_sections -> hot_patching_ T = false ->
      forall T' bg',
        PreBlockGraphIteration T bg = (None, T', bg') ->
        match image_format bg with
        | PE_IMAGE =>
            PreBlockGraphIteration T2 bg'
            = (Some AlreadyInstrumented, T2, bg')
        | COFF_IMAGE =>
            sections bg' = sections bg
            /\ fst (fst (PreBlockGraphIteration T2 bg'))
               <> Some AlreadyInstrumented
        end).
Proof.
  split; [|split].
  - intros s Hs. unfold PreBlockGraphIteration. rewrite Hs. reflexivity.
  - intros H. apply PreBlockGraphIteration_refused in H.
    destruct (FindSection bg kThunkSectionName) as [s|]; [eauto|congruence].
  - intros Hlib Hhp T' bg' Hrun.
    destruct (image_format bg) eqn:Hfmt.
    + exact (PreBlockGraphIteration_twice T T' T2 bg bg' Hlib Hfmt Hhp Hrun).
    + pose proof (PreBlockGraphIteration_coff_sections T T' bg bg' Hlib Hfmt
                    Hhp Hrun) as Hsec.
      split; [exact Hsec|].
      intros H. apply PreBlockGraphIteration_refused in H. apply H.
      unfold FindSection. rewrite Hsec.
      apply (PreBlockGraphIteration_not_refused T T' bg bg' None Hrun).
      discriminate.
Qed.

(** The hot-patching wrapper reports success whatever the two transforms
    it runs return. *)
Lemma HotPatchingSubGraphTransform_true
    (hp : HotPatchingAsanBasicBlockTransform) (bg : BlockGraph)
    (subgraph : BasicBlockSubGraph) (env0 : Env) :
  exists out hp' env1,
    HotPatchingSubGraphTransform hp bg subgraph env0 = (true, out, hp', env1).
Proof.
  unfold HotPatchingSubGraphTransform.
  destruct (TransformBasicBlockSubGraph (asan_bb_transform_ hp)
              (image_format bg) subgraph env0) as [[[ok out] T'] env1].
  destruct (instrumentation_happened_ T').
  - destruct (PEHotPatchingBasicBlockTransform out) as [ok' out'].
    eexists _, _, _. reflexivity.
  - eexists _, _, _. reflexivity.
Qed.

End PassProperties.

Lemma sample_library_keeps_sections (code : list Instruction) (hp_ok : bool) :
  library_keeps_sections (L := sample_library code hp_ok).
Proof.
  repeat split.
  - intros bg td bg' id H. cbn in H. inversion H. reflexivity.
  - intros bg m ok bg' m' H. cbn in H. inversion H. reflexivity.
  - intros bg m ok bg' m' H. cbn in H. inversion H. reflexivity.
Qed.

(** C9 on an image that has the section already, on a fresh PE image, whose
    second pre-pass is refused, and on a fresh COFF image, whose second
    pre-pass is not. *)
Lemma PreBlockGraphIteration_thunks_guard_witness :
  PreBlockGraphIteration (D := sample_decoder)
    (L := sample_library [] true)
    (sample_pass true false) instrumented_graph
  = (Some AlreadyInstrumented, sample_pass true false, instrumented_graph)
  /\ (exists T' bg',
         PreBlockGraphIteration (D := sample_decoder)
           (L := sample_library [] true)
           (sample_pass true false) (sample_graph PE_IMAGE)
         = (None, T', bg')
         /\ PreBlockGraphIteration (D := sample_decoder)
              (L := sample_library [] true) (sample_pass true false) bg'
            = (Some AlreadyInstrumented, sample_pass true false, bg'))
  /\ (exists T' bg',
         PreBlockGraphIteration (D := sample_decoder)
           (L := sample_library [] true)
           (sample_pass true false) (sample_graph COFF_IMAGE)
         = (None, T', bg')
         /\ fst (fst (PreBlockGraphIteration (D := sample_decoder)
                        (L := sample_library [] true)
                        (sample_pass true false) bg'))
            <> Some AlreadyInstrumented).
Proof.
  split; [|split].
  - exact (proj1 (PreBlockGraphIteration_thunks_guard (D := sample_decoder)
                    (L := sample_library [] true)
                    (sample_pass true false) (sample_pass true false)
                    instrumented_graph)
                 {| section_id := 1%nat; section_name := ".thunks";
                    section_characteristics := 1610612768 |}
                 eq_refl).
  - destruct (PreBlockGraphIteration (D := sample_decoder)
                (L := sample_library [] true)
                (sample_pass true false) (sample_graph PE_IMAGE))
      as [[status T'] bg'] eqn:E.
    assert (Hs : status = None) by (vm_compute in E; inversion E; reflexivity).
    subst status. exists T', bg'. split; [reflexivity|].
    exact (proj2 (proj2 (PreBlockGraphIteration_thunks_guard
                           (D := sample_decoder)
                           (L := sample_library [] true)
                           (sample_pass true false) (sample_pass true false)
                           (sample_graph PE_IMAGE)))
             (sample_library_keeps_sections [] true) eq_refl T' bg' E).
  - destruct (PreBlockGraphIteration (D := sample_decoder)
                (L := sample_library [] true)
                (sample_pass true false) (sample_graph COFF_IMAGE))
      as [[status T'] bg'] eqn:E.
    assert (Hs : status = None) by (vm_compute in E; inversion E; reflexivity).
    subst status. exists T', bg'. split; [reflexivity|].
    exact (proj2 (proj2 (proj2 (PreBlockGraphIteration_thunks_guard
                                  (D := sample_decoder)
                                  (L := sample_library [] true)
                                  (sample_pass true false)
                                  (sample_pass true false)
                                  (sample_graph COFF_IMAGE)))
                    (sample_library_keeps_sections [] true) eq_refl T' bg'
                    E)).
Defined.

(** C9 fails as stated: the test does not keep an image from being
    instrumented twice.  On a COFF image the pre-pass succeeds and the block
    is instrumented; a second pass on the result succeeds in the same way,
    its pre-pass is not refused. *)
Lemma image_instrumented_twice_counterexample :
  exists T1 bg1 bg1' env1 T2 bg2 bg2' env2,
    PreBlockGraphIteration (D := sample_decoder)
      (L := sample_library [mov_eax_ebx_4] true)
      (sample_pass false false) (sample_graph COFF_IMAGE)
    = (None, T1, bg1)
    /\ OnBlock (D := sample_decoder) (A := sample_analyses true false)
         (L := sample_library [mov_eax_ebx_4] true)
         T1 bg1 sample_block empty_env
       = Some (true, T1, bg1', env1)
    /\ PreBlockGraphIteration (D := sample_decoder)
         (L := sample_library [mov_eax_ebx_4] true)
         (sample_pass false false) bg1'
       = (None, T2, bg2)
    /\ OnBlock (D := sample_decoder) (A := sample_analyses true false)
         (L := sample_library [mov_eax_ebx_4] true)
         T2 bg2 sample_block empty_env
       = Some (true, T2, bg2', env2).
Proof.
  let r := eval vm_compute in
        (PreBlockGraphIteration (D := sample_decoder)
           (L := sample_library [mov_eax_ebx_4] true)
           (sample_pass false false) (sample_graph COFF_IMAGE)) in
  match r with
  | (_, ?T1, ?bg1) =>
      let o := eval vm_compute in
            (OnBlock (D := sample_decoder) (A := sample_analyses true false)
               (L := sample_library [mov_eax_ebx_4] true)
               T1 bg1 sample_block empty_env) in
      match o with
      | Some (_, _, ?bg1', ?env1) =>
          exists T1, bg1, bg1', env1, T1, bg1, bg1', env1
      end
  end.
  repeat split; vm_compute; reflexivity.
Qed.

(** On a fresh PE image the pre-pass succeeds, creates the section and
    binds the 52 probes. *)
Example pre_pass_fresh_image :
  exists T' bg',
    PreBlockGraphIteration (D := sample_decoder)
      (L := sample_library [] true)
      (sample_pass true false) (sample_graph PE_IMAGE)
    = (None, T', bg')
    /\ List.length (check_access_hooks_ref_ T') = 52%nat
    /\ map section_name (sections bg') = [".text"; ".thunks"]%string.
Proof.
  let r := eval vm_compute in
        (PreBlockGraphIteration (D := sample_decoder)
           (L := sample_library [] true)
           (sample_pass true false) (sample_graph PE_IMAGE)) in
  match r with
  | (_, ?T', ?bg') => exists T', bg'
  end.
  repeat split; vm_compute; reflexivity.
Qed.

(** The pre-pass puts no section of thunks in a COFF image: there the test
    of the pre-pass alone does not tell an image that went through it. *)
Example pre_pass_coff_image :
  exists T' bg',
    PreBlockGraphIteration (D := sample_decoder)
      (L := sample_library [] true)
      (sample_pass true false) (sample_graph COFF_IMAGE)
    = (None, T', bg')
    /\ FindSection bg' kThunkSectionName = None.
Proof.
  let r := eval vm_compute in
        (PreBlockGraphIteration (D := sample_decoder)
           (L := sample_library [] true)
           (sample_pass true false) (sample_graph COFF_IMAGE)) in
  match r with
  | (_, ?T', ?bg') => exists T', bg'
  end.
  split; vm_compute; reflexivity.
Qed.

(** C7.  The code diverges from the claim in hot-patching mode.  On a
    subgraph holding one load the dry run finds an access to instrument, so
    the wrapper runs the hot-patching preparation transform; that transform
    returns false, and the wrapper still returns true and marks the block
    prepared: the value returned by the transforms it runs is not read.  The
    basic-block transform it wraps does hand on a failure: on a subgraph
    holding an access without probe it returns false. *)
Theorem hot_patching_wrapper_swallows_error :
  fst (PEHotPatchingBasicBlockTransform
         (BlockGraphLibrary := sample_library [mov_eax_ebx_4] false)
         (map untouched_block
              [CodeBasicBlock {| bb_id := 0%nat;
                                 instructions := [mov_eax_ebx_4] |}]))
  = false
  /\ (exists out hp' env1,
         HotPatchingSubGraphTransform (D := sample_decoder)
           (A := sample_analyses true false)
           (L := sample_library [mov_eax_ebx_4] false)
           (hot_patching_child (A := sample_analyses true false)
                               (sample_pass false true))
           (sample_graph PE_IMAGE)
           [CodeBasicBlock {| bb_id := 0%nat;
                              instructions := [mov_eax_ebx_4] |}]
           empty_env
         = (true, out, hp', env1)
         /\ instrumentation_happened_ (asan_bb_transform_ hp') = true
         /\ prepared_for_hot_patching_ hp' = true)
  /\ (exists out T1 env1,
         TransformBasicBlockSubGraph (D := sample_decoder)
           (A := sample_analyses true false)
           (configure (A := sample_analyses true false)
                      (sample_pass false false))
           PE_IMAGE
           [CodeBasicBlock {| bb_id := 0%nat;
                              instructions := [repnz_scas] |}]
           empty_env
         = (false, out, T1, env1)).
Proof.
  split; [reflexivity|]. split.
  - let r := eval vm_compute in
          (HotPatchingSubGraphTransform (D := sample_decoder)
             (A := sample_analyses true false)
             (L := sample_library [mov_eax_ebx_4] false)
             (hot_patching_child (A := sample_analyses true false)
                                 (sample_pass false true))
             (sample_graph PE_IMAGE)
             [CodeBasicBlock {| bb_id := 0%nat;
                                instructions := [mov_eax_ebx_4] |}]
             empty_env) in
    match r with
    | (_, ?out, ?hp', ?env1) => exists out, hp', env1
    end.
    repeat split; vm_compute; reflexivity.
  - let r := eval vm_compute in
          (TransformBasicBlockSubGraph (D := sample_decoder)
             (A := sample_analyses true false)
             (configure (A := sample_analyses true false)
                        (sample_pass false false))
             PE_IMAGE
             [CodeBasicBlock {| bb_id := 0%nat;
                                instructions := [repnz_scas] |}]
             empty_env) in
    match r with
    | (_, ?out, ?T1, ?env1) => exists out, T1, env1
    end.
    vm_compute. reflexivity.
Qed.

(** On the block of [MOV EAX, [EBX+4]; REPNZ SCAS] the subgraph already holds
    the three instructions inserted before the load when the lookup for the
    second instruction fails; the subgraph is dropped with the failure. *)
Example failed_subgraph_holds_insertions :
  exists slots T1 env1,
    TransformBasicBlockSubGraph (D := sample_decoder)
      (A := sample_analyses true false)
      (configure (A := sample_analyses true false) (sample_pass false false))
      PE_IMAGE
      [CodeBasicBlock {| bb_id := 0%nat;
                         instructions := [mov_eax_ebx_4; repnz_scas] |}]
      empty_env
    = (false, [InstrumentedCode 0 slots], T1, env1)
    /\ map (fun s => List.length (inserted s)) slots = [3; 0]%nat.
Proof.
  let r := eval vm_compute in
        (TransformBasicBlockSubGraph (D := sample_decoder)
           (A := sample_analyses true false)
           (configure (A := sample_analyses true false)
                      (sample_pass false false))
           PE_IMAGE
           [CodeBasicBlock {| bb_id := 0%nat;
                              instructions := [mov_eax_ebx_4; repnz_scas] |}]
           empty_env) in
  match r with
  | (_, [InstrumentedCode _ ?slots], ?T1, ?env1) => exists slots, T1, env1
  end.
  split; vm_compute; reflexivity.
Qed.

(* ================================================================== *)
(** * Part III: further properties of the code *)
(* ================================================================== *)

(** ** The order on access descriptors and the hook map *)

(** [operator<] as the lexicographic order on the four numbers it
    compares. *)
Lemma MemoryAccessInfo_lt_lex (a b : MemoryAccessInfo) :
  MemoryAccessInfo_lt a b = true
  <-> mode_value (mode a) < mode_value (mode b)
      \/ (mode_value (mode a) = mode_value (mode b)
          /\ (size a < size b
              \/ (size a = size b
                  /\ (Z.b2z (save_flags a) < Z.b2z (save_flags b)
                      \/ (Z.b2z (save_flags a) = Z.b2z (save_flags b)
                          /\ opcode a < opcode b))))).
Proof.
  unfold MemoryAccessInfo_lt.
  destruct (mode_value (mode a) =? mode_value (mode b)) eqn:Em; cbn [negb].
  2:{ apply Z.eqb_neq in Em. rewrite Z.ltb_lt. lia. }
  apply Z.eqb_eq in Em.
  destruct (size a =? size b) eqn:Es; cbn [negb].
  2:{ apply Z.eqb_neq in Es. rewrite Z.ltb_lt. lia. }
  apply Z.eqb_eq in Es.
  destruct (Bool.eqb (save_flags a) (save_flags b)) eqn:Ef; cbn [negb].
  - apply Bool.eqb_prop in Ef. rewrite Ef, Z.ltb_lt. lia.
  - apply Bool.eqb_false_iff in Ef. rewrite Z.ltb_lt.
    destruct (save_flags a), (save_flags b); cbn in *; try congruence; lia.
Qed.

Lemma mode_value_inj (m1 m2 : MemoryAccessMode) :
  mode_value m1 = mode_value m2 -> m1 = m2.
Proof. destruct m1, m2; cbn; intros H; congruence. Qed.

Lemma MemoryAccessInfo_lt_irrefl (a : MemoryAccessInfo) :
  MemoryAccessInfo_lt a a = false.
Proof.
  destruct (MemoryAccessInfo_lt a a) eqn:E; [|reflexivity].
  apply MemoryAccessInfo_lt_lex in E. lia.
Qed.

Lemma MemoryAccessInfo_lt_trans (a b c : MemoryAccessInfo) :
  MemoryAccessInfo_lt a b = true -> MemoryAccessInfo_lt b c = true ->
  MemoryAccessInfo_lt a c = true.
Proof.
  intros Hab Hbc. apply MemoryAccessInfo_lt_lex in Hab, Hbc.
  apply MemoryAccessInfo_lt_lex. lia.
Qed.

Lemma MemoryAccessInfo_lt_total (a b : MemoryAccessInfo) :
  MemoryAccessInfo_lt a b = false -> MemoryAccessInfo_lt b a = false ->
  a = b.
Proof.
  intros Hab Hba.
  assert (Nab : ~ MemoryAccessInfo_lt a b = true) by congruence.
  assert (Nba : ~ MemoryAccessInfo_lt b a = true) by congruence.
  rewrite MemoryAccessInfo_lt_lex in Nab, Nba.
  assert (Hm : mode_value (mode a) = mode_value (mode b)) by lia.
  assert (Hs : size a = size b) by lia.
  assert (Hf : Z.b2z (save_flags a) = Z.b2z (save_flags b)) by lia.
  assert (Ho : opcode a = opcode b) by lia.
  apply mode_value_inj in Hm.
  destruct a as [ma sa oa fa], b as [mb sb ob fb]; cbn in *.
  subst. f_equal. destruct fa, fb; cbn in Hf; congruence.
Qed.

(** X1. [operator<] on access descriptors is a strict total order: nothing
    is below itself, the relation is transitive, and two descriptors neither
    of which is below the other have the same four fields.  So the keys of a
    map ordered by it are told apart exactly by their fields. *)
Theorem MemoryAccessInfo_lt_strict_total_order :
  (forall a, MemoryAccessInfo_lt a a = false)
  /\ (forall a b c,
         MemoryAccessInfo_lt a b = true -> MemoryAccessInfo_lt b c = true ->
         MemoryAccessInfo_lt a c = true)
  /\ (forall a b,
         MemoryAccessInfo_lt a b = false -> MemoryAccessInfo_lt b a = false ->
         a = b).
Proof.
  split; [|split].
  - intros a. destruct (MemoryAccessInfo_lt a a) eqn:E; [|reflexivity].
    apply MemoryAccessInfo_lt_lex in E. lia.
  - intros a b c Hab Hbc. apply MemoryAccessInfo_lt_lex in Hab, Hbc.
    apply MemoryAccessInfo_lt_lex. lia.
  - intros a b Hab Hba. now apply MemoryAccessInfo_lt_total.
Qed.

(** Keys equivalent for the map are equal. *)
Lemma map_key_equiv (a b : MemoryAccessInfo) :
  MemoryAccessInfo_lt a b || MemoryAccessInfo_lt b a = false -> a = b.
Proof.
  intros H. apply orb_false_iff in H. destruct H as [H1 H2].
  now apply MemoryAccessInfo_lt_total.
Qed.

Lemma map_key_refl (a : MemoryAccessInfo) :
  MemoryAccessInfo_lt a a || MemoryAccessInfo_lt a a = false.
Proof. now rewrite MemoryAccessInfo_lt_irrefl. Qed.

Lemma map_find_set_same {V : Type} (m : InfoMap V) (k : MemoryAccessInfo)
    (v : V) :
  map_find (map_set m k v) k = Some v.
Proof.
  induction m as [|[k0 v0] rest IH]; cbn.
  - now rewrite map_key_refl.
  - destruct (MemoryAccessInfo_lt k k0) eqn:E1; cbn.
    + now rewrite map_key_refl.
    + destruct (MemoryAccessInfo_lt k0 k) eqn:E2; cbn.
      * rewrite E2. cbn. exact IH.
      * rewrite E2, E1. reflexivity.
Qed.

Lemma map_find_set_other {V : Type} (m : InfoMap V) (k k' : MemoryAccessInfo)
    (v : V) :
  k <> k' -> map_find (map_set m k v) k' = map_find m k'.
Proof.
  intros Hne.
  assert (Hk : MemoryAccessInfo_lt k k' || MemoryAccessInfo_lt k' k = true).
  { destruct (MemoryAccessInfo_lt k k' || MemoryAccessInfo_lt k' k) eqn:E;
      [reflexivity|]. apply map_key_equiv in E. contradiction. }
  induction m as [|[k0 v0] rest IH].
  - cbn. now rewrite Hk.
  - cbn [map_set].
    destruct (MemoryAccessInfo_lt k k0) eqn:E1.
    + cbn [map_find]. now rewrite Hk.
    + destruct (MemoryAccessInfo_lt k0 k) eqn:E2.
      * cbn [map_find].
        destruct (MemoryAccessInfo_lt k0 k' || MemoryAccessInfo_lt k' k0);
          [exact IH | reflexivity].
      * assert (k0 = k) by (apply map_key_equiv; now rewrite E2, E1).
        subst k0. cbn [map_find]. rewrite Hk. reflexivity.
Qed.

(** A key stays bound when another binding is written. *)
Lemma map_find_set_bound {V : Type} (m : InfoMap V) (k k' : MemoryAccessInfo)
    (v : V) :
  map_find m k' <> None -> map_find (map_set m k v) k' <> None.
Proof.
  intros H. destruct (MemoryAccessInfo_lt k k' || MemoryAccessInfo_lt k' k)
    eqn:E.
  - rewrite map_find_set_other; [exact H|].
    intros ->. now rewrite map_key_refl in E.
  - apply map_key_equiv in E. subst k'. rewrite map_find_set_same.
    discriminate.
Qed.

(** The entries of a map after a write. *)
Lemma In_map_set {V : Type} (m : InfoMap V) (k k' : MemoryAccessInfo)
    (v v' : V) :
  In (k', v') (map_set m k v) -> In (k', v') m \/ (k' = k /\ v' = v).
Proof.
  induction m as [|[k0 v0] rest IH]; cbn [map_set].
  - intros [H|[]]. inversion H; auto.
  - destruct (MemoryAccessInfo_lt k k0) eqn:E1.
    + intros [H|H]; [inversion H; auto | auto].
    + destruct (MemoryAccessInfo_lt k0 k) eqn:E2.
      * intros [H|H]; [left; left; exact H|].
        destruct (IH H) as [H'|H']; [left; right; exact H' | auto].
      * assert (k0 = k) by (apply map_key_equiv; now rewrite E2, E1).
        subst k0. intros [H|H]; [inversion H; auto | left; right; exact H].
Qed.

Lemma map_find_In {V : Type} (m : InfoMap V) (k : MemoryAccessInfo) (v : V) :
  map_find m k = Some v -> In (k, v) m.
Proof.
  induction m as [|[k0 v0] rest IH]; cbn; [discriminate|].
  destruct (MemoryAccessInfo_lt k0 k || MemoryAccessInfo_lt k k0) eqn:E.
  - intros H. right. now apply IH.
  - apply map_key_equiv in E. subst k0. intros H. inversion H. now left.
Qed.

Section ImportProperties.
Context {D : Decoder} {L : BlockGraphLibrary}.

(** After the first loop every requested variant has a symbol index, and the
    keys of the index map are requested variants or were there before. *)
Lemma add_hook_symbols_bound (params : list MemoryAccessInfo)
    (fmt : ImageFormat) :
  forall (module module' : ImportedModule) (idx idx' : InfoMap nat),
    add_hook_symbols params fmt module idx = (module', idx') ->
    (forall p, In p params \/ map_find idx p <> None ->
               map_find idx' p <> None)
    /\ (forall k i, In (k, i) idx' ->
                    In k params \/ In (k, i) idx).
Proof.
  induction params as [|p rest IH]; intros module module' idx idx' H.
  - cbn in H. inversion H; subst. split.
    + intros q [[]|Hq]. exact Hq.
    + auto.
  - cbn [add_hook_symbols] in H.
    destruct (AddSymbol module (GetAsanCheckAccessFunctionName p fmt)
                        kAlwaysImport) as [module1 symbol_idx].
    destruct (IH _ _ _ _ H) as [IH1 IH2]. split.
    + intros q [[<-|Hq]|Hq].
      * apply IH1. right. rewrite map_find_set_same. discriminate.
      * apply IH1. now left.
      * apply IH1. right. now apply map_find_set_bound.
    + intros k i Hin. destruct (IH2 k i Hin) as [Hk|Hk].
      * left. now right.
      * apply In_map_set in Hk. destruct Hk as [Hk|[-> _]].
        -- now right.
        -- left. now left.
Qed.

(** After the second loop every entry is bound in the hook map, and the
    other keys are bound as before. *)
Lemma bind_hooks_bound (entries : InfoMap nat) (stubs : AsanDefaultHookMap)
    (module : ImportedModule) :
  forall (hooks hooks' : AsanHookMap) (bg bg' : BlockGraph),
    bind_hooks entries stubs module hooks bg = Ok (bg', hooks') ->
    (forall k, (exists i, In (k, i) entries) \/ map_find hooks k <> None ->
               map_find hooks' k <> None)
    /\ (forall k, (forall i, ~ In (k, i) entries) ->
                  map_find hooks' k = map_find hooks k).
Proof.
  induction entries as [|[key idx] rest IH]; intros hooks hooks' bg bg' H.
  - cbn in H. inversion H; subst. split.
    + intros k [[i []]|Hk]. exact Hk.
    + reflexivity.
  - cbn [bind_hooks] in H.
    destruct (GetSymbolReference module idx) as [r|]; [|discriminate].
    assert (Hrest : exists bg1,
               bind_hooks rest stubs module (map_set hooks key r) bg1
               = Ok (bg', hooks')).
    { destruct (image_format bg).
      - destruct (default_stub_find stubs (mode key)); [|discriminate].
        eexists. exact H.
      - eexists. exact H. }
    destruct Hrest as [bg1 Hrest].
    destruct (IH _ _ _ _ Hrest) as [IH1 IH2]. split.
    + intros k [[i [Hi|Hi]]|Hk].
      * inversion Hi; subst. apply IH1. right.
        rewrite map_find_set_same. discriminate.
      * apply IH1. left. eauto.
      * apply IH1. right. now apply map_find_set_bound.
    + intros k Hk. rewrite IH2.
      * apply map_find_set_other. intros ->. apply (Hk idx). now left.
      * intros i Hi. apply (Hk i). now right.
Qed.

(** X2. When [AddAsanCheckAccessHooks] succeeds, every access descriptor of
    the vector it was given is bound in the hook map, and every other key
    of the map is bound as it was before the call. *)
Theorem AddAsanCheckAccessHooks_binds
    (hook_param_vector : list MemoryAccessInfo)
    (default_stub_map : AsanDefaultHookMap) (import_module : ImportedModule)
    (hooks hooks' : AsanHookMap) (bg bg' : BlockGraph) :
  AddAsanCheckAccessHooks hook_param_vector default_stub_map import_module
                          hooks bg
  = Ok (bg', hooks') ->
  (forall p, In p hook_param_vector -> exists r, map_find hooks' p = Some r)
  /\ (forall k, ~ In k hook_param_vector ->
                map_find hooks' k = map_find hooks k).
Proof.
  unfold AddAsanCheckAccessHooks.
  destruct (add_hook_symbols hook_param_vector (image_format bg)
                             import_module []) as [module1 idx] eqn:Hadd.
  destruct (AddImportsFromModule bg module1) as [[ok bg1] module2].
  destruct ok; cbn [negb]; [|discriminate].
  intros Hbind.
  destruct (add_hook_symbols_bound _ _ _ _ _ _ Hadd) as [Hidx Hkeys].
  destruct (bind_hooks_bound _ _ _ _ _ _ _ Hbind) as [Hb1 Hb2].
  split.
  - intros p Hp.
    assert (Hi : map_find idx p <> None) by (apply Hidx; now left).
    destruct (map_find idx p) as [i|] eqn:Ei; [|congruence].
    apply map_find_In in Ei.
    assert (Hh : map_find hooks' p <> None) by (apply Hb1; left; eauto).
    destruct (map_find hooks' p) as [r|]; [eauto | congruence].
  - intros k Hk. apply Hb2. intros i Hi.
    destruct (Hkeys k i Hi) as [H|[]]. contradiction.
Qed.

(** X3. After a pre-pass that succeeds outside hot-patching mode, every
    probe variant of the enumeration (for the liveness setting of the pass)
    has a reference in the hook table of the pass. *)
Theorem PreBlockGraphIteration_probe_table (T T' : AsanTransform)
    (bg bg' : BlockGraph) (x : MemoryAccessInfo) :
  hot_patching_ T = false ->
  PreBlockGraphIteration T bg = (None, T', bg') ->
  spec_variant (use_liveness_analysis T) x ->
  exists r, map_find (check_access_hooks_ref_ T') x = Some r.
Proof.
  intros Hhp Hrun Hx.
  unfold PreBlockGraphIteration in Hrun.
  destruct (FindSection bg kThunkSectionName); [discriminate|].
  rewrite Hhp in Hrun. cbn [negb] in Hrun.
  destruct (ImportAsanCheckAccessHooks _ _ _ _ bg)
    as [[bg1 hooks]|e [bg1 hooks]] eqn:Himp; [|discriminate].
  inversion Hrun; subst. clear Hrun. cbn [check_access_hooks_ref_].
  unfold ImportAsanCheckAccessHooks in Himp.
  match type of Himp with
  | match ?stubs with _ => _ end = _ =>
      destruct stubs as [[bga stub_map]|e bga]; [|discriminate]
  end.
  unfold AddAsanCheckAccessHooks in Himp.
  destruct (add_hook_symbols (hook_params (use_liveness_analysis T))
                             (image_format bga) _ []) as [module1 idx]
    eqn:Hadd.
  destruct (AddImportsFromModule bga module1) as [[ok bgb] module2].
  destruct ok; cbn [negb] in Himp; [|discriminate].
  destruct (add_hook_symbols_bound _ _ _ _ _ _ Hadd) as [Hidx _].
  destruct (bind_hooks_bound _ _ _ _ _ _ _ Himp) as [Hb _].
  assert (Hin : In x (hook_params (use_liveness_analysis T))).
  { rewrite hook_params_value, in_app_iff, In_load_store_part,
      In_string_part.
    unfold spec_variant, strings in *. tauto. }
  assert (Hi : map_find idx x <> None) by (apply Hidx; now left).
  destruct (map_find idx x) as [i|] eqn:Ei; [|congruence].
  apply map_find_In in Ei.
  assert (Hh : map_find hooks x <> None) by (apply Hb; left; eauto).
  change (exists r, map_find hooks x = Some r).
  destruct (map_find hooks x) as [r|]; [eauto | congruence].
Qed.

End ImportProperties.

(** ** More on the classifier *)

Section MoreClassifierProperties.
Context {D : Decoder}.

Lemma decode_operand_chosen (instr : Instruction) (chosen : nat) :
  choose_mem_op_id (representation instr) = Some chosen ->
  exists access, decode_operand instr chosen = Some access.
Proof.
  intros Hc. apply choose_mem_op_id_range in Hc. destruct Hc as [Hr Hi].
  unfold decode_operand, IsInstrumentable in *.
  destruct (Op.type (DInst.ops (representation instr) chosen)) eqn:Et;
    try discriminate; cbn [is_O_SMEM].
  - eexists. reflexivity.
  - assert (Hm : is_O_MEM (Op.type (DInst.ops (representation instr) 0%nat))
                 || is_O_MEM (Op.type (DInst.ops (representation instr)
                                                 1%nat)) = true).
    { destruct Hr as [-> | ->]; rewrite Et; cbn;
        rewrite ?orb_true_r; reflexivity. }
    rewrite Hm.
    destruct (negb (DInst.base (representation instr) =? R_NONE));
      [|eexists; reflexivity].
    destruct (size_ (ComputeDisplacementForOperand instr chosen));
      eexists; reflexivity.
Qed.

(** X4. [DecodeMemoryAccess] returns false exactly for a NOP and for an
    instruction neither of whose first two operands is a memory operand:
    once an operand is chosen its form is always decoded, so the exit
    marked unreachable in the source is never taken. *)
Theorem DecodeMemoryAccess_refuses (instr : Instruction)
    (info : MemoryAccessInfo) :
  DecodeMemoryAccess instr info = None
  <-> IsNop (representation instr) = true
      \/ (IsInstrumentable (DInst.ops (representation instr) 0%nat) = false
          /\ IsInstrumentable (DInst.ops (representation instr) 1%nat)
             = false).
Proof.
  unfold DecodeMemoryAccess.
  destruct (IsNop (representation instr)) eqn:En; [tauto|].
  destruct (choose_mem_op_id (representation instr)) as [chosen|] eqn:Ec.
  - destruct (decode_operand_chosen _ _ Ec) as [access Ha]. rewrite Ha.
    apply choose_mem_op_id_range in Ec. destruct Ec as [[-> | ->] Hi];
      split; try discriminate; intros [H|[H0 H1]]; congruence.
  - unfold choose_mem_op_id in Ec.
    destruct (IsInstrumentable (DInst.ops (representation instr) 0%nat));
      destruct (IsInstrumentable (DInst.ops (representation instr) 1%nat));
      cbn in Ec; try discriminate. tauto.
Qed.

Lemma ComputeDisplacementForOperand_sized (instr : Instruction)
    (operand : nat) :
  (forall v, ValueSizeFromConstant v <> kSizeNone) ->
  size_ (ComputeDisplacementForOperand instr operand) <> kSizeNone.
Proof.
  intros Hv. unfold ComputeDisplacementForOperand.
  destruct (DInst.dispSize (representation instr) =? 0); [apply Hv|].
  destruct (FindOperandReference instr operand) as [r|]; [|apply Hv].
  destruct (referred_type r); cbn; discriminate.
Qed.

(** X5. When the assembler gives every literal displacement a size, the
    operand [DecodeMemoryAccess] returns always carries the displacement of
    [ComputeDisplacementForOperand] for the chosen operand: the form
    [base + index * scale] without displacement is never built and the
    assertion on the displacement of an operand without base holds.  A
    simple memory operand has the register of the operand as base and no
    index; a complex one has it as index, scaled, and the base of the
    instruction if there is one. *)
Theorem DecodeMemoryAccess_operand_form (instr : Instruction)
    (info0 info : MemoryAccessInfo) (access : Operand) :
  (forall v, ValueSizeFromConstant v <> kSizeNone) ->
  DecodeMemoryAccess instr info0 = Some (access, info) ->
  exists chosen,
    choose_mem_op_id (representation instr) = Some chosen
    /\ displacement_ access = ComputeDisplacementForOperand instr chosen
    /\ size_ (displacement_ access) <> kSizeNone
    /\ match Op.type (DInst.ops (representation instr) chosen) with
       | O_SMEM =>
           base_ access
           = GetRegister (Op.index (DInst.ops (representation instr) chosen))
           /\ index_ access = kRegisterNone
       | _ =>
           index_ access
           = GetRegister (Op.index (DInst.ops (representation instr) chosen))
           /\ scale_ access = decode_scale (DInst.scale (representation instr))
           /\ base_ access
              = (if DInst.base (representation instr) =? R_NONE
                 then kRegisterNone
                 else GetRegister (DInst.base (representation instr)))
       end.
Proof.
  intros Hv Hd.
  destruct (DecodeMemoryAccess_fields _ _ _ _ Hd)
    as (chosen & _ & Hc & Ho & _).
  exists chosen. split; [exact Hc|].
  pose proof (ComputeDisplacementForOperand_sized instr chosen Hv) as Hs.
  apply choose_mem_op_id_range in Hc. destruct Hc as [_ Hi].
  unfold decode_operand, IsInstrumentable in *.
  destruct (Op.type (DInst.ops (representation instr) chosen)) eqn:Et;
    try discriminate; cbn [is_O_SMEM] in Ho.
  - inversion Ho; subst. cbn. auto.
  - destruct (is_O_MEM _ || is_O_MEM _); [|discriminate].
    destruct (DInst.base (representation instr) =? R_NONE); cbn [negb] in Ho.
    + inversion Ho; subst. cbn. auto.
    + destruct (size_ (ComputeDisplacementForOperand instr chosen)) eqn:Es;
        [congruence| |]; inversion Ho; subst; cbn; rewrite ?Es; repeat split;
        congruence.
Qed.

End MoreClassifierProperties.

Lemma sample_sizes_literals (v : Z) :
  ValueSizeFromConstant (Decoder := sample_decoder) v <> kSizeNone.
Proof.
  cbn. destruct ((Z.lor v 127 =? 4294967295) || (Z.lor v 127 =? 127));
    discriminate.
Qed.

(** X5 on [JMP [EAX*4 + table]]: EAX is the index, scaled by 4, there is no
    base, and the displacement is the reference to the table. *)
Lemma DecodeMemoryAccess_operand_form_witness :
  exists access info,
    DecodeMemoryAccess (D := sample_decoder) jmp_table initial_info
    = Some (access, info)
    /\ index_ access = kRegisterEax /\ scale_ access = kTimes4
    /\ base_ access = kRegisterNone
    /\ exists chosen,
         choose_mem_op_id (representation jmp_table) = Some chosen
         /\ displacement_ access
            = ComputeDisplacementForOperand (D := sample_decoder) jmp_table
                                            chosen.
Proof.
  do 2 eexists. split; [reflexivity|]. repeat (split; [reflexivity|]).
  destruct (DecodeMemoryAccess_operand_form (D := sample_decoder) jmp_table
              initial_info _ _ sample_sizes_literals eq_refl)
    as (chosen & Hc & Hd & _).
  exists chosen. split; [exact Hc | exact Hd].
Defined.

(** ** More on the basic-block instrumenter *)

Section MoreInstrumenterProperties.
Context {D : Decoder} {A : Analyses}.

Lemma log_draws (e : Event) (env0 : Env) :
  rand_draws (log e env0) = rand_draws env0.
Proof. reflexivity. Qed.

(** What an iteration does to the variables of the loop. *)
Lemma instrument_instruction_state (T : AsanBasicBlockTransform)
    (stack_mode : StackAccessMode) (image_format : ImageFormat)
    (instr : Instruction) (ls : LoopState) :
  let r := instrument_instruction T stack_mode image_format instr ls in
  iter_state (fst r) = snd (current_liveness T ls)
  /\ state (fst r) = fst (current_liveness T ls)
  /\ memory_state (fst r)
     = (if remove_redundant_checks_ T
        then Memory_PropagateForward instr (memory_state ls)
        else memory_state ls)
  /\ (rand_draws (env (fst r)) = rand_draws (env ls)
      \/ (SFltb (instrumentation_rate_ T) double_1 = true
          /\ rand_draws (env (fst r)) = S (rand_draws (env ls))))
  /\ happened (fst r)
     = match snd r with
       | Skipped => happened ls
       | _ => true
       end
  /\ (remove_redundant_checks_ T = true ->
      HasNonRedundantAccess (memory_state ls) instr = false ->
      snd r = Skipped).
Proof.
  cbv zeta. unfold instrument_instruction.
  destruct (current_liveness T ls) as [state1 iter1]. cbn [fst snd].
  assert (Hred :
            snd (redundancy_check T instr ls (log EvVisitInstruction (env ls)))
            = snd (redundancy_check T instr ls
                     (log EvVisitInstruction (env ls)))) by reflexivity.
  unfold redundancy_check in *.
  destruct (remove_redundant_checks_ T) eqn:Er.
  - destruct (HasNonRedundantAccess (memory_state ls) instr) eqn:Hn;
      cbn [negb fst snd].
    2:{ repeat split; auto. }
    destruct (DecodeMemoryAccess instr initial_info) as [[operand info0]|];
      [|cbn; repeat split; auto; discriminate].
    destruct (skips_access T stack_mode instr operand info0);
      [cbn; repeat split; auto; discriminate|].
    unfold sampling.
    destruct (SFltb (instrumentation_rate_ T) double_1) eqn:Hrate.
    + destruct (SFleb (instrumentation_rate_ T) _);
        [cbn; repeat split; auto; discriminate|].
      destruct (dry_run_ T); [cbn; repeat split; auto; discriminate|].
      destruct (map_find _ _); cbn; repeat split; auto; discriminate.
    + destruct (dry_run_ T); [cbn; repeat split; auto; discriminate|].
      destruct (map_find _ _); cbn; repeat split; auto; discriminate.
  - cbn [negb fst snd].
    destruct (DecodeMemoryAccess instr initial_info) as [[operand info0]|];
      [|cbn; repeat split; auto; discriminate].
    destruct (skips_access T stack_mode instr operand info0);
      [cbn; repeat split; auto; discriminate|].
    unfold sampling.
    destruct (SFltb (instrumentation_rate_ T) double_1) eqn:Hrate.
    + destruct (SFleb (instrumentation_rate_ T) _);
        [cbn; repeat split; auto; discriminate|].
      destruct (dry_run_ T); [cbn; repeat split; auto; discriminate|].
      destruct (map_find _ _); cbn; repeat split; auto; discriminate.
    + destruct (dry_run_ T); [cbn; repeat split; auto; discriminate|].
      destruct (map_find _ _); cbn; repeat split; auto; discriminate.
Qed.

Lemma map_original_untouched (instrs : list Instruction) :
  map original (untouched instrs) = instrs.
Proof.
  unfold untouched. rewrite map_map. cbn. apply map_id.
Qed.

(** The loop keeps the instructions it walks, in their order. *)
Lemma instrument_loop_originals (T : AsanBasicBlockTransform)
    (stack_mode : StackAccessMode) (image_format : ImageFormat)
    (instrs : list Instruction) :
  forall ls,
    map original
        (snd (fst (instrument_loop T stack_mode image_format instrs ls)))
    = instrs.
Proof.
  induction instrs as [|instr rest IH]; intros ls; [reflexivity|].
  cbn [instrument_loop].
  destruct (instrument_instruction T stack_mode image_format instr ls)
    as [ls1 o].
  specialize (IH ls1).
  destruct o as [|info operand code|info].
  - destruct (instrument_loop T stack_mode image_format rest ls1)
      as [[ok out] ls2]. cbn in *. now rewrite IH.
  - destruct (instrument_loop T stack_mode image_format rest ls1)
      as [[ok out] ls2]. cbn in *. now rewrite IH.
  - cbn [fst snd]. apply (map_original_untouched (instr :: rest)).
Qed.

Lemma InstrumentBasicBlock_originals (T : AsanBasicBlockTransform)
    (basic_block : BasicCodeBlock) (stack_mode : StackAccessMode)
    (image_format : ImageFormat) (env0 : Env) :
  map original
      (snd (fst (fst (InstrumentBasicBlock T basic_block stack_mode
                                           image_format env0))))
  = instructions basic_block.
Proof.
  unfold InstrumentBasicBlock.
  destruct (SFeqb (instrumentation_rate_ T) double_0).
  { cbn. apply map_original_untouched. }
  destruct (if use_liveness_analysis_ T
            then precompute_states (instructions basic_block)
                   (Liveness_GetStateAtExitOf (liveness_ T) basic_block)
                   (log EvGetStateAtExitOf env0)
            else ([], LivenessState_default, env0)) as [[states st0] e1].
  destruct (if remove_redundant_checks_ T
            then (Memory_GetStateAtEntryOf (memory_accesses_ T) basic_block,
                  log EvGetStateAtEntryOf e1)
            else (MemoryState_default, e1)) as [m0 e2].
  match goal with
  | |- context [instrument_loop T stack_mode image_format ?i ?l] =>
      pose proof (instrument_loop_originals T stack_mode image_format i l)
        as H;
      destruct (instrument_loop T stack_mode image_format i l)
        as [[ok out] ls']
  end.
  exact H.
Qed.

End MoreInstrumenterProperties.

Section LoopProperties.
Context {D : Decoder} {A : Analyses}.

Lemma precompute_states_length (instrs : list Instruction)
    (exit : LivenessState) (env0 : Env) :
  List.length (fst (fst (precompute_states instrs exit env0)))
  = List.length instrs
  /\ rand_draws (snd (precompute_states instrs exit env0)) = rand_draws env0.
Proof.
  induction instrs as [|i rest IH]; [split; reflexivity|].
  cbn [precompute_states].
  destruct (precompute_states rest exit env0) as [[states st] e1].
  cbn [fst snd List.length] in *. destruct IH as [IH1 IH2].
  split; [now rewrite IH1 | rewrite log_draws; exact IH2].
Qed.

(** With the analysis on, a loop that ends with success has taken one state
    for each instruction. *)
Lemma instrument_loop_liveness (T : AsanBasicBlockTransform)
    (stack_mode : StackAccessMode) (image_format : ImageFormat) :
  use_liveness_analysis_ T = true ->
  forall instrs ls ok out ls',
    List.length (iter_state ls) = List.length instrs ->
    instrument_loop T stack_mode image_format instrs ls = (ok, out, ls') ->
    ok = true -> iter_state ls' = [].
Proof.
  intros Hl.
  induction instrs as [|instr rest IH]; intros ls ok out ls' Hlen Hrun Hok.
  - cbn in Hrun. inversion Hrun; subst.
    destruct (iter_state ls'); [reflexivity|discriminate].
  - cbn [instrument_loop] in Hrun.
    pose proof (instrument_instruction_state T stack_mode image_format instr
                  ls) as Hst.
    cbv zeta in Hst. destruct Hst as (Hit & _).
    unfold current_liveness in Hit. rewrite Hl in Hit.
    destruct (iter_state ls) as [|s states]; [discriminate|].
    cbn [snd] in Hit. cbn [List.length] in Hlen.
    destruct (instrument_instruction T stack_mode image_format instr ls)
      as [ls1 o]. cbn [fst] in Hit.
    destruct o as [|info operand code|info].
    + destruct (instrument_loop T stack_mode image_format rest ls1)
        as [[ok1 out1] ls2] eqn:Hr.
      inversion Hrun; subst.
      apply (IH ls1 true out1 ls'); [cbn in Hlen; lia | exact Hr | reflexivity].
    + destruct (instrument_loop T stack_mode image_format rest ls1)
        as [[ok1 out1] ls2] eqn:Hr.
      inversion Hrun; subst.
      apply (IH ls1 true out1 ls'); [cbn in Hlen; lia | exact Hr | reflexivity].
    + inversion Hrun; subst. discriminate.
Qed.

(** X7. The two assertions of [InstrumentBasicBlock] on the liveness states
    hold: the pre-computation yields one state for each instruction of the
    block, and when the analysis is on a loop that ends with success has
    consumed them all, so the iterator is at the end of the list. *)
Theorem liveness_states_consumed (T : AsanBasicBlockTransform)
    (stack_mode : StackAccessMode) (image_format : ImageFormat)
    (instrs : list Instruction) (exit : LivenessState) (env0 : Env)
    (m0 : MemoryState) (h : bool) :
  let '(states, state0, env1) := precompute_states instrs exit env0 in
  List.length states = List.length instrs
  /\ (use_liveness_analysis_ T = true ->
      let '(ok, out, ls) :=
        instrument_loop T stack_mode image_format instrs
          {| iter_state := states; state := state0; memory_state := m0;
             env := env1; happened := h |} in
      ok = true -> iter_state ls = []).
Proof.
  pose proof (precompute_states_length instrs exit env0) as [Hlen _].
  destruct (precompute_states instrs exit env0) as [[states state0] env1].
  cbn [fst] in Hlen. split; [exact Hlen|].
  intros Hl.
  destruct (instrument_loop T stack_mode image_format instrs _)
    as [[ok out] ls] eqn:Hrun.
  intros Hok.
  eapply (instrument_loop_liveness T stack_mode image_format Hl instrs);
    [|exact Hrun | exact Hok].
  exact Hlen.
Qed.

(** The random generator is consulted at most once for each instruction, and
    not at all when the rate is not below 1. *)
Lemma instrument_loop_draws (T : AsanBasicBlockTransform)
    (stack_mode : StackAccessMode) (image_format : ImageFormat)
    (instrs : list Instruction) :
  forall ls ok out ls',
    instrument_loop T stack_mode image_format instrs ls = (ok, out, ls') ->
    (rand_draws (env ls) <= rand_draws (env ls')
     <= rand_draws (env ls) + List.length instrs)%nat
    /\ (SFltb (instrumentation_rate_ T) double_1 = false ->
        rand_draws (env ls') = rand_draws (env ls)).
Proof.
  induction instrs as [|instr rest IH]; intros ls ok out ls' Hrun.
  - cbn in Hrun. inversion Hrun; subst. cbn. split; [lia | reflexivity].
  - cbn [instrument_loop] in Hrun.
    pose proof (instrument_instruction_state T stack_mode image_format instr
                  ls) as Hst.
    cbv zeta in Hst. destruct Hst as (_ & _ & _ & Hd & _).
    destruct (instrument_instruction T stack_mode image_format instr ls)
      as [ls1 o]. cbn [fst] in Hd. cbn [List.length].
    assert (Hstep : (rand_draws (env ls) <= rand_draws (env ls1)
                     <= rand_draws (env ls) + 1)%nat
                    /\ (SFltb (instrumentation_rate_ T) double_1 = false ->
                        rand_draws (env ls1) = rand_draws (env ls))).
    { destruct Hd as [Hd | [Hr Hd]]; rewrite Hd; (split; [lia|]);
        intros Hrate; [reflexivity | congruence]. }
    destruct Hstep as [Hs1 Hs2].
    destruct o as [|info operand code|info].
    + destruct (instrument_loop T stack_mode image_format rest ls1)
        as [[ok1 out1] ls2] eqn:Hr.
      inversion Hrun; subst. destruct (IH _ _ _ _ Hr) as [IH1 IH2].
      split; [lia | intros Hrate; rewrite (IH2 Hrate); auto].
    + destruct (instrument_loop T stack_mode image_format rest ls1)
        as [[ok1 out1] ls2] eqn:Hr.
      inversion Hrun; subst. destruct (IH _ _ _ _ Hr) as [IH1 IH2].
      split; [lia | intros Hrate; rewrite (IH2 Hrate); auto].
    + inversion Hrun; subst. split; [lia | exact Hs2].
Qed.

(** X8. [InstrumentBasicBlock] consults the random generator at most once
    for each instruction of the block, and never when the stored rate is
    not below 1.0: at full rate the instrumentation does not depend on the
    generator. *)
Theorem InstrumentBasicBlock_random_draws (T : AsanBasicBlockTransform)
    (basic_block : BasicCodeBlock) (stack_mode : StackAccessMode)
    (image_format : ImageFormat) (env0 : Env) :
  let '(ok, slots, T', env1) :=
    InstrumentBasicBlock T basic_block stack_mode image_format env0 in
  (rand_draws env0 <= rand_draws env1
   <= rand_draws env0 + List.length (instructions basic_block))%nat
  /\ (SFltb (instrumentation_rate_ T) double_1 = false ->
      rand_draws env1 = rand_draws env0).
Proof.
  unfold InstrumentBasicBlock.
  destruct (SFeqb (instrumentation_rate_ T) double_0).
  { split; [lia | reflexivity]. }
  assert (H1 : rand_draws
                 (snd (if use_liveness_analysis_ T
                       then precompute_states (instructions basic_block)
                              (Liveness_GetStateAtExitOf (liveness_ T)
                                                         basic_block)
                              (log EvGetStateAtExitOf env0)
                       else ([], LivenessState_default, env0)))
               = rand_draws env0).
  { destruct (use_liveness_analysis_ T); [|reflexivity].
    rewrite (proj2 (precompute_states_length _ _ _)). apply log_draws. }
  destruct (if use_liveness_analysis_ T
            then precompute_states (instructions basic_block)
                   (Liveness_GetStateAtExitOf (liveness_ T) basic_block)
                   (log EvGetStateAtExitOf env0)
            else ([], LivenessState_default, env0)) as [[states st0] e1].
  cbn [snd] in H1.
  assert (H2 : rand_draws
                 (snd (if remove_redundant_checks_ T
                       then (Memory_GetStateAtEntryOf (memory_accesses_ T)
                                                      basic_block,
                             log EvGetStateAtEntryOf e1)
                       else (MemoryState_default, e1)))
               = rand_draws env0).
  { destruct (remove_redundant_checks_ T); cbn [snd];
      rewrite ?log_draws; exact H1. }
  destruct (if remove_redundant_checks_ T
            then (Memory_GetStateAtEntryOf (memory_accesses_ T) basic_block,
                  log EvGetStateAtEntryOf e1)
            else (MemoryState_default, e1)) as [m0 e2].
  cbn [snd] in H2.
  destruct (instrument_loop T stack_mode image_format
              (instructions basic_block) _) as [[ok out] ls] eqn:Hloop.
  destruct (instrument_loop_draws _ _ _ _ _ _ _ _ Hloop) as [Ha Hb].
  cbn [env] in Ha, Hb. rewrite H2 in Ha, Hb. split; assumption.
Qed.

(** The flag of the loop is only ever raised, and while it is down nothing
    was inserted and the loop has not failed. *)
Lemma instrument_loop_happened (T : AsanBasicBlockTransform)
    (stack_mode : StackAccessMode) (image_format : ImageFormat)
    (instrs : list Instruction) :
  forall ls ok out ls',
    instrument_loop T stack_mode image_format instrs ls = (ok, out, ls') ->
    (happened ls = true -> happened ls' = true)
    /\ (happened ls' = false -> ok = true /\ out = untouched instrs).
Proof.
  induction instrs as [|instr rest IH]; intros ls ok out ls' Hrun.
  - cbn in Hrun. inversion Hrun; subst. auto.
  - cbn [instrument_loop] in Hrun.
    pose proof (instrument_instruction_state T stack_mode image_format instr
                  ls) as Hst.
    cbv zeta in Hst. destruct Hst as (_ & _ & _ & _ & Hh & _).
    destruct (instrument_instruction T stack_mode image_format instr ls)
      as [ls1 o]. cbn [fst snd] in Hh.
    destruct o as [|info operand code|info].
    + destruct (instrument_loop T stack_mode image_format rest ls1)
        as [[ok1 out1] ls2] eqn:Hr.
      inversion Hrun; subst. destruct (IH _ _ _ _ Hr) as [IH1 IH2].
      split; [intros H; apply IH1; congruence|].
      intros Hf. destruct (IH2 Hf) as [-> ->]. auto.
    + destruct (instrument_loop T stack_mode image_format rest ls1)
        as [[ok1 out1] ls2] eqn:Hr.
      inversion Hrun; subst. destruct (IH _ _ _ _ Hr) as [IH1 IH2].
      split; [intros _; apply IH1; exact Hh|].
      intros Hf. rewrite (IH1 Hh) in Hf. discriminate.
    + inversion Hrun; subst. split; [intros _; exact Hh|].
      intros Hf. congruence.
Qed.

Lemma InstrumentBasicBlock_happened (T T' : AsanBasicBlockTransform)
    (basic_block : BasicCodeBlock) (stack_mode : StackAccessMode)
    (image_format : ImageFormat) (env0 env1 : Env) (ok : bool)
    (slots : list Slot) :
  InstrumentBasicBlock T basic_block stack_mode image_format env0
  = (ok, slots, T', env1) ->
  (instrumentation_happened_ T = true -> instrumentation_happened_ T' = true)
  /\ (instrumentation_happened_ T' = false ->
      ok = true /\ slots = untouched (instructions basic_block)).
Proof.
  unfold InstrumentBasicBlock.
  destruct (SFeqb (instrumentation_rate_ T) double_0).
  { intros H. inversion H; subst. auto. }
  destruct (if use_liveness_analysis_ T
            then precompute_states (instructions basic_block)
                   (Liveness_GetStateAtExitOf (liveness_ T) basic_block)
                   (log EvGetStateAtExitOf env0)
            else ([], LivenessState_default, env0)) as [[states st0] e1].
  destruct (if remove_redundant_checks_ T
            then (Memory_GetStateAtEntryOf (memory_accesses_ T) basic_block,
                  log EvGetStateAtEntryOf e1)
            else (MemoryState_default, e1)) as [m0 e2].
  destruct (instrument_loop T stack_mode image_format
              (instructions basic_block) _) as [[ok1 out1] ls1] eqn:Hloop.
  intros H. inversion H; subst.
  destruct (instrument_loop_happened _ _ _ _ _ _ _ _ Hloop) as [Ha Hb].
  cbn in *. auto.
Qed.

Lemma instrument_blocks_happened (stack_mode : StackAccessMode)
    (image_format : ImageFormat) (bbs : list BasicBlock) :
  forall (T T' : AsanBasicBlockTransform) (env0 env1 : Env) ok out,
    instrument_blocks T stack_mode image_format bbs env0
    = (ok, out, T', env1) ->
    (instrumentation_happened_ T = true ->
     instrumentation_happened_ T' = true)
    /\ (instrumentation_happened_ T' = false ->
        ok = true /\ out = map untouched_block bbs).
Proof.
  induction bbs as [|b rest IH]; intros T T' env0 env1 ok out Hrun.
  - cbn in Hrun. inversion Hrun; subst. auto.
  - cbn [instrument_blocks] in Hrun.
    destruct b as [bb|id]; cbn [BasicCodeBlock_Cast] in Hrun.
    + destruct (InstrumentBasicBlock T bb stack_mode image_format env0)
        as [[[ok1 slots] T1] e1] eqn:Hbb.
      destruct (InstrumentBasicBlock_happened _ _ _ _ _ _ _ _ _ Hbb)
        as [Ha Hb].
      destruct ok1; cbn [negb] in Hrun.
      * destruct (instrument_blocks T1 stack_mode image_format rest e1)
          as [[[ok2 out2] T2] e2] eqn:Hr.
        inversion Hrun; subst. destruct (IH _ _ _ _ _ _ Hr) as [IH1 IH2].
        split; [auto|]. intros Hf.
        destruct (IH2 Hf) as [-> ->].
        destruct (instrumentation_happened_ T1) eqn:H1;
          [rewrite (IH1 eq_refl) in Hf; discriminate|].
        destruct (Hb eq_refl) as [_ ->]. auto.
      * inversion Hrun; subst. split; [auto|].
        intros Hf. destruct (Hb Hf). discriminate.
    + destruct (instrument_blocks T stack_mode image_format rest env0)
        as [[[ok2 out2] T2] e2] eqn:Hr.
      inversion Hrun; subst. destruct (IH _ _ _ _ _ _ Hr) as [IH1 IH2].
      split; [auto|]. intros Hf. destruct (IH2 Hf) as [-> ->]. auto.
Qed.

(** X9. [TransformBasicBlockSubGraph] only ever raises
    [instrumentation_happened]: a flag that is up stays up.  If the flag is
    down afterwards, the call has succeeded and inserted nothing anywhere in
    the subgraph; this is what the hot-patching wrapper relies on when it
    leaves alone a block whose dry run did not raise the flag. *)
Theorem instrumentation_happened_sound (T : AsanBasicBlockTransform)
    (image_format : ImageFormat) (subgraph : BasicBlockSubGraph)
    (env0 : Env) :
  let '(ok, out, T', env1) :=
    TransformBasicBlockSubGraph T image_format subgraph env0 in
  (instrumentation_happened_ T = true ->
   instrumentation_happened_ T' = true)
  /\ (instrumentation_happened_ T' = false ->
      ok = true /\ out = map untouched_block subgraph).
Proof.
  unfold TransformBasicBlockSubGraph.
  destruct (if use_liveness_analysis_ T
            then (Liveness_Analyze (liveness_ T) subgraph,
                  log EvLivenessAnalyze env0)
            else (liveness_ T, env0)) as [l1 e1].
  destruct (if remove_redundant_checks_ T
            then (Memory_Analyze (memory_accesses_ T) subgraph,
                  log EvMemoryAnalyze e1)
            else (memory_accesses_ T, e1)) as [m1 e2].
  destruct (instrument_blocks (set_analyses T l1 m1) _ image_format subgraph
                              _) as [[[ok out] T'] env1] eqn:Hrun.
  destruct (instrument_blocks_happened _ _ _ _ _ _ _ _ _ Hrun) as [Ha Hb].
  split; [exact Ha | exact Hb].
Qed.

End LoopProperties.

Section SkippingProperties.
Context {D : Decoder} {A : Analyses}.

(** An access whose displacement refers to a block or a basic block, or
    that the filter holds, ends the iteration with [continue]. *)
Lemma reference_or_filtered_skipped (T : AsanBasicBlockTransform)
    (stack_mode : StackAccessMode) (image_format : ImageFormat)
    (instr : Instruction) (ls : LoopState) :
  reference_or_filtered T instr ->
  snd (instrument_instruction T stack_mode image_format instr ls) = Skipped.
Proof.
  intros Hex.
  pose proof (instrument_instruction_cases T stack_mode image_format instr ls)
    as H.
  destruct (snd (instrument_instruction T stack_mode image_format instr ls))
    as [|info operand code|info]; [reflexivity| |]; exfalso.
  - destruct H as (info0 & Hd & Hs & _).
    apply skips_access_false in Hs.
    destruct Hs as (_ & Hr & _ & _ & _ & _ & Hf).
    destruct Hex as [Hex | (op' & i' & Hd' & Hb)]; [congruence|].
    rewrite Hd in Hd'. inversion Hd'; subst. destruct Hb; congruence.
  - destruct H as (operand & info0 & Hd & Hs & _).
    apply skips_access_false in Hs.
    destruct Hs as (_ & Hr & _ & _ & _ & _ & Hf).
    destruct Hex as [Hex | (op' & i' & Hd' & Hb)]; [congruence|].
    rewrite Hd in Hd'. inversion Hd'; subst. destruct Hb; congruence.
Qed.

(** In the loop nothing is inserted before an instruction of a kind every
    iteration passes over, and a block of such instructions leaves the flag
    as it was. *)
Lemma instrument_loop_skipping (T : AsanBasicBlockTransform)
    (stack_mode : StackAccessMode) (image_format : ImageFormat)
    (P : Instruction -> Prop) :
  (forall instr ls,
      P instr ->
      snd (instrument_instruction T stack_mode image_format instr ls)
      = Skipped) ->
  forall instrs (ls : LoopState) ok out ls',
    instrument_loop T stack_mode image_format instrs ls = (ok, out, ls') ->
    (forall s, In s out -> P (original s) -> inserted s = [])
    /\ (Forall P instrs -> ok = true /\ happened ls' = happened ls).
Proof.
  intros HP.
  induction instrs as [|instr rest IH]; intros ls ok out ls' Hrun.
  - cbn in Hrun. inversion Hrun; subst. split; [intros s []|auto].
  - cbn [instrument_loop] in Hrun.
    pose proof (HP instr ls) as Hex.
    pose proof (instrument_instruction_cases T stack_mode image_format
                  instr ls) as Hcase.
    destruct (instrument_instruction T stack_mode image_format instr ls)
      as [ls1 o]. cbn [snd fst] in Hex, Hcase.
    destruct o as [|info operand code|info].
    + destruct (instrument_loop T stack_mode image_format rest ls1)
        as [[ok1 out1] ls2] eqn:Hrest.
      inversion Hrun; subst. destruct (IH _ _ _ _ Hrest) as [IH1 IH2].
      split.
      * intros s [<-|Hin]; [reflexivity | now apply IH1].
      * intros Hall. inversion Hall; subst.
        destruct (IH2 H2) as [-> ->]. auto.
    + destruct (instrument_loop T stack_mode image_format rest ls1)
        as [[ok1 out1] ls2] eqn:Hrest.
      inversion Hrun; subst. destruct (IH _ _ _ _ Hrest) as [IH1 IH2].
      split.
      * intros s [<-|Hin]; [|now apply IH1].
        cbn. intros He. specialize (Hex He). discriminate.
      * intros Hall. inversion Hall; subst.
        specialize (Hex H1). discriminate.
    + inversion Hrun; subst. split.
      * intros s Hin _. apply (In_untouched (instr :: rest)). exact Hin.
      * intros Hall. inversion Hall; subst.
        specialize (Hex H1). discriminate.
Qed.

(** X10. [InstrumentBasicBlock] inserts nothing before an access whose
    displacement carries a reference to a block (a global variable, which
    the source takes to be accessed correctly) or to a basic block (a
    computed jump or a case table), nor before an instruction the filter
    holds; a block made only of such instructions is left uninstrumented
    with success. *)
Theorem InstrumentBasicBlock_skips_references (T T' : AsanBasicBlockTransform)
    (basic_block : BasicCodeBlock) (stack_mode : StackAccessMode)
    (image_format : ImageFormat) (env0 env1 : Env) (ok : bool)
    (slots : list Slot) :
  InstrumentBasicBlock T basic_block stack_mode image_format env0
  = (ok, slots, T', env1) ->
  (forall s, In s slots -> reference_or_filtered T (original s) ->
             inserted s = [])
  /\ (Forall (reference_or_filtered T) (instructions basic_block) ->
      ok = true
      /\ instrumentation_happened_ T' = instrumentation_happened_ T).
Proof.
  unfold InstrumentBasicBlock.
  destruct (SFeqb (instrumentation_rate_ T) double_0).
  { intros H. inversion H; subst. split; [|auto].
    intros s Hin _. eapply In_untouched. exact Hin. }
  destruct (if use_liveness_analysis_ T
            then precompute_states (instructions basic_block)
                   (Liveness_GetStateAtExitOf (liveness_ T) basic_block)
                   (log EvGetStateAtExitOf env0)
            else ([], LivenessState_default, env0)) as [[states st0] e1].
  destruct (if remove_redundant_checks_ T
            then (Memory_GetStateAtEntryOf (memory_accesses_ T) basic_block,
                  log EvGetStateAtEntryOf e1)
            else (MemoryState_default, e1)) as [m0 e2].
  destruct (instrument_loop T stack_mode image_format
              (instructions basic_block) _) as [[ok1 out1] ls1] eqn:Hloop.
  intros H. inversion H; subst.
  destruct (instrument_loop_skipping T stack_mode image_format
              (reference_or_filtered T)
              (reference_or_filtered_skipped T stack_mode image_format)
              _ _ _ _ _ Hloop) as [H1 H2].
  split; [exact H1|].
  intros Hall. destruct (H2 Hall) as [-> Hh]. cbn in *. auto.
Qed.

(** With the redundancy analysis on, the memory state the loop holds at an
    instruction is the state at the entry propagated past the instructions
    before it, and nothing is inserted before an instruction whose accesses
    are all redundant in that state. *)
Lemma instrument_loop_redundant (T : AsanBasicBlockTransform)
    (stack_mode : StackAccessMode) (image_format : ImageFormat)
    (instr : Instruction) (post : list Instruction) :
  remove_redundant_checks_ T = true ->
  forall pre (ls : LoopState) ok out ls',
    instrument_loop T stack_mode image_format (pre ++ instr :: post) ls
    = (ok, out, ls') ->
    HasNonRedundantAccess (propagate_all pre (memory_state ls)) instr
    = false ->
    forall s, nth_error out (List.length pre) = Some s -> inserted s = [].
Proof.
  intros Hrr.
  induction pre as [|p pre IH]; intros ls ok out ls' Hrun Hred s Hs.
  - cbn [app instrument_loop] in Hrun.
    pose proof (instrument_instruction_state T stack_mode image_format instr
                  ls) as Hst.
    cbv zeta in Hst. destruct Hst as (_ & _ & _ & _ & _ & Hskip).
    specialize (Hskip Hrr Hred).
    destruct (instrument_instruction T stack_mode image_format instr ls)
      as [ls1 o]. cbn [snd] in Hskip. subst o.
    destruct (instrument_loop T stack_mode image_format post ls1)
      as [[ok1 out1] ls2].
    inversion Hrun; subst. cbn in Hs. inversion Hs; subst. reflexivity.
  - cbn [app instrument_loop] in Hrun.
    pose proof (instrument_instruction_state T stack_mode image_format p ls)
      as Hst.
    cbv zeta in Hst. destruct Hst as (_ & _ & Hm & _).
    rewrite Hrr in Hm.
    destruct (instrument_instruction T stack_mode image_format p ls)
      as [ls1 o]. cbn [fst] in Hm.
    assert (Hred1 : HasNonRedundantAccess
                      (propagate_all pre (memory_state ls1)) instr = false).
    { rewrite Hm. exact Hred. }
    destruct o as [|info operand code|info].
    + destruct (instrument_loop T stack_mode image_format
                  (pre ++ instr :: post) ls1) as [[ok1 out1] ls2] eqn:Hr.
      inversion Hrun; subst. cbn in Hs.
      exact (IH _ _ _ _ Hr Hred1 s Hs).
    + destruct (instrument_loop T stack_mode image_format
                  (pre ++ instr :: post) ls1) as [[ok1 out1] ls2] eqn:Hr.
      inversion Hrun; subst. cbn in Hs.
      exact (IH _ _ _ _ Hr Hred1 s Hs).
    + inversion Hrun; subst. apply nth_error_In in Hs.
      apply (In_untouched (p :: pre ++ instr :: post)). exact Hs.
Qed.

(** X11. With [remove_redundant_checks] on, [InstrumentBasicBlock] inserts
    nothing before an instruction whose accesses the analysis finds all
    redundant, where the memory state asked is the state at the entry of
    the block propagated forward past every instruction before it, whether
    those were instrumented or not. *)
Theorem InstrumentBasicBlock_redundant_checks (T T' : AsanBasicBlockTransform)
    (basic_block : BasicCodeBlock) (stack_mode : StackAccessMode)
    (image_format : ImageFormat) (env0 env1 : Env) (ok : bool)
    (slots : list Slot) (pre post : list Instruction) (instr : Instruction)
    (s : Slot) :
  remove_redundant_checks_ T = true ->
  instructions basic_block = pre ++ instr :: post ->
  HasNonRedundantAccess
    (propagate_all pre
       (Memory_GetStateAtEntryOf (memory_accesses_ T) basic_block)) instr
  = false ->
  InstrumentBasicBlock T basic_block stack_mode image_format env0
  = (ok, slots, T', env1) ->
  nth_error slots (List.length pre) = Some s ->
  original s = instr /\ inserted s = [].
Proof.
  intros Hrr Hsplit Hred Hrun Hs.
  assert (Ho : original s = instr).
  { pose proof (InstrumentBasicBlock_originals T basic_block stack_mode
                  image_format env0) as Hmap.
    rewrite Hrun in Hmap. cbn [fst snd] in Hmap.
    assert (Hn : nth_error (map original slots) (List.length pre)
                 = Some (original s))
      by (rewrite nth_error_map, Hs; reflexivity).
    rewrite Hmap, Hsplit, nth_error_app2, Nat.sub_diag in Hn by lia.
    cbn in Hn. congruence. }
  split; [exact Ho|]. clear Ho.
  unfold InstrumentBasicBlock in Hrun.
  destruct (SFeqb (instrumentation_rate_ T) double_0).
  { inversion Hrun; subst. apply nth_error_In in Hs.
    eapply In_untouched. exact Hs. }
  destruct (if use_liveness_analysis_ T
            then precompute_states (instructions basic_block)
                   (Liveness_GetStateAtExitOf (liveness_ T) basic_block)
                   (log EvGetStateAtExitOf env0)
            else ([], LivenessState_default, env0)) as [[states st0] e1].
  rewrite Hrr in Hrun.
  destruct (instrument_loop T stack_mode image_format
              (instructions basic_block) _) as [[ok1 out1] ls1] eqn:Hloop.
  inversion Hrun; subst. rewrite Hsplit in Hloop.
  exact (instrument_loop_redundant T stack_mode image_format instr post Hrr
           pre _ _ _ _ Hloop Hred s Hs).
Qed.

Lemma InjectAsanHook_source_range {State : Type}
    (T : AsanBasicBlockTransform) (instr : Instruction)
    (info : MemoryAccessInfo) (op : Operand) (hook : Reference) (st : State)
    (image_format : ImageFormat) (e : Emitted) :
  In e (asm_inserted (InjectAsanHook (assembler_at T instr) info op hook st
                                     image_format)) ->
  emitted_source_range e = expected_source_range T instr.
Proof.
  unfold InjectAsanHook, assembler_at, expected_source_range.
  destruct (debug_friendly_ T), (mode info), image_format; cbn;
    intros H; repeat (destruct H as [<-|H]; [reflexivity|]); contradiction.
Qed.

Lemma instrument_loop_source_range (T : AsanBasicBlockTransform)
    (stack_mode : StackAccessMode) (image_format : ImageFormat)
    (instrs : list Instruction) :
  forall (ls : LoopState) ok out ls',
    instrument_loop T stack_mode image_format instrs ls = (ok, out, ls') ->
    forall s e, In s out -> In e (inserted s) ->
                emitted_source_range e
                = expected_source_range T (original s).
Proof.
  induction instrs as [|instr rest IH]; intros ls ok out ls' Hrun s e Hs He.
  - cbn in Hrun. inversion Hrun; subst. destruct Hs.
  - cbn [instrument_loop] in Hrun.
    pose proof (instrument_instruction_cases T stack_mode image_format
                  instr ls) as Hcase.
    destruct (instrument_instruction T stack_mode image_format instr ls)
      as [ls1 o]. cbn [snd fst] in Hcase.
    destruct o as [|info operand code|info].
    + destruct (instrument_loop T stack_mode image_format rest ls1)
        as [[ok1 out1] ls2] eqn:Hrest.
      inversion Hrun; subst. destruct Hs as [<-|Hs]; [destruct He|].
      exact (IH _ _ _ _ Hrest s e Hs He).
    + destruct (instrument_loop T stack_mode image_format rest ls1)
        as [[ok1 out1] ls2] eqn:Hrest.
      inversion Hrun; subst. destruct Hs as [<-|Hs].
      * cbn [inserted original] in *.
        destruct Hcase as (info0 & _ & _ & _ & Hcode).
        destruct (dry_run_ T); [subst code; destruct He|].
        destruct Hcode as (hook & _ & ->).
        eapply InjectAsanHook_source_range. exact He.
      * exact (IH _ _ _ _ Hrest s e Hs He).
    + inversion Hrun; subst.
      apply (In_untouched (instr :: rest)) in Hs. rewrite Hs in He.
      destruct He.
Qed.

(** X12. Every instruction [InstrumentBasicBlock] inserts carries the
    source range of the instruction it was inserted for when the transform
    is debug-friendly, and no source range otherwise. *)
Theorem InstrumentBasicBlock_source_range (T T' : AsanBasicBlockTransform)
    (basic_block : BasicCodeBlock) (stack_mode : StackAccessMode)
    (image_format : ImageFormat) (env0 env1 : Env) (ok : bool)
    (slots : list Slot) :
  InstrumentBasicBlock T basic_block stack_mode image_format env0
  = (ok, slots, T', env1) ->
  forall s e, In s slots -> In e (inserted s) ->
              emitted_source_range e
              = (if debug_friendly_ T then Some (source_range (original s))
                 else None).
Proof.
  unfold InstrumentBasicBlock.
  destruct (SFeqb (instrumentation_rate_ T) double_0).
  { intros H s e Hs He. inversion H; subst.
    apply In_untouched in Hs. rewrite Hs in He. destruct He. }
  destruct (if use_liveness_analysis_ T
            then precompute_states (instructions basic_block)
                   (Liveness_GetStateAtExitOf (liveness_ T) basic_block)
                   (log EvGetStateAtExitOf env0)
            else ([], LivenessState_default, env0)) as [[states st0] e1].
  destruct (if remove_redundant_checks_ T
            then (Memory_GetStateAtEntryOf (memory_accesses_ T) basic_block,
                  log EvGetStateAtEntryOf e1)
            else (MemoryState_default, e1)) as [m0 e2].
  destruct (instrument_loop T stack_mode image_format
              (instructions basic_block) _) as [[ok1 out1] ls1] eqn:Hloop.
  intros H s e Hs He. inversion H; subst.
  exact (instrument_loop_source_range T stack_mode image_format _ _ _ _ _
           Hloop s e Hs He).
Qed.

End SkippingProperties.

(** ** More on the pass *)

Lemma clamp_idempotent (rate : double) : clamp (clamp rate) = clamp rate.
Proof.
  unfold clamp, std_max, std_min.
  destruct (SFltb rate double_1) eqn:H1.
  - destruct (SFltb double_0 rate) eqn:H0.
    + rewrite H1, H0. reflexivity.
    + reflexivity.
  - reflexivity.
Qed.

Section MorePassProperties.
Context {D : Decoder} {A : Analyses} {L : BlockGraphLibrary}.

(** X13. The rate the child transform of [OnBlock] runs at is the rate given
    to [AsanTransform::set_instrumentation_rate] clamped to [0, 1]: the
    pass clamps it when it is set and the basic-block transform clamps it
    again when [OnBlock] passes it on, and clamping twice is clamping
    once. *)
Theorem OnBlock_child_rate (T : AsanTransform) (rate : double) :
  tx_instrumentation_rate_ (AsanTransform_set_instrumentation_rate T rate)
  = clamp rate
  /\ instrumentation_rate_
       (configure (AsanTransform_set_instrumentation_rate T rate))
     = clamp rate
  /\ instrumentation_rate_
       (set_dry_run
          (configure (AsanTransform_set_instrumentation_rate T rate)) true)
     = clamp rate.
Proof.
  assert (H : instrumentation_rate_
                (configure (AsanTransform_set_instrumentation_rate T rate))
              = clamp (clamp rate)) by reflexivity.
  split; [reflexivity|].
  split; [rewrite H; apply clamp_idempotent|].
  change (instrumentation_rate_
            (configure (AsanTransform_set_instrumentation_rate T rate))
          = clamp rate).
  rewrite H. apply clamp_idempotent.
Qed.

Lemma mem_nat_In (x : nat) (l : list nat) : mem_nat x l = true <-> In x l.
Proof.
  unfold mem_nat. rewrite existsb_exists. split.
  - intros (y & Hy & He). apply Nat.eqb_eq in He. now subst.
  - intros H. exists x. split; [exact H | apply Nat.eqb_refl].
Qed.

(** The blocks [FindHeapInitAndCrtHeapBlocks] records. *)
Lemma FindHeapInitAndCrtHeapBlocks_In (bs : list Block) :
  forall (found : list nat) (id : nat),
    In id (FindHeapInitAndCrtHeapBlocks bs found)
    <-> In id found
        \/ exists b, In b bs /\ block_id b = id
                     /\ (contains (block_name b) "_heap_init" = true
                         \/ contains (block_name b) "_acrt_initialize_heap"
                            = true).
Proof.
  induction bs as [|b rest IH]; intros found id; cbn [FindHeapInitAndCrtHeapBlocks].
  - split; [auto | intros [H|(b & [] & _)]; exact H].
  - rewrite IH. clear IH.
    assert (Hadd : In id (if (if contains (block_name b) "_heap_init"
                              then true
                              else if contains (block_name b)
                                               "_acrt_initialize_heap"
                                   then true else false)
                          then found ++ [block_id b] else found)
                   <-> In id found
                       \/ (block_id b = id
                           /\ (contains (block_name b) "_heap_init" = true
                               \/ contains (block_name b)
                                           "_acrt_initialize_heap" = true))).
    { destruct (contains (block_name b) "_heap_init");
        [|destruct (contains (block_name b) "_acrt_initialize_heap")];
        rewrite ?in_app_iff; cbn [In]; intuition congruence. }
    rewrite Hadd. clear Hadd. split.
    + intros [[H|[Hid Hn]]|(b' & Hb & Hid & Hn)].
      * now left.
      * right. exists b. split; [now left | auto].
      * right. exists b'. split; [now right | auto].
    + intros [H|(b' & [Hb|Hb] & Hid & Hn)].
      * left. now left.
      * subst b'. left. right. auto.
      * right. exists b'. auto.
Qed.

(** What the pre-pass records in the transform object, whatever the import
    of the hooks returns. *)
Lemma PreBlockGraphIteration_records (T T' : AsanTransform)
    (bg bg' : BlockGraph) (status : option Error) :
  PreBlockGraphIteration T bg = (status, T', bg') ->
  status <> Some AlreadyInstrumented ->
  heap_init_blocks_ T'
  = FindHeapInitAndCrtHeapBlocks (blocks bg) (heap_init_blocks_ T)
  /\ static_intercepted_blocks_ T'
     = match image_format bg with
       | PE_IMAGE =>
           PeFindStaticallyLinkedFunctionsToIntercept (use_interceptors_ T)
             (blocks bg) (static_intercepted_blocks_ T)
       | COFF_IMAGE => static_intercepted_blocks_ T
       end.
Proof.
  unfold PreBlockGraphIteration.
  destruct (FindSection bg kThunkSectionName).
  { intros H Hs. inversion H; subst. congruence. }
  destruct (negb (hot_patching_ T)).
  - destruct (ImportAsanCheckAccessHooks _ _ _ _ bg)
      as [[bg1 hooks]|e [bg1 hooks]];
      intros H _; inversion H; subst; split; reflexivity.
  - destruct (EntryThunkTransform bg (instrument_dll_name T)) as [ok bg1].
    destruct (negb ok); intros H _; inversion H; subst; split; reflexivity.
Qed.

(** X14. After a pre-pass that was not refused, [OnBlock] leaves alone
    every block of the image whose name contains "_heap_init" or
    "_acrt_initialize_heap" and, on a PE image, every block the interceptor
    filter selects: it returns success with the transform object, the block
    graph and the analyses untouched, in either mode. *)
Theorem OnBlock_skips_recorded_blocks (T T' : AsanTransform)
    (bg bg' : BlockGraph) (status : option Error) (block : Block) :
  PreBlockGraphIteration T bg = (status, T', bg') ->
  status <> Some AlreadyInstrumented ->
  In block (blocks bg) ->
  contains (block_name block) "_heap_init" = true
  \/ contains (block_name block) "_acrt_initialize_heap" = true
  \/ (image_format bg = PE_IMAGE
      /\ Filter_empty (use_interceptors_ T) = false
      /\ Filter_ShouldIntercept (use_interceptors_ T) block = true) ->
  forall (bg2 : BlockGraph) (env0 : Env),
    OnBlock T' bg2 block env0 = Some (true, T', bg2, env0).
Proof.
  intros Hrun Hs Hin Hkind bg2 env0.
  destruct (PreBlockGraphIteration_records _ _ _ _ _ Hrun Hs) as [Hh Hst].
  unfold OnBlock.
  assert (Hskip : ShouldSkipBlock T' block = true).
  { unfold ShouldSkipBlock.
    destruct (mem_nat (block_id block) (heap_init_blocks_ T')) eqn:E1;
      [reflexivity|].
    destruct (mem_nat (block_id block) (static_intercepted_blocks_ T'))
      eqn:E2; [reflexivity|]. exfalso.
    destruct Hkind as [Hk|[Hk|(Hpe & He & Hf)]].
    - assert (Hm : mem_nat (block_id block) (heap_init_blocks_ T') = true).
      { apply mem_nat_In. rewrite Hh. apply FindHeapInitAndCrtHeapBlocks_In.
        right. exists block. auto. }
      congruence.
    - assert (Hm : mem_nat (block_id block) (heap_init_blocks_ T') = true).
      { apply mem_nat_In. rewrite Hh. apply FindHeapInitAndCrtHeapBlocks_In.
        right. exists block. auto. }
      congruence.
    - assert (Hm : mem_nat (block_id block) (static_intercepted_blocks_ T')
                   = true).
      { apply mem_nat_In. rewrite Hst, Hpe.
        unfold PeFindStaticallyLinkedFunctionsToIntercept. rewrite He.
        apply in_app_iff. right. apply in_map. apply filter_In. auto. }
      congruence. }
  rewrite Hskip. reflexivity.
Qed.

Lemma bind_hooks_coff (entries : InfoMap nat) (stubs : AsanDefaultHookMap)
    (module : ImportedModule) :
  forall (hooks hooks' : AsanHookMap) (bg bg' : BlockGraph),
    image_format bg = COFF_IMAGE ->
    bind_hooks entries stubs module hooks bg = Ok (bg', hooks') ->
    bg' = bg.
Proof.
  induction entries as [|[key idx] rest IH]; intros hooks hooks' bg bg' Hc H.
  - cbn in H. inversion H; reflexivity.
  - cbn [bind_hooks] in H.
    destruct (GetSymbolReference module idx) as [r|]; [|discriminate].
    rewrite Hc in H. exact (IH _ _ _ _ Hc H).
Qed.

(** X15. On a COFF image a successful [ImportAsanCheckAccessHooks] creates
    no stub and redirects no reference: the block graph it leaves is the one
    the COFF import transform returned (which is taken to leave a COFF
    image). *)
Theorem ImportAsanCheckAccessHooks_coff (asan_hook_stub_name : string)
    (use_liveness : bool) (import_module : ImportedModule)
    (hooks hooks' : AsanHookMap) (bg bg' : BlockGraph) :
  image_format bg = COFF_IMAGE ->
  ImportAsanCheckAccessHooks asan_hook_stub_name use_liveness import_module
                             hooks bg
  = Ok (bg', hooks') ->
  exists module1 module2 bg1,
    CoffAddImportsTransform bg module1 = (true, bg1, module2)
    /\ (image_format bg1 = COFF_IMAGE -> bg' = bg1).
Proof.
  intros Hc. unfold ImportAsanCheckAccessHooks. rewrite Hc.
  unfold AddAsanCheckAccessHooks.
  destruct (add_hook_symbols (hook_params use_liveness) (image_format bg)
                             import_module []) as [module1 idx].
  unfold AddImportsFromModule. rewrite Hc.
  destruct (CoffAddImportsTransform bg module1) as [[ok bg1] module2] eqn:Ht.
  destruct ok; cbn [negb]; [|discriminate].
  intros Hbind. exists module1, module2, bg1. split; [exact Ht|].
  intros Hc1. exact (bind_hooks_coff _ _ _ _ _ _ _ Hc1 Hbind).
Qed.

End MorePassProperties.

(** ** The interceptors *)

Section CoffProperties.
Context {C : CoffLibrary}.

Lemma symbol_map_count_In (symbol_map : list string) (name : string) :
  symbol_map_count symbol_map name = true <-> In name symbol_map.
Proof.
  unfold symbol_map_count. rewrite existsb_exists. split.
  - intros (x & Hx & He). apply String.eqb_eq in He. now subst.
  - intros H. exists name. split; [exact H | apply String.eqb_refl].
Qed.

(** A round of the loop, by whether the intercept is handled. *)
Lemma coff_intercept_round_handled (use_interceptors : bool)
    (symbol_map : list string) (st : list (string * string) * bool)
    (i : AsanIntercept) :
  coff_intercept_round use_interceptors symbol_map st i
  = match coff_handled use_interceptors i with
    | None => st
    | Some d =>
        (fst st ++ coff_renames_of d,
         snd st
         || symbol_map_count symbol_map
              (kDecoratedAsanInterceptPrefix ++ d)%string
         || symbol_map_count symbol_map
              (kDecoratedImportPrefix ++ kDecoratedAsanInterceptPrefix
               ++ d)%string)
    end.
Proof.
  unfold coff_intercept_round, coff_handled.
  destruct (negb use_interceptors && optional i); [reflexivity|].
  destruct (decorated_name i) as [d|]; [|reflexivity].
  cbn [fold_left]. unfold coff_renames_of. f_equal.
  destruct (snd st), (symbol_map_count symbol_map _),
    (symbol_map_count symbol_map _); reflexivity.
Qed.

Lemma coff_rounds (use_interceptors : bool) (symbol_map : list string)
    (intercepts : list AsanIntercept) :
  forall (ms : list (string * string)) (d : bool),
    fst (fold_left (coff_intercept_round use_interceptors symbol_map)
                   intercepts (ms, d))
    = ms ++ coff_mappings use_interceptors intercepts
    /\ (snd (fold_left (coff_intercept_round use_interceptors symbol_map)
                       intercepts (ms, d)) = true
        <-> d = true
            \/ coff_collision use_interceptors intercepts symbol_map).
Proof.
  induction intercepts as [|i rest IH]; intros ms d.
  - cbn. rewrite app_nil_r. split; [reflexivity|].
    split; [auto | intros [H|(i & dd & [] & _)]; exact H].
  - cbn [fold_left]. rewrite coff_intercept_round_handled.
    unfold coff_mappings. cbn [flat_map fst snd].
    destruct (coff_handled use_interceptors i) as [dec|] eqn:Eh.
    + destruct (IH (ms ++ coff_renames_of dec)
                   (d
                    || symbol_map_count symbol_map
                         (kDecoratedAsanInterceptPrefix ++ dec)%string
                    || symbol_map_count symbol_map
                         (kDecoratedImportPrefix
                          ++ kDecoratedAsanInterceptPrefix ++ dec)%string))
        as [IH1 IH2].
      split; [rewrite IH1, <- app_assoc; reflexivity|].
      rewrite IH2. rewrite !orb_true_iff, !symbol_map_count_In. split.
      * intros [[[H|H]|H]|(i0 & d0 & Hin & Hh & Hc)].
        -- now left.
        -- right. exists i, dec. split; [now left | auto].
        -- right. exists i, dec. split; [now left | auto].
        -- right. exists i0, d0. split; [now right | auto].
      * intros [H|(i0 & d0 & [Hin|Hin] & Hh & Hc)].
        -- left. left. now left.
        -- subst i0. rewrite Eh in Hh. inversion Hh; subst d0.
           left. destruct Hc; [left; now right | now right].
        -- right. exists i0, d0. auto.
    + destruct (IH ms d) as [IH1 IH2].
      split; [exact IH1|].
      rewrite IH2. split.
      * intros [H|(i0 & d0 & Hin & Hh & Hc)]; [now left|].
        right. exists i0, d0. split; [now right | auto].
      * intros [H|(i0 & d0 & [Hin|Hin] & Hh & Hc)]; [now left | |].
        -- subst i0. congruence.
        -- right. exists i0, d0. auto.
Qed.

(** X16. [CoffInterceptFunctions], once the symbols of the object file are
    read: if the file defines the Asan version of an intercept the loop
    handles (enabled and with a decorated name), directly or as an import,
    the function fails and leaves the block graph as it was, the rename
    transform not applied; otherwise it applies the rename transform once,
    with two renames for each handled intercept in table order (the
    function and its import, each to its Asan name), and fails exactly when
    the transform does. *)
Theorem CoffInterceptFunctions_renames (use_interceptors : bool)
    (intercepts : list AsanIntercept) (bg : BlockGraph)
    (symbols : list string) :
  FindCoffSpecialBlocks bg = true ->
  BuildCoffSymbolNameOffsetMap bg = Some symbols ->
  (coff_collision use_interceptors intercepts symbols ->
   CoffInterceptFunctions use_interceptors intercepts bg
   = (Some DefinesAsanFunctions, bg))
  /\ (~ coff_collision use_interceptors intercepts symbols ->
      CoffInterceptFunctions use_interceptors intercepts bg
      = (let '(ok, bg') :=
           CoffRenameSymbolsTransform
             (coff_mappings use_interceptors intercepts) bg in
         (if ok then None else Some RenameFailure, bg'))).
Proof.
  intros Hf Hs. unfold CoffInterceptFunctions. rewrite Hf, Hs. cbn [negb].
  destruct (coff_rounds use_interceptors symbols intercepts [] false)
    as [Hm Hd].
  destruct (fold_left (coff_intercept_round use_interceptors symbols)
                      intercepts ([], false)) as [mappings defines].
  cbn [fst snd app] in Hm, Hd. subst mappings. split.
  - intros Hc. assert (Ht : defines = true) by (apply Hd; now right).
    rewrite Ht. reflexivity.
  - intros Hn. destruct defines.
    + exfalso. destruct (proj1 Hd eq_refl) as [H|H];
        [discriminate | contradiction].
    + destruct (CoffRenameSymbolsTransform _ bg) as [ok bg'].
      destruct ok; reflexivity.
Qed.

End CoffProperties.

Lemma name_index_find_app (m : ImportNameIndexMap) (n k : string) (i : nat) :
  name_index_find (m ++ [(n, i)]) k
  = match name_index_find m k with
    | Some x => Some x
    | None => if String.eqb n k then Some i else None
    end.
Proof.
  induction m as [|[n0 i0] rest IH]; cbn; [reflexivity|].
  destruct (String.eqb n0 k); [reflexivity | exact IH].
Qed.

Section StaticInterceptProperties.
Context {L : BlockGraphLibrary}.

(** X17. After [PeLoadInterceptsForStaticallyLinkedFunctions] the import
    index map has an entry for the name of every block it was given, the
    names that had an entry keep their index, and no other name is
    added. *)
Theorem PeLoadInterceptsForStaticallyLinkedFunctions_names
    (static_blocks : list Block) (block_name_prefix : string) :
  forall (import_name_index_map map' : ImportNameIndexMap)
         (asan_rtl rtl' : ImportedModule),
    PeLoadInterceptsForStaticallyLinkedFunctions static_blocks
      import_name_index_map asan_rtl block_name_prefix
    = (map', rtl') ->
    (forall b, In b static_blocks ->
               name_index_find map' (block_name b) <> None)
    /\ (forall name i,
           name_index_find import_name_index_map name = Some i ->
           name_index_find map' name = Some i)
    /\ (forall name,
           name_index_find map' name <> None ->
           name_index_find import_name_index_map name <> None
           \/ exists b, In b static_blocks /\ block_name b = name).
Proof.
  induction static_blocks as [|b rest IH];
    intros m m' rtl rtl' Hrun.
  - cbn in Hrun. inversion Hrun; subst.
    split; [intros b []|]. split; auto.
  - cbn [PeLoadInterceptsForStaticallyLinkedFunctions] in Hrun.
    destruct (name_index_find m (block_name b)) as [i0|] eqn:Ef.
    + destruct (IH _ _ _ _ Hrun) as (IH1 & IH2 & IH3).
      split; [|split].
      * intros b' [<-|Hb]; [|now apply IH1].
        rewrite (IH2 _ _ Ef). discriminate.
      * exact IH2.
      * intros name Hn. destruct (IH3 name Hn) as [H|(b' & Hb & He)];
          [now left|]. right. exists b'. split; [now right | exact He].
    + destruct (AddSymbol rtl (block_name_prefix ++ block_name b)
                          kAlwaysImport) as [rtl1 index].
      unfold name_index_insert in Hrun. rewrite Ef in Hrun.
      destruct (IH _ _ _ _ Hrun) as (IH1 & IH2 & IH3).
      split; [|split].
      * intros b' [<-|Hb]; [|now apply IH1].
        rewrite (IH2 (block_name b) index); [discriminate|].
        rewrite name_index_find_app, Ef, String.eqb_refl. reflexivity.
      * intros name i Hi. apply IH2.
        rewrite name_index_find_app, Hi. reflexivity.
      * intros name Hn. destruct (IH3 name Hn) as [H|(b' & Hb & He)].
        -- rewrite name_index_find_app in H.
           destruct (name_index_find m name); [left; discriminate|].
           destruct (String.eqb (block_name b) name) eqn:Ee;
             [|congruence].
           apply String.eqb_eq in Ee. right. exists b. split; [now left|auto].
        -- right. exists b'. split; [now right | exact He].
Qed.

End StaticInterceptProperties.

Section MoreImportProperties.
Context {D : Decoder} {L : BlockGraphLibrary}.

Lemma map_set_length_fresh {V : Type} (m : InfoMap V) (k : MemoryAccessInfo)
    (v : V) :
  ~ In k (map fst m) -> List.length (map_set m k v) = S (List.length m).
Proof.
  induction m as [|[k0 v0] rest IH]; cbn [map_set map fst In List.length];
    [reflexivity|].
  intros Hn.
  destruct (MemoryAccessInfo_lt k k0) eqn:E1; [reflexivity|].
  destruct (MemoryAccessInfo_lt k0 k) eqn:E2.
  - cbn [List.length]. rewrite IH; [reflexivity|]. tauto.
  - exfalso. apply Hn. left. now apply MemoryAccessInfo_lt_total.
Qed.

Lemma add_hook_symbols_length (params : list MemoryAccessInfo)
    (fmt : ImageFormat) :
  NoDup params ->
  forall (module : ImportedModule) (idx : InfoMap nat),
    (forall p, In p params -> ~ In p (map fst idx)) ->
    List.length (snd (add_hook_symbols params fmt module idx))
    = (List.length idx + List.length params)%nat.
Proof.
  induction 1 as [|p rest Hnotin Hnd IH]; intros module idx Hfresh.
  - cbn. lia.
  - cbn [add_hook_symbols].
    destruct (AddSymbol module (GetAsanCheckAccessFunctionName p fmt)
                        kAlwaysImport) as [module1 symbol_idx].
    rewrite IH.
    + rewrite map_set_length_fresh by (apply Hfresh; now left).
      cbn [List.length]. lia.
    + intros q Hq Hin. apply in_map_iff in Hin.
      destruct Hin as ([k i] & Hk & Hin). cbn in Hk. subst k.
      apply In_map_set in Hin. destruct Hin as [Hin|[-> _]].
      * apply (Hfresh q); [now right|]. apply in_map_iff.
        exists (q, i). auto.
      * contradiction.
Qed.

(** X18. The assertion after the first loop of [AddAsanCheckAccessHooks]
    holds for the vector [ImportAsanCheckAccessHooks] builds: when the
    codes of the four string mnemonics are distinct, the map from access
    descriptor to symbol index has as many entries as the vector, so no two
    variants of the enumeration share an entry. *)
Theorem AddAsanCheckAccessHooks_index_size (use_liveness : bool)
    (fmt : ImageFormat) (module : ImportedModule) :
  NoDup [I_CMPS; I_LODS; I_MOVS; I_STOS] ->
  List.length
    (snd (add_hook_symbols (hook_params use_liveness) fmt module []))
  = List.length (hook_params use_liveness).
Proof.
  intros Hcodes. rewrite add_hook_symbols_length; [reflexivity| |auto].
  rewrite hook_params_value. apply NoDup_app.
  - apply NoDup_load_store_part.
    repeat (constructor; [cbn; intuition lia|]). constructor.
  - apply NoDup_string_part; [exact Hcodes|].
    repeat (constructor; [cbn; intuition lia|]). constructor.
  - intros x Hx Hin. apply In_load_store_part in Hx.
    apply In_string_part in Hin.
    destruct Hx as (_ & [Hm|Hm] & _), Hin as (_ & _ & [Hm'|Hm'] & _);
      congruence.
Qed.

End MoreImportProperties.

Section FailureProperties.
Context {D : Decoder} {A : Analyses}.

(** A loop that returns false has met an access for which no hook was
    found. *)
Lemma instrument_loop_failure (T : AsanBasicBlockTransform)
    (stack_mode : StackAccessMode) (image_format : ImageFormat)
    (instrs : list Instruction) :
  forall (ls : LoopState) out ls',
    instrument_loop T stack_mode image_format instrs ls = (false, out, ls') ->
    exists instr ls0 info,
      In instr instrs
      /\ snd (instrument_instruction T stack_mode image_format instr ls0)
         = ReturnedFalse info.
Proof.
  induction instrs as [|instr rest IH]; intros ls out ls' Hrun.
  - cbn in Hrun. discriminate.
  - cbn [instrument_loop] in Hrun.
    destruct (instrument_instruction T stack_mode image_format instr ls)
      as [ls1 o] eqn:Hi.
    destruct o as [|info operand code|info].
    + destruct (instrument_loop T stack_mode image_format rest ls1)
        as [[ok1 out1] ls2] eqn:Hrest.
      inversion Hrun; subst.
      destruct (IH _ _ _ Hrest) as (i & l0 & inf & Hin & Hf).
      exists i, l0, inf. split; [now right | exact Hf].
    + destruct (instrument_loop T stack_mode image_format rest ls1)
        as [[ok1 out1] ls2] eqn:Hrest.
      inversion Hrun; subst.
      destruct (IH _ _ _ Hrest) as (i & l0 & inf & Hin & Hf).
      exists i, l0, inf. split; [now right | exact Hf].
    + exists instr, ls, info. split; [now left|]. rewrite Hi. reflexivity.
Qed.

(** X19. With a hook table that binds every variant of the enumeration,
    [InstrumentBasicBlock] returns false only outside dry-run mode and only
    for a block that holds an access which passes every test of the loop
    and whose probe is not of the enumeration (a size or a string
    instruction that has no probe, a REPNZ prefix). *)
Theorem InstrumentBasicBlock_fails_only_unknown_probe
    (T T' : AsanBasicBlockTransform) (basic_block : BasicCodeBlock)
    (stack_mode : StackAccessMode) (image_format : ImageFormat)
    (env0 env1 : Env) (slots : list Slot) :
  (forall x, In x (hook_params (use_liveness_analysis_ T)) ->
             map_find (check_access_hooks_ T) x <> None) ->
  InstrumentBasicBlock T basic_block stack_mode image_format env0
  = (false, slots, T', env1) ->
  dry_run_ T = false
  /\ exists instr operand info0 st,
       In instr (instructions basic_block)
       /\ DecodeMemoryAccess instr initial_info = Some (operand, info0)
       /\ skips_access T stack_mode instr operand info0 = false
       /\ ~ In (select_probe T info0 st)
              (hook_params (use_liveness_analysis_ T)).
Proof.
  intros Htable. unfold InstrumentBasicBlock.
  destruct (SFeqb (instrumentation_rate_ T) double_0); [discriminate|].
  destruct (if use_liveness_analysis_ T
            then precompute_states (instructions basic_block)
                   (Liveness_GetStateAtExitOf (liveness_ T) basic_block)
                   (log EvGetStateAtExitOf env0)
            else ([], LivenessState_default, env0)) as [[states st0] e1].
  destruct (if remove_redundant_checks_ T
            then (Memory_GetStateAtEntryOf (memory_accesses_ T) basic_block,
                  log EvGetStateAtEntryOf e1)
            else (MemoryState_default, e1)) as [m0 e2].
  destruct (instrument_loop T stack_mode image_format
              (instructions basic_block) _) as [[ok1 out1] ls1] eqn:Hloop.
  intros H. inversion H; subst.
  destruct (instrument_loop_failure _ _ _ _ _ _ _ Hloop)
    as (instr & ls0 & info & Hin & Hf).
  pose proof (instrument_instruction_cases T stack_mode image_format instr
                ls0) as Hcase.
  rewrite Hf in Hcase. cbv zeta in Hcase.
  destruct Hcase as (operand & info0 & Hd & Hs & Hi & Hdry & Hnone).
  split; [exact Hdry|].
  exists instr, operand, info0, (fst (current_liveness T ls0)).
  repeat split; auto.
  intros Hx. apply Htable in Hx. rewrite <- Hi in Hx. contradiction.
Qed.

End FailureProperties.

(** ** The further properties on concrete inputs *)

(** X1 on three probe variants: read of 4 bytes, write of 4 bytes, MOVS of
    4 bytes. *)
Lemma MemoryAccessInfo_lt_strict_total_order_witness :
  MemoryAccessInfo_lt (load_store kReadAccess 4 true)
                      (load_store kWriteAccess 4 true) = true
  /\ MemoryAccessInfo_lt (load_store kWriteAccess 4 true)
                         (string_probe kInstrAccess 4 295) = true
  /\ MemoryAccessInfo_lt (load_store kReadAccess 4 true)
                         (string_probe kInstrAccess 4 295) = true.
Proof.
  split; [reflexivity|]. split; [reflexivity|].
  exact (proj1 (proj2 MemoryAccessInfo_lt_strict_total_order)
           (load_store kReadAccess 4 true) (load_store kWriteAccess 4 true)
           (string_probe kInstrAccess 4 295) eq_refl eq_refl).
Defined.

(** X2 on a COFF image, for a vector of two variants: the probe of REPZ
    MOVS on 4 bytes is bound. *)
Lemma AddAsanCheckAccessHooks_binds_witness :
  exists bg' hooks',
    AddAsanCheckAccessHooks (D := sample_decoder)
      (L := sample_library [] true)
      [load_store kReadAccess 4 true; string_probe kRepzAccess 4 295] [] []
      [] (sample_graph COFF_IMAGE)
    = Ok (bg', hooks')
    /\ exists r, map_find hooks' (string_probe kRepzAccess 4 295) = Some r.
Proof.
  let r := eval vm_compute in
        (AddAsanCheckAccessHooks (D := sample_decoder)
           (L := sample_library [] true)
           [load_store kReadAccess 4 true; string_probe kRepzAccess 4 295]
           [] [] [] (sample_graph COFF_IMAGE)) in
  match r with
  | Ok (?b, ?h) => exists b, h
  end.
  split; [vm_compute; reflexivity|].
  refine (proj1 (AddAsanCheckAccessHooks_binds (D := sample_decoder)
                   (L := sample_library [] true)
                   [load_store kReadAccess 4 true;
                    string_probe kRepzAccess 4 295] [] [] [] _
                   (sample_graph COFF_IMAGE) _ _)
                (string_probe kRepzAccess 4 295) _);
    [vm_compute; reflexivity | right; left; reflexivity].
Defined.

(** X3 on a PE image with the liveness analysis on: the probe of a 4-byte
    read that does not save the flags is in the table. *)
Lemma PreBlockGraphIteration_probe_table_witness :
  exists T' bg',
    PreBlockGraphIteration (D := sample_decoder)
      (L := sample_library [] true)
      (sample_pass true false) (sample_graph PE_IMAGE)
    = (None, T', bg')
    /\ exists r,
         map_find (check_access_hooks_ref_ T')
                  (load_store kReadAccess 4 false) = Some r.
Proof.
  let r := eval vm_compute in
        (PreBlockGraphIteration (D := sample_decoder)
           (L := sample_library [] true)
           (sample_pass true false) (sample_graph PE_IMAGE)) in
  match r with
  | (_, ?T', ?bg') => exists T', bg'
  end.
  split; [vm_compute; reflexivity|].
  refine (PreBlockGraphIteration_probe_table (D := sample_decoder)
            (L := sample_library [] true)
            (sample_pass true false) _ (sample_graph PE_IMAGE) _
            (load_store kReadAccess 4 false) eq_refl _ _).
  - vm_compute. reflexivity.
  - left. cbn. intuition auto.
Defined.

(** X7 on a block of two instructions with the liveness analysis on. *)
Lemma liveness_states_consumed_witness :
  let '(states, state0, env1) :=
    precompute_states (A := sample_analyses true false)
      [mov_eax_ebx_4; lea_eax_ebx_4] true empty_env in
  List.length states = 2%nat
  /\ exists ok out ls,
       instrument_loop (D := sample_decoder)
         (sample_transform true false true false) kSafeStackAccess PE_IMAGE
         [mov_eax_ebx_4; lea_eax_ebx_4]
         {| iter_state := states; state := state0; memory_state := tt;
            env := env1; happened := false |}
       = (ok, out, ls)
       /\ ok = true /\ iter_state ls = [].
Proof.
  pose proof (liveness_states_consumed (D := sample_decoder)
                (sample_transform true false true false) kSafeStackAccess
                PE_IMAGE [mov_eax_ebx_4; lea_eax_ebx_4] true empty_env tt
                false) as H.
  destruct (precompute_states (A := sample_analyses true false)
              [mov_eax_ebx_4; lea_eax_ebx_4] true empty_env)
    as [[states state0] env1] eqn:Ep.
  destruct H as [Hlen H]. split; [exact Hlen|].
  specialize (H eq_refl).
  vm_compute in Ep. inversion Ep; subst. clear Ep.
  destruct (instrument_loop _ _ _ _ _) as [[ok out] ls] eqn:E.
  exists ok, out, ls. split; [reflexivity|].
  assert (Hok : ok = true).
  { vm_compute in E. inversion E. reflexivity. }
  split; [exact Hok | exact (H Hok)].
Defined.

(** X8 at rate 1.0: no number is drawn. *)
Lemma InstrumentBasicBlock_random_draws_witness :
  exists ok slots T' env1,
    InstrumentBasicBlock (D := sample_decoder)
      (sample_transform true false false false)
      {| bb_id := 0%nat; instructions := [mov_eax_ebx_4; movs] |}
      kSafeStackAccess PE_IMAGE empty_env
    = (ok, slots, T', env1)
    /\ rand_draws env1 = 0%nat.
Proof.
  pose proof (InstrumentBasicBlock_random_draws (D := sample_decoder)
                (sample_transform true false false false)
                {| bb_id := 0%nat; instructions := [mov_eax_ebx_4; movs] |}
                kSafeStackAccess PE_IMAGE empty_env) as H.
  destruct (InstrumentBasicBlock _ _ _ _ _) as [[[ok slots] T'] env1].
  exists ok, slots, T', env1. split; [reflexivity|].
  exact (proj2 H eq_refl).
Defined.

(** X9 on a dry run over a block that holds only a LEA: the flag stays
    down and nothing is inserted. *)
Lemma instrumentation_happened_sound_witness :
  exists ok out T' env1,
    TransformBasicBlockSubGraph (D := sample_decoder)
      (sample_transform true false false true) PE_IMAGE
      [CodeBasicBlock {| bb_id := 0%nat; instructions := [lea_eax_ebx_4] |}]
      empty_env
    = (ok, out, T', env1)
    /\ instrumentation_happened_ T' = false
    /\ ok = true
    /\ out = [InstrumentedCode 0 [{| inserted := [];
                                     original := lea_eax_ebx_4 |}]].
Proof.
  pose proof (instrumentation_happened_sound (D := sample_decoder)
                (sample_transform true false false true) PE_IMAGE
                [CodeBasicBlock {| bb_id := 0%nat;
                                   instructions := [lea_eax_ebx_4] |}]
                empty_env) as H.
  destruct (TransformBasicBlockSubGraph _ _ _ _) as [[[ok out] T'] env1]
    eqn:E.
  exists ok, out, T', env1. split; [reflexivity|].
  assert (Hh : instrumentation_happened_ T' = false).
  { vm_compute in E. inversion E. reflexivity. }
  split; [exact Hh|]. exact (proj2 H Hh).
Defined.

(** X10 on a block made of an access to a global variable and a jump through
    a case table. *)
Lemma InstrumentBasicBlock_skips_references_witness :
  Forall (reference_or_filtered (D := sample_decoder)
            (sample_transform true false false false))
         [mov_eax_global; jmp_table]
  /\ exists slots T' env1,
       InstrumentBasicBlock (D := sample_decoder)
         (sample_transform true false false false)
         {| bb_id := 0%nat; instructions := [mov_eax_global; jmp_table] |}
         kSafeStackAccess PE_IMAGE empty_env
       = (true, slots, T', env1)
       /\ instrumentation_happened_ T' = false.
Proof.
  assert (Hall : Forall (reference_or_filtered (D := sample_decoder)
                           (sample_transform true false false false))
                        [mov_eax_global; jmp_table]).
  { apply Forall_cons; [|apply Forall_cons; [|apply Forall_nil]];
      right; do 2 eexists; (split; [vm_compute; reflexivity|]);
      [left | right]; reflexivity. }
  split; [exact Hall|].
  destruct (InstrumentBasicBlock (D := sample_decoder)
              (sample_transform true false false false)
              {| bb_id := 0%nat; instructions := [mov_eax_global; jmp_table] |}
              kSafeStackAccess PE_IMAGE empty_env)
    as [[[ok slots] T'] env1] eqn:E.
  destruct (proj2 (InstrumentBasicBlock_skips_references
                     (D := sample_decoder) _ _ _ _ _ _ _ _ _ E) Hall)
    as [-> Hh].
  exists slots, T', env1. split; [reflexivity | exact Hh].
Defined.

(** X11 on a block of two loads where the analysis needs a check for the
    first instruction of a block only: nothing is inserted before the
    second. *)
Lemma InstrumentBasicBlock_redundant_checks_witness :
  exists ok s0 s1 T' env1,
    InstrumentBasicBlock (D := sample_decoder) (A := counting_analyses)
      counting_transform
      {| bb_id := 0%nat; instructions := [mov_at_5; mov_eax_ebx_4] |}
      kSafeStackAccess PE_IMAGE empty_env
    = (ok, [s0; s1], T', env1)
    /\ List.length (inserted s0) = 3%nat
    /\ original s1 = mov_eax_ebx_4 /\ inserted s1 = [].
Proof.
  let r := eval vm_compute in
        (InstrumentBasicBlock (D := sample_decoder) (A := counting_analyses)
           counting_transform
           {| bb_id := 0%nat; instructions := [mov_at_5; mov_eax_ebx_4] |}
           kSafeStackAccess PE_IMAGE empty_env) in
  match r with
  | (?ok, [?s0; ?s1], ?T', ?env1) => exists ok, s0, s1, T', env1
  end.
  split; [vm_compute; reflexivity|]. split; [reflexivity|].
  eapply (InstrumentBasicBlock_redundant_checks (D := sample_decoder)
            (A := counting_analyses) counting_transform _
            {| bb_id := 0%nat; instructions := [mov_at_5; mov_eax_ebx_4] |}
            kSafeStackAccess PE_IMAGE empty_env _ _ _ [mov_at_5] []
            mov_eax_ebx_4).
  - reflexivity.
  - reflexivity.
  - reflexivity.
  - vm_compute. reflexivity.
  - reflexivity.
Defined.

(** X12 on a debug-friendly transform: the three instructions inserted for
    the load at source range 5 carry that range. *)
Lemma InstrumentBasicBlock_source_range_witness :
  exists ok slots T' env1,
    InstrumentBasicBlock (D := sample_decoder) (A := counting_analyses)
      counting_transform
      {| bb_id := 0%nat; instructions := [mov_at_5; mov_eax_ebx_4] |}
      kSafeStackAccess PE_IMAGE empty_env
    = (ok, slots, T', env1)
    /\ map (fun s => map emitted_source_range (inserted s)) slots
       = [[Some 5; Some 5; Some 5]; []]%nat
    /\ forall s e, In s slots -> In e (inserted s) ->
                   emitted_source_range e = Some (source_range (original s)).
Proof.
  let r := eval vm_compute in
        (InstrumentBasicBlock (D := sample_decoder) (A := counting_analyses)
           counting_transform
           {| bb_id := 0%nat; instructions := [mov_at_5; mov_eax_ebx_4] |}
           kSafeStackAccess PE_IMAGE empty_env) in
  match r with
  | (?ok, ?slots, ?T', ?env1) => exists ok, slots, T', env1
  end.
  split; [vm_compute; reflexivity|]. split; [vm_compute; reflexivity|].
  refine (InstrumentBasicBlock_source_range (D := sample_decoder)
            (A := counting_analyses) counting_transform _
            {| bb_id := 0%nat; instructions := [mov_at_5; mov_eax_ebx_4] |}
            kSafeStackAccess PE_IMAGE empty_env _ _ _ _).
  vm_compute. reflexivity.
Defined.

(** X14 on an image with a heap initialization block. *)
Lemma OnBlock_skips_recorded_blocks_witness :
  exists T' bg',
    PreBlockGraphIteration (D := sample_decoder)
      (L := sample_library [mov_eax_ebx_4] true)
      (sample_pass false false) heap_graph
    = (None, T', bg')
    /\ heap_init_blocks_ T' = [2%nat]
    /\ OnBlock (D := sample_decoder) (A := sample_analyses true false)
         (L := sample_library [mov_eax_ebx_4] true)
         T' bg' heap_init_block empty_env
       = Some (true, T', bg', empty_env).
Proof.
  let r := eval vm_compute in
        (PreBlockGraphIteration (D := sample_decoder)
           (L := sample_library [mov_eax_ebx_4] true)
           (sample_pass false false) heap_graph) in
  match r with
  | (_, ?T', ?bg') => exists T', bg'
  end.
  split; [vm_compute; reflexivity|]. split; [reflexivity|].
  refine (OnBlock_skips_recorded_blocks (D := sample_decoder)
            (A := sample_analyses true false)
            (L := sample_library [mov_eax_ebx_4] true)
            (sample_pass false false) _ heap_graph _ None heap_init_block
            _ _ _ _ _ empty_env).
  - vm_compute. reflexivity.
  - discriminate.
  - right. left. reflexivity.
  - left. vm_compute. reflexivity.
Defined.

(** X15 on a COFF image: the graph is the one the import transform left. *)
Lemma ImportAsanCheckAccessHooks_coff_witness :
  exists bg' hooks',
    ImportAsanCheckAccessHooks (D := sample_decoder)
      (L := sample_library [] true)
      kAsanHookStubName false [] [] (sample_graph COFF_IMAGE)
    = Ok (bg', hooks')
    /\ bg' = sample_graph COFF_IMAGE.
Proof.
  destruct (ImportAsanCheckAccessHooks (D := sample_decoder)
              (L := sample_library [] true)
              kAsanHookStubName false [] [] (sample_graph COFF_IMAGE))
    as [[bg' hooks']|e s] eqn:E; [|vm_compute in E; discriminate].
  exists bg', hooks'. split; [reflexivity|].
  destruct (ImportAsanCheckAccessHooks_coff (D := sample_decoder)
              (L := sample_library [] true) kAsanHookStubName false [] []
              hooks' (sample_graph COFF_IMAGE) bg' eq_refl E)
    as (m1 & m2 & bg1 & Ht & Himp).
  cbn in Ht. inversion Ht; subst. apply Himp. reflexivity.
Defined.

(** X16 on an object file that defines [_asan_memcpy]. *)
Lemma CoffInterceptFunctions_renames_witness :
  CoffInterceptFunctions (C := sample_coff ["_asan_memcpy"%string]) false
    sample_intercepts (sample_graph COFF_IMAGE)
  = (Some DefinesAsanFunctions, sample_graph COFF_IMAGE)
  /\ CoffInterceptFunctions (C := sample_coff ["_memcpy"%string]) false
       sample_intercepts (sample_graph COFF_IMAGE)
     = (None, sample_graph COFF_IMAGE)
  /\ coff_mappings (C := sample_coff ["_memcpy"%string]) false
       sample_intercepts
     = [("_memcpy", "_asan_memcpy"); ("__imp__memcpy", "__imp__asan_memcpy")]
       %string.
Proof.
  split; [|split; [|reflexivity]].
  - refine (proj1 (CoffInterceptFunctions_renames
                     (C := sample_coff ["_asan_memcpy"%string]) false
                     sample_intercepts (sample_graph COFF_IMAGE)
                     ["_asan_memcpy"%string] eq_refl eq_refl) _).
    exists {| undecorated_name := "memcpy";
              decorated_name := Some "_memcpy"%string;
              intercept_module := None; optional := false |},
      "_memcpy"%string.
    split; [left; reflexivity|]. split; [reflexivity|].
    left. left. reflexivity.
  - reflexivity.
Defined.

(** X17 on three blocks, two of the same name, with an empty map. *)
Lemma PeLoadInterceptsForStaticallyLinkedFunctions_names_witness :
  exists map' rtl',
    PeLoadInterceptsForStaticallyLinkedFunctions
      (L := sample_library [] true)
      [sample_block; heap_init_block; sample_block] [] [] "asan_"
    = (map', rtl')
    /\ rtl' = ["asan_main"; "asan___heap_init"]%string
    /\ name_index_find map' "main" <> None
    /\ name_index_find map' "__heap_init" <> None.
Proof.
  let r := eval vm_compute in
        (PeLoadInterceptsForStaticallyLinkedFunctions
           (L := sample_library [] true)
           [sample_block; heap_init_block; sample_block] [] [] "asan_") in
  match r with
  | (?m, ?rtl) => exists m, rtl
  end.
  split; [vm_compute; reflexivity|]. split; [reflexivity|].
  assert (Hrun : PeLoadInterceptsForStaticallyLinkedFunctions
                   (L := sample_library [] true)
                   [sample_block; heap_init_block; sample_block] [] []
                   "asan_"
                 = ([("main"%string, 0%nat); ("__heap_init"%string, 1%nat)],
                    ["asan_main"; "asan___heap_init"]%string))
    by (vm_compute; reflexivity).
  destruct (PeLoadInterceptsForStaticallyLinkedFunctions_names
              (L := sample_library [] true) _ _ _ _ _ _ Hrun) as (H1 & _).
  split.
  - apply (H1 sample_block). left. reflexivity.
  - apply (H1 heap_init_block). right. left. reflexivity.
Defined.

Lemma sample_string_codes_distinct :
  NoDup [@I_CMPS sample_decoder; @I_LODS sample_decoder;
         @I_MOVS sample_decoder; @I_STOS sample_decoder].
Proof.
  repeat (constructor; [cbn; intuition discriminate|]). constructor.
Qed.

(** X18 for the sample decoder with the liveness analysis on: 52 variants,
    52 entries. *)
Lemma AddAsanCheckAccessHooks_index_size_witness :
  List.length
    (snd (add_hook_symbols (D := sample_decoder)
            (L := sample_library [] true)
            (hook_params (D := sample_decoder) true) PE_IMAGE [] []))
  = 52%nat
  /\ List.length (hook_params (D := sample_decoder) true) = 52%nat.
Proof.
  assert (H : List.length (hook_params (D := sample_decoder) true) = 52%nat)
    by (vm_compute; reflexivity).
  split; [|exact H].
  rewrite (AddAsanCheckAccessHooks_index_size (D := sample_decoder)
             (L := sample_library [] true) true PE_IMAGE []
             sample_string_codes_distinct).
  exact H.
Defined.

Lemma sample_hooks_complete (x : MemoryAccessInfo) :
  In x (hook_params (D := sample_decoder) false) ->
  map_find (sample_hooks false) x <> None.
Proof.
  revert x. apply Forall_forall.
  let l := eval vm_compute in (hook_params (D := sample_decoder) false) in
  change (hook_params (D := sample_decoder) false) with l.
  repeat (constructor; [vm_compute; discriminate|]). constructor.
Qed.

(** X19 on a block that holds a REPNZ SCAS, for which there is no probe. *)
Lemma InstrumentBasicBlock_fails_only_unknown_probe_witness :
  exists slots T' env1,
    InstrumentBasicBlock (D := sample_decoder)
      (sample_transform true false false false)
      {| bb_id := 0%nat; instructions := [mov_eax_ebx_4; repnz_scas] |}
      kSafeStackAccess PE_IMAGE empty_env
    = (false, slots, T', env1)
    /\ exists instr operand info0 st,
         In instr [mov_eax_ebx_4; repnz_scas]
         /\ DecodeMemoryAccess (D := sample_decoder) instr initial_info
            = Some (operand, info0)
         /\ ~ In (select_probe (sample_transform true false false false)
                               info0 st)
                (hook_params (D := sample_decoder) false).
Proof.
  let r := eval vm_compute in
        (InstrumentBasicBlock (D := sample_decoder)
           (sample_transform true false false false)
           {| bb_id := 0%nat; instructions := [mov_eax_ebx_4; repnz_scas] |}
           kSafeStackAccess PE_IMAGE empty_env) in
  match r with
  | (_, ?slots, ?T', ?env1) => exists slots, T', env1
  end.
  assert (Hrun : InstrumentBasicBlock (D := sample_decoder)
                   (sample_transform true false false false)
                   {| bb_id := 0%nat;
                      instructions := [mov_eax_ebx_4; repnz_scas] |}
                   kSafeStackAccess PE_IMAGE empty_env
                 = (false, _, _, _))
    by (vm_compute; reflexivity).
  split; [exact Hrun|].
  destruct (InstrumentBasicBlock_fails_only_unknown_probe
              (D := sample_decoder)
              (sample_transform true false false false) _ _ _ _ _ _ _
              sample_hooks_complete Hrun)
    as (_ & instr & operand & info0 & st & Hin & Hd & _ & Hn).
  exists instr, operand, info0, st. auto.
Defined.

(** ** The dry run *)

Section DryRunPrediction.
Context {D : Decoder} {A : Analyses}.

Lemma InjectAsanHook_nonempty {State : Type} (bb_asm : BasicBlockAssembler)
    (info : MemoryAccessInfo) (op : Operand) (hook : Reference) (st : State)
    (image_format : ImageFormat) :
  asm_inserted (InjectAsanHook bb_asm info op hook st image_format) <> [].
Proof.
  intros H. apply (f_equal (map emitted_instr)) in H.
  rewrite InjectAsanHook_inserted in H. cbn [map] in H.
  apply app_eq_nil in H. destruct H as [_ H].
  apply app_eq_nil in H. destruct H as [_ H]. discriminate.
Qed.

(** An iteration of the dry run against the same iteration of the real
    run: the variables of the loop come out the same, and the dry run
    counts an instrumentation where the real run inserts a probe call or
    finds no hook. *)
Lemma instrument_instruction_dry (T : AsanBasicBlockTransform)
    (stack_mode : StackAccessMode) (image_format : ImageFormat)
    (instr : Instruction) (ls : LoopState) :
  dry_run_ T = false ->
  fst (instrument_instruction (set_dry_run T true) stack_mode image_format
                              instr ls)
  = fst (instrument_instruction T stack_mode image_format instr ls)
  /\ match snd (instrument_instruction T stack_mode image_format instr ls)
     with
     | Skipped =>
         snd (instrument_instruction (set_dry_run T true) stack_mode
                                     image_format instr ls) = Skipped
     | Instrumented _ _ code =>
         code <> []
         /\ exists i o,
              snd (instrument_instruction (set_dry_run T true) stack_mode
                                          image_format instr ls)
              = Instrumented i o []
     | ReturnedFalse _ =>
         exists i o,
           snd (instrument_instruction (set_dry_run T true) stack_mode
                                       image_format instr ls)
           = Instrumented i o []
     end.
Proof.
  intros Hdry. unfold instrument_instruction.
  change (current_liveness (set_dry_run T true) ls)
    with (current_liveness T ls).
  destruct (current_liveness T ls) as [state1 iter1].
  change (redundancy_check (set_dry_run T true) instr ls)
    with (redundancy_check T instr ls).
  destruct (redundancy_check T instr ls (log EvVisitInstruction (env ls)))
    as [[need memory1] env1].
  destruct need; cbn [negb]; [|split; reflexivity].
  destruct (DecodeMemoryAccess instr initial_info) as [[operand info0]|];
    [|split; reflexivity].
  change (skips_access (set_dry_run T true) stack_mode instr operand info0)
    with (skips_access T stack_mode instr operand info0).
  destruct (skips_access T stack_mode instr operand info0);
    [split; reflexivity|].
  change (sampling (set_dry_run T true) env1) with (sampling T env1).
  destruct (sampling T env1) as [sampled env2].
  destruct sampled; [split; reflexivity|].
  rewrite Hdry. cbn [dry_run_ set_dry_run].
  change (select_probe (set_dry_run T true) info0 state1)
    with (select_probe T info0 state1).
  change (assembler_at (set_dry_run T true) instr)
    with (assembler_at T instr).
  rewrite assembler_at_empty.
  change (check_access_hooks_ (set_dry_run T true))
    with (check_access_hooks_ T).
  destruct (map_find (check_access_hooks_ T) (select_probe T info0 state1))
    as [hook|]; cbn [fst snd]; (split; [reflexivity|]).
  - split; [apply InjectAsanHook_nonempty|]. eexists _, _. reflexivity.
  - eexists _, _. reflexivity.
Qed.

Lemma instrument_loop_dry (T : AsanBasicBlockTransform)
    (stack_mode : StackAccessMode) (image_format : ImageFormat)
    (instrs : list Instruction) :
  dry_run_ T = false ->
  forall ls okd outd lsd okr outr lsr,
    instrument_loop (set_dry_run T true) stack_mode image_format instrs ls
    = (okd, outd, lsd) ->
    instrument_loop T stack_mode image_format instrs ls = (okr, outr, lsr) ->
    (okr = true -> lsd = lsr)
    /\ (okr = false -> happened lsd = true /\ happened lsr = true)
    /\ (okr = true -> outr = untouched instrs -> happened lsr = happened ls).
Proof.
  intros Hdry.
  induction instrs as [|instr rest IH];
    intros ls okd outd lsd okr outr lsr Hd Hr.
  - cbn in Hd, Hr. inversion Hd; inversion Hr; subst.
    repeat split; auto; discriminate.
  - cbn [instrument_loop] in Hd, Hr.
    destruct (instrument_instruction_dry T stack_mode image_format instr ls
                Hdry) as [Hfst Hsnd].
    pose proof (instrument_instruction_state T stack_mode image_format instr
                  ls) as Hst.
    cbv zeta in Hst. destruct Hst as (_ & _ & _ & _ & Hh & _).
    destruct (instrument_instruction T stack_mode image_format instr ls)
      as [ls1 o].
    destruct (instrument_instruction (set_dry_run T true) stack_mode
                                     image_format instr ls) as [ls1d od].
    cbn [fst snd] in Hfst, Hsnd, Hh. subst ls1d.
    destruct o as [|info operand code|info].
    + subst od.
      destruct (instrument_loop (set_dry_run T true) stack_mode image_format
                                rest ls1) as [[ok1 out1] ls2] eqn:Ed.
      destruct (instrument_loop T stack_mode image_format rest ls1)
        as [[ok1r out1r] ls2r] eqn:Er.
      inversion Hd; inversion Hr; subst.
      destruct (IH _ _ _ _ _ _ _ Ed Er) as (I1 & I2 & I3).
      split; [exact I1|]. split; [exact I2|].
      intros Hok Hout. cbn in Hout. inversion Hout; subst.
      rewrite I3; auto.
    + destruct Hsnd as (Hcode & i & o & ->).
      destruct (instrument_loop (set_dry_run T true) stack_mode image_format
                                rest ls1) as [[ok1 out1] ls2] eqn:Ed.
      destruct (instrument_loop T stack_mode image_format rest ls1)
        as [[ok1r out1r] ls2r] eqn:Er.
      inversion Hd; inversion Hr; subst.
      destruct (IH _ _ _ _ _ _ _ Ed Er) as (I1 & I2 & I3).
      split; [exact I1|]. split; [exact I2|].
      intros Hok Hout. cbn in Hout. inversion Hout; subst. congruence.
    + destruct Hsnd as (i & o & ->).
      destruct (instrument_loop (set_dry_run T true) stack_mode image_format
                                rest ls1) as [[ok1 out1] ls2] eqn:Ed.
      inversion Hd; inversion Hr; subst.
      split; [discriminate|]. split; [|discriminate].
      intros _. split; [|exact Hh].
      exact (proj1 (instrument_loop_happened _ _ _ _ _ _ _ _ Ed) Hh).
Qed.

Lemma InstrumentBasicBlock_dry (T : AsanBasicBlockTransform)
    (basic_block : BasicCodeBlock) (stack_mode : StackAccessMode)
    (image_format : ImageFormat) (env0 : Env) :
  dry_run_ T = false ->
  forall okd slotsd Td envd okr slotsr Tr envr,
    InstrumentBasicBlock (set_dry_run T true) basic_block stack_mode
                         image_format env0
    = (okd, slotsd, Td, envd) ->
    InstrumentBasicBlock T basic_block stack_mode image_format env0
    = (okr, slotsr, Tr, envr) ->
    dry_run_ Tr = false
    /\ (okr = true -> Td = set_dry_run Tr true /\ envd = envr)
    /\ (okr = false ->
        instrumentation_happened_ Td = true
        /\ instrumentation_happened_ Tr = true)
    /\ (okr = true -> slotsr = untouched (instructions basic_block) ->
        instrumentation_happened_ Tr = instrumentation_happened_ T).
Proof.
  intros Hdry okd slotsd Td envd okr slotsr Tr envr.
  unfold InstrumentBasicBlock.
  change (instrumentation_rate_ (set_dry_run T true))
    with (instrumentation_rate_ T).
  destruct (SFeqb (instrumentation_rate_ T) double_0).
  { intros Hd Hr. inversion Hd; inversion Hr; subst.
    repeat split; auto; discriminate. }
  change (use_liveness_analysis_ (set_dry_run T true))
    with (use_liveness_analysis_ T).
  change (liveness_ (set_dry_run T true)) with (liveness_ T).
  destruct (if use_liveness_analysis_ T
            then precompute_states (instructions basic_block)
                   (Liveness_GetStateAtExitOf (liveness_ T) basic_block)
                   (log EvGetStateAtExitOf env0)
            else ([], LivenessState_default, env0)) as [[states st0] e1].
  change (remove_redundant_checks_ (set_dry_run T true))
    with (remove_redundant_checks_ T).
  change (memory_accesses_ (set_dry_run T true)) with (memory_accesses_ T).
  destruct (if remove_redundant_checks_ T
            then (Memory_GetStateAtEntryOf (memory_accesses_ T) basic_block,
                  log EvGetStateAtEntryOf e1)
            else (MemoryState_default, e1)) as [m0 e2].
  change (instrumentation_happened_ (set_dry_run T true))
    with (instrumentation_happened_ T).
  destruct (instrument_loop (set_dry_run T true) stack_mode image_format
              (instructions basic_block) _) as [[ok1 out1] ls1] eqn:Ed.
  destruct (instrument_loop T stack_mode image_format
              (instructions basic_block) _) as [[ok1r out1r] ls1r] eqn:Er.
  intros Hd Hr. inversion Hd; inversion Hr; subst.
  destruct (instrument_loop_dry T stack_mode image_format _ Hdry _ _ _ _ _ _
              _ Ed Er) as (I1 & I2 & I3).
  split; [exact Hdry|]. split; [|split].
  - intros Hok. rewrite (I1 Hok). split; reflexivity.
  - intros Hok. exact (I2 Hok).
  - intros Hok Hout. exact (I3 Hok Hout).
Qed.

Lemma untouched_block_inj (bbs : list BasicBlock) :
  forall (id : nat) (slots : list Slot) (out : list InstrumentedBlock)
         (b : BasicCodeBlock),
    InstrumentedCode id slots :: out
    = map untouched_block (CodeBasicBlock b :: bbs) ->
    slots = untouched (instructions b) /\ out = map untouched_block bbs.
Proof.
  intros id slots out b H. cbn in H. inversion H. auto.
Qed.

Lemma instrument_blocks_dry (stack_mode : StackAccessMode)
    (image_format : ImageFormat) (bbs : list BasicBlock) :
  forall (T : AsanBasicBlockTransform) (env0 : Env),
    dry_run_ T = false ->
    forall okd outd Td envd okr outr Tr envr,
      instrument_blocks (set_dry_run T true) stack_mode image_format bbs env0
      = (okd, outd, Td, envd) ->
      instrument_blocks T stack_mode image_format bbs env0
      = (okr, outr, Tr, envr) ->
      instrumentation_happened_ Td = instrumentation_happened_ Tr
      /\ (okr = true -> outr = map untouched_block bbs ->
          instrumentation_happened_ Tr = instrumentation_happened_ T).
Proof.
  induction bbs as [|b rest IH];
    intros T env0 Hdry okd outd Td envd okr outr Tr envr Hd Hr.
  - cbn in Hd, Hr. inversion Hd; inversion Hr; subst. split; auto.
  - cbn [instrument_blocks] in Hd, Hr.
    destruct b as [bb|id]; cbn [BasicCodeBlock_Cast] in Hd, Hr.
    + destruct (InstrumentBasicBlock (set_dry_run T true) bb stack_mode
                                     image_format env0)
        as [[[ok1 slots1] T1] e1] eqn:Ed.
      destruct (InstrumentBasicBlock T bb stack_mode image_format env0)
        as [[[ok1r slots1r] T1r] e1r] eqn:Er.
      destruct (InstrumentBasicBlock_dry T bb stack_mode image_format env0
                  Hdry _ _ _ _ _ _ _ _ Ed Er) as (Hd1 & I1 & I2 & I3).
      assert (Hokd : ok1 = true).
      { destruct (InstrumentBasicBlock_dry_run (set_dry_run T true) bb
                    stack_mode image_format env0 eq_refl) as (h & e & Hx).
        rewrite Hx in Ed. inversion Ed. reflexivity. }
      subst ok1. cbn [negb] in Hd.
      destruct (instrument_blocks T1 stack_mode image_format rest e1)
        as [[[ok2 out2] T2] e2] eqn:Ed2.
      inversion Hd; subst. clear Hd.
      destruct ok1r; cbn [negb] in Hr.
      * destruct (I1 eq_refl) as [-> ->].
        destruct (instrument_blocks T1r stack_mode image_format rest e1r)
          as [[[ok2r out2r] T2r] e2r] eqn:Er2.
        inversion Hr; subst. clear Hr.
        destruct (IH _ _ Hd1 _ _ _ _ _ _ _ _ Ed2 Er2) as [J1 J2].
        split; [exact J1|].
        intros Hok Hout. apply untouched_block_inj in Hout.
        destruct Hout as [Hs Ho]. rewrite (J2 Hok Ho). exact (I3 eq_refl Hs).
      * inversion Hr; subst. clear Hr.
        destruct (I2 eq_refl) as [Ha Hb]. split; [|discriminate].
        rewrite Hb.
        exact (proj1 (instrument_blocks_happened _ _ _ _ _ _ _ _ _ Ed2) Ha).
    + destruct (instrument_blocks (set_dry_run T true) stack_mode
                                  image_format rest env0)
        as [[[ok2 out2] T2] e2] eqn:Ed2.
      destruct (instrument_blocks T stack_mode image_format rest env0)
        as [[[ok2r out2r] T2r] e2r] eqn:Er2.
      inversion Hd; inversion Hr; subst.
      destruct (IH _ _ Hdry _ _ _ _ _ _ _ _ Ed2 Er2) as [J1 J2].
      split; [exact J1|].
      intros Hok Hout. cbn in Hout. inversion Hout. auto.
Qed.

(** X20. The dry run predicts the real run: on the same subgraph, from the
    same state of the random generator, [TransformBasicBlockSubGraph] in
    dry-run mode leaves [instrumentation_happened] as the same transform
    outside dry-run mode would; and outside dry-run mode, from a flag that is
    down, the flag stays down exactly when the call succeeds and inserts
    nothing.  So the flag the hot-patching wrapper reads after its dry run is
    up exactly when instrumenting the block would insert a probe call or
    fail on an access without probe. *)
Theorem dry_run_predicts (T : AsanBasicBlockTransform)
    (image_format : ImageFormat) (subgraph : BasicBlockSubGraph)
    (env0 : Env) :
  dry_run_ T = false ->
  let '(_, _, Td, _) :=
    TransformBasicBlockSubGraph (set_dry_run T true) image_format subgraph
                                env0 in
  let '(ok, out, Tr, _) :=
    TransformBasicBlockSubGraph T image_format subgraph env0 in
  instrumentation_happened_ Td = instrumentation_happened_ Tr
  /\ (instrumentation_happened_ T = false ->
      (instrumentation_happened_ Tr = false
       <-> ok = true /\ out = map untouched_block subgraph)).
Proof.
  intros Hdry.
  unfold TransformBasicBlockSubGraph.
  change (use_liveness_analysis_ (set_dry_run T true))
    with (use_liveness_analysis_ T).
  change (liveness_ (set_dry_run T true)) with (liveness_ T).
  destruct (if use_liveness_analysis_ T
            then (Liveness_Analyze (liveness_ T) subgraph,
                  log EvLivenessAnalyze env0)
            else (liveness_ T, env0)) as [l1 e1].
  change (remove_redundant_checks_ (set_dry_run T true))
    with (remove_redundant_checks_ T).
  change (memory_accesses_ (set_dry_run T true)) with (memory_accesses_ T).
  destruct (if remove_redundant_checks_ T
            then (Memory_Analyze (memory_accesses_ T) subgraph,
                  log EvMemoryAnalyze e1)
            else (memory_accesses_ T, e1)) as [m1 e2].
  change (set_analyses (set_dry_run T true) l1 m1)
    with (set_dry_run (set_analyses T l1 m1) true).
  destruct (instrument_blocks (set_dry_run (set_analyses T l1 m1) true) _
                              image_format subgraph _)
    as [[[okd outd] Td] envd] eqn:Ed.
  destruct (instrument_blocks (set_analyses T l1 m1) _ image_format subgraph
                              _) as [[[ok out] Tr] envr] eqn:Er.
  destruct (instrument_blocks_dry _ _ _ (set_analyses T l1 m1) _ Hdry _ _ _ _
              _ _ _ _ Ed Er) as [J1 J2].
  split; [exact J1|].
  intros Hflag. split.
  - exact (proj2 (instrument_blocks_happened _ _ _ _ _ _ _ _ _ Er)).
  - intros [Hok Hout]. rewrite (J2 Hok Hout). exact Hflag.
Qed.

End DryRunPrediction.

(** X20 on a block that holds a load: the dry run raises the flag, as the
    real run does. *)
Lemma dry_run_predicts_witness :
  let '(_, _, Td, _) :=
    TransformBasicBlockSubGraph (D := sample_decoder)
      (set_dry_run (sample_transform true false false false) true) PE_IMAGE
      [CodeBasicBlock {| bb_id := 0%nat; instructions := [mov_eax_ebx_4] |}]
      empty_env in
  let '(ok, out, Tr, _) :=
    TransformBasicBlockSubGraph (D := sample_decoder)
      (sample_transform true false false false) PE_IMAGE
      [CodeBasicBlock {| bb_id := 0%nat; instructions := [mov_eax_ebx_4] |}]
      empty_env in
  instrumentation_happened_ Td = true
  /\ instrumentation_happened_ Tr = true
  /\ ok = true.
Proof.
  pose proof (dry_run_predicts (D := sample_decoder)
                (sample_transform true false false false) PE_IMAGE
                [CodeBasicBlock {| bb_id := 0%nat;
                                   instructions := [mov_eax_ebx_4] |}]
                empty_env eq_refl) as H.
  destruct (TransformBasicBlockSubGraph
              (set_dry_run (sample_transform true false false false) true)
              _ _ _) as [[[okd outd] Td] envd].
  destruct (TransformBasicBlockSubGraph
              (sample_transform true false false false) _ _ _)
    as [[[ok out] Tr] envr] eqn:Er.
  destruct H as [H1 _].
  assert (Hr : instrumentation_happened_ Tr = true /\ ok = true).
  { vm_compute in Er. inversion Er. split; reflexivity. }
  rewrite H1. tauto.
Defined.
